(** * XRPL binary codec: serializer, object codec and account identifiers

    A shallow embedding of
      - xrpl/core/binarycodec/binary_wrappers/binary_serializer.py
      - xrpl/core/binarycodec/types/serialized_dict.py
      - xrpl/core/binarycodec/types/account_id.py
    together with the properties of the canonical encoding that are stated
    about them.

    Python integers are [Z], [bytes] are [list byte], [str] is [string],
    a [dict] is an insertion-ordered association list with distinct keys,
    and a raised exception is the [Raise] branch of [result]. *)

From Stdlib Require Import ZArith List String Ascii Bool Lia Arith.
From Stdlib Require Import Permutation Sorted.
From Stdlib Require Import Init.Byte.
Import ListNotations.

Local Open Scope string_scope.
Local Open Scope list_scope.
Local Open Scope Z_scope.

(* ------------------------------------------------------------------ *)
(** ** Exceptions *)

(** The exception classes that the embedded code raises or lets through.
    [XRPLAddressCodecException] derives from [XRPLException] and not from
    [XRPLBinaryCodecException] (xrpl/core/addresscodec/exceptions.py). *)
Inductive exn_class : Type :=
| ValueError
| OverflowError
| KeyError
| IndexError
| XRPLBinaryCodecException
| XRPLAddressCodecException.

Definition exn_class_eqb (a b : exn_class) : bool :=
  match a, b with
  | ValueError, ValueError
  | OverflowError, OverflowError
  | KeyError, KeyError
  | IndexError, IndexError
  | XRPLBinaryCodecException, XRPLBinaryCodecException
  | XRPLAddressCodecException, XRPLAddressCodecException => true
  | _, _ => false
  end.

(** An exception instance: its class and its [args] tuple (of messages). *)
Record exn : Type := mkExn { exn_cls : exn_class; exn_args : list string }.

Inductive result (A : Type) : Type :=
| Ok (a : A)
| Raise (e : exn).
Arguments Ok {A} a.
Arguments Raise {A} e.

Definition bind {A B : Type} (m : result A) (k : A -> result B) : result B :=
  match m with
  | Ok a => k a
  | Raise e => Raise e
  end.

Notation "x <- m ;; k" := (bind m (fun x => k))
  (at level 61, m at next level, right associativity).
Notation "' p <- m ;; k" := (bind m (fun p => k))
  (at level 61, p pattern, m at next level, right associativity).

Definition is_ok {A : Type} (r : result A) : bool :=
  match r with Ok _ => true | Raise _ => false end.

(* ------------------------------------------------------------------ *)
(** ** Bytes *)

Definition byte_val (b : byte) : Z := Z.of_N (Byte.to_N b).

(** [int.to_bytes(1, byteorder="big", signed=False)]: one byte, or
    [OverflowError] when the integer is negative or above 255. *)
Definition to_bytes1 (n : Z) : result (list byte) :=
  if n <? 0 then
    Raise (mkExn OverflowError ["can't convert negative int to unsigned"])
  else
    match Byte.of_N (Z.to_N n) with
    | Some b => Ok [b]
    | None => Raise (mkExn OverflowError ["int too big to convert"])
    end.

(** [len(b)] as a Python integer. *)
Definition len {A : Type} (l : list A) : Z := Z.of_nat (List.length l).

(** Modelled from the spec: the SerializedValue capability of
    serialized_type.py (not among the sources): a value is the immutable
    byte buffer it renders to; [to_bytes] returns that buffer,
    [byte_length] is its length and [to_byte_sink] appends it to a sink. *)
Record SerializedType : Type := mkSerialized { buffer : list byte }.

Definition to_bytes (v : SerializedType) : list byte := buffer v.
Definition byte_length (v : SerializedType) : Z := len (buffer v).
Definition to_byte_sink (v : SerializedType) (sink : list byte) : list byte :=
  sink ++ buffer v.

(** Modelled from the spec: FieldInstance, the immutable field descriptor
    of the Field Registry (field_instance.py is not among the sources),
    with the attributes that the embedded code reads: [type] is the name of
    the type of the field and [ordinal] the integer sort key of the
    canonical order. *)
Record FieldInstance : Type := mkField {
  name : string;
  type : string;
  ordinal : Z;
  is_serialized : bool;
  is_signing : bool;
  is_variable_length_encoded : bool;
  header : list byte
}.

(* ------------------------------------------------------------------ *)
(** ** binary_serializer.py *)

Module BinarySerializer.

Definition MAX_SINGLE_BYTE_LENGTH : Z := 192.
Definition MAX_DOUBLE_BYTE_LENGTH : Z := 12481.
Definition MAX_SECOND_BYTE_VALUE : Z := 240.
Definition MAX_LENGTH_VALUE : Z := 918744.

(** The [ValueError] of [_encode_variable_length_prefix]; the
    specification calls it FieldTooLong. *)
Definition FieldTooLong : exn :=
  mkExn ValueError ["VariableLength field must be <= 918744 bytes long"].

Definition _encode_variable_length_prefix (length : Z) : result (list byte) :=
  if length <=? MAX_SINGLE_BYTE_LENGTH then
    to_bytes1 length
  else if length <? MAX_DOUBLE_BYTE_LENGTH then
    let length := length - (MAX_SINGLE_BYTE_LENGTH + 1) in
    byte1 <- to_bytes1 (Z.shiftr length 8 + (MAX_SINGLE_BYTE_LENGTH + 1)) ;;
    byte2 <- to_bytes1 (Z.land length 255) ;;
    Ok (byte1 ++ byte2)
  else if length <=? MAX_LENGTH_VALUE then
    let length := length - MAX_DOUBLE_BYTE_LENGTH in
    byte1 <- to_bytes1 ((MAX_SECOND_BYTE_VALUE + 1) + Z.shiftr length 16) ;;
    byte2 <- to_bytes1 (Z.land (Z.shiftr length 8) 255) ;;
    byte3 <- to_bytes1 (Z.land length 255) ;;
    Ok (byte1 ++ byte2 ++ byte3)
  else
    Raise FieldTooLong.

(** The serializer object: its only attribute is the byte sink. *)
Record t : Type := mk { bytesink : list byte }.

(** [BinarySerializer()] *)
Definition init : t := mk [].

(** A method that mutates the serializer and may raise: the outcome
    together with the state the object is left in. *)
Definition method : Type := t -> result unit * t.

Definition append (bytes_object : list byte) : method :=
  fun self => (Ok tt, mk (bytesink self ++ bytes_object)).

(** [bytes(serializer)] *)
Definition bytes (self : t) : list byte := bytesink self.

Definition write_length_encoded (value : SerializedType) : method :=
  fun self =>
    let byte_object := to_byte_sink value [] in
    match _encode_variable_length_prefix (byte_length value) with
    | Raise e => (Raise e, self)
    | Ok length_prefix =>
        let self := mk (bytesink self ++ length_prefix) in
        (Ok tt, mk (bytesink self ++ byte_object))
    end.

Definition write_field_and_value
           (field : FieldInstance) (value : SerializedType) : method :=
  fun self =>
    let self := mk (bytesink self ++ header field) in
    if is_variable_length_encoded field then
      write_length_encoded value self
    else
      (Ok tt, mk (bytesink self ++ to_bytes value)).

End BinarySerializer.

(* ------------------------------------------------------------------ *)
(** ** JSON-like values and Python dictionaries *)

(** The values a JSON object holds ([Any] in the source). *)
#[local] Set Warnings "-register-all".
Inductive json : Type :=
| JNull
| JBool (b : bool)
| JInt (n : Z)
| JStr (s : string)
| JList (l : list json)
| JDict (d : list (string * json)).
#[local] Set Warnings "register-all".

(** [v is not None] *)
Definition is_not_none (v : json) : bool :=
  match v with JNull => false | _ => true end.

(** [v.__class__.__name__] *)
Definition class_name (v : json) : string :=
  match v with
  | JNull => "NoneType"
  | JBool _ => "bool"
  | JInt _ => "int"
  | JStr _ => "str"
  | JList _ => "list"
  | JDict _ => "dict"
  end.

(** A [dict] with string keys: the entries in insertion order.  A
    well-formed dictionary holds every key once ([NoDup (keys d)]). *)
Definition pydict (V : Type) : Type := list (string * V).

Definition keys {V : Type} (d : pydict V) : list string := map fst d.

(** [d.get(k)] *)
Fixpoint dict_get {V : Type} (k : string) (d : pydict V) : option V :=
  match d with
  | [] => None
  | (k', v) :: d' => if String.eqb k k' then Some v else dict_get k d'
  end.

(** [k in d] *)
Definition dict_mem {V : Type} (k : string) (d : pydict V) : bool :=
  match dict_get k d with Some _ => true | None => false end.

(** [d[k]], which raises [KeyError] on a missing key. *)
Definition dict_getitem {V : Type} (k : string) (d : pydict V) : result V :=
  match dict_get k d with
  | Some v => Ok v
  | None => Raise (mkExn KeyError [k])
  end.

(** [d[k] = v]: an existing key keeps its position, a new key goes last. *)
Fixpoint dict_set {V : Type} (k : string) (v : V) (d : pydict V) : pydict V :=
  match d with
  | [] => [(k, v)]
  | (k', v') :: d' =>
      if String.eqb k k' then (k, v) :: d' else (k', v') :: dict_set k v d'
  end.

(** [d.update(other)] *)
Definition dict_update {V : Type} (d other : pydict V) : pydict V :=
  fold_left (fun acc kv => dict_set (fst kv) (snd kv) acc) other d.

(** [k in d and d[k] is not None] *)
Definition has_non_null (k : string) (d : pydict json) : bool :=
  match dict_get k d with
  | Some v => is_not_none v
  | None => false
  end.

(* ------------------------------------------------------------------ *)
(** ** The collaborators of the object codec

    The address codec, the Field Registry and the primitive serialized
    types are not among the sources; the embedded functions take them as
    an environment. *)
Record Env : Type := mkEnv {
  (** xrpl.core.addresscodec *)
  is_valid_xaddress : string -> bool;
  xaddress_to_classic_address : string -> result (string * option Z * bool);
  (** xrpl.core.binarycodec.definitions; the lookup of a field name can
      raise (the library raises [KeyError] for a name it does not hold),
      and its caller tests what it returns against [None] *)
  get_field_instance : string -> result (option FieldInstance);
  get_transaction_type_code : json -> result json;
  get_transaction_result_code : json -> result json;
  get_ledger_entry_type_code : json -> result json;
  (** [field.associated_type.from_value] *)
  associated_from_value : FieldInstance -> json -> result SerializedType;
  (** [BinaryParser.read_field]: header decoding and registry lookup *)
  read_field : list byte -> result (FieldInstance * list byte);
  (** [field.associated_type.from_parser] of the types other than the
      object type, with the length hint *)
  associated_from_parser :
    FieldInstance -> option Z -> list byte -> result (SerializedType * list byte)
}.

(* ------------------------------------------------------------------ *)
(** ** The parser

    binary_parser.py is not among the sources.  The parser is a
    forward-only cursor over an immutable buffer (section 4.1 of the
    specification), here the bytes that remain to be read. *)
Module BinaryParser.

(** Modelled from the spec: BinaryParser, a read cursor over a byte
    buffer. *)
Definition t : Type := list byte.

(** Modelled from the spec: the failure of a read past the end. *)
Definition OutOfRange : exn :=
  mkExn XRPLBinaryCodecException ["read past the end of the buffer"].

(** Modelled from the spec: BinaryParser.is_end, true when the cursor
    has consumed the entire buffer. *)
Definition is_end (parser : t) : bool :=
  match parser with [] => true | _ :: _ => false end.

(** Modelled from the spec: BinaryParser.read_uint8, the next byte as an
    integer. *)
Definition read_uint8 (parser : t) : result (Z * t) :=
  match parser with
  | [] => Raise OutOfRange
  | b :: parser' => Ok (byte_val b, parser')
  end.

(** Modelled from the spec: the decoding of the 1-3 byte length prefix,
    symmetric to [_encode_variable_length_prefix]: the first byte tells
    the tier. *)
Definition _read_length_prefix (parser : t) : result (Z * t) :=
  '(byte1, parser) <- read_uint8 parser ;;
  if byte1 <=? 192 then
    Ok (byte1, parser)
  else if byte1 <=? 240 then
    '(byte2, parser) <- read_uint8 parser ;;
    Ok (193 + (byte1 - 193) * 256 + byte2, parser)
  else if byte1 <=? 254 then
    '(byte2, parser) <- read_uint8 parser ;;
    '(byte3, parser) <- read_uint8 parser ;;
    Ok (12481 + (byte1 - 241) * 65536 + byte2 * 256 + byte3, parser)
  else
    Raise (mkExn XRPLBinaryCodecException
             ["Length prefix must contain between 1 and 3 bytes."]).

End BinaryParser.

(* ------------------------------------------------------------------ *)
(** ** serialized_dict.py *)

Module SerializedDict.

Definition _OBJECT_END_MARKER_BYTE : list byte := [xe1].
Definition _OBJECT_END_MARKER : string := "ObjectEndMarker".
Definition _SERIALIZED_DICT : string := "SerializedDict".
Definition _DESTINATION : string := "Destination".
Definition _ACCOUNT : string := "Account".
Definition _SOURCE_TAG : string := "SourceTag".
Definition _DEST_TAG : string := "DestinationTag".

(** The three [XRPLBinaryCodecException]s of the address/tag handling;
    the specification calls the first AmbiguousTagError and the other
    two ConflictingTagError. *)
Definition AmbiguousTagError (field : string) : exn :=
  mkExn XRPLBinaryCodecException
        [(field ++ " cannot have an associated tag")%string].
Definition ConflictingSourceTag : exn :=
  mkExn XRPLBinaryCodecException
        ["Cannot have Account X-Address and SourceTag"].
Definition ConflictingDestTag : exn :=
  mkExn XRPLBinaryCodecException
        ["Cannot have Destination X-Address and DestinationTag"].


(** Stable sort by [ordinal], as [list.sort(key=lambda x: x.ordinal)]:
    an element goes before the first one whose ordinal is not smaller,
    so that equal ordinals keep their relative order. *)
Fixpoint insert_by_ordinal (x : FieldInstance) (l : list FieldInstance)
  : list FieldInstance :=
  match l with
  | [] => [x]
  | y :: l' =>
      if ordinal x <=? ordinal y then x :: y :: l'
      else y :: insert_by_ordinal x l'
  end.

Definition sort_by_ordinal (l : list FieldInstance) : list FieldInstance :=
  fold_right insert_by_ordinal [] l.

(** Run a serializer method and keep the serializer when it returns. *)
Definition run (m : BinarySerializer.method) (serializer : BinarySerializer.t)
  : result BinarySerializer.t :=
  match m serializer with
  | (Ok _, serializer') => Ok serializer'
  | (Raise e, _) => Raise e
  end.

(** The [except XRPLBinaryCodecException as e] clause of [from_value]:
    [e.args = (f"Error processing {field.name}: {e.args[0]}",) + e.args[1:]]
    and re-raise; [e.args[0]] of an empty tuple raises [IndexError]. *)
Definition annotate (field : FieldInstance) (e : exn) : exn :=
  match exn_cls e with
  | XRPLBinaryCodecException =>
      match exn_args e with
      | [] => mkExn IndexError ["tuple index out of range"]
      | a0 :: rest =>
          mkExn (exn_cls e)
                (("Error processing " ++ name field ++ ": " ++ a0)%string
                   :: rest)
      end
  | _ => e
  end.

Section WithEnv.

Variable env : Env.

Definition _handle_xaddress (field xaddress : string)
  : result (pydict json) :=
  '(classic_address, tag, is_test_network) <-
     xaddress_to_classic_address env xaddress ;;
  let with_tag (tag_name : string) : result (pydict json) :=
    match tag with
    | Some t =>
        Ok (dict_set tag_name (JInt t)
                     (dict_set field (JStr classic_address) []))
    | None => Ok (dict_set field (JStr classic_address) [])
    end in
  if String.eqb field _DESTINATION then with_tag _DEST_TAG
  else if String.eqb field _ACCOUNT then with_tag _SOURCE_TAG
  else
    match tag with
    | Some _ => Raise (AmbiguousTagError field)
    | None => Ok (dict_set field (JStr classic_address) [])
    end.

Definition _str_to_enum (field : string) (value : json) : result json :=
  if String.eqb field "TransactionType" then
    get_transaction_type_code env value
  else if String.eqb field "TransactionResult" then
    get_transaction_result_code env value
  else if String.eqb field "LedgerEntryType" then
    get_ledger_entry_type_code env value
  else Ok value.

(** [isinstance(v, str) and is_valid_xaddress(v)] *)
Definition as_xaddress (v : json) : option string :=
  match v with
  | JStr s => if is_valid_xaddress env s then Some s else None
  | _ => None
  end.

(** One iteration of the first loop of [from_value], on the entry
    [(k, v)] of [value]. *)
Definition decode_item (value : pydict json) (k : string) (v : json)
           (xaddress_decoded : pydict json) : result (pydict json) :=
  match as_xaddress v with
  | Some x =>
      handled <- _handle_xaddress k x ;;
      if has_non_null _SOURCE_TAG handled
         && has_non_null _SOURCE_TAG value then
        Raise ConflictingSourceTag
      else if has_non_null _DEST_TAG handled
              && has_non_null _DEST_TAG value then
        Raise ConflictingDestTag
      else Ok (dict_update xaddress_decoded handled)
  | None =>
      v' <- _str_to_enum k v ;;
      Ok (dict_set k v' xaddress_decoded)
  end.

(** [for (k, v) in value.items(): ...] *)
Fixpoint decode_items (value : pydict json) (items : list (string * json))
         (xaddress_decoded : pydict json) : result (pydict json) :=
  match items with
  | [] => Ok xaddress_decoded
  | (k, v) :: items' =>
      xaddress_decoded <- decode_item value k v xaddress_decoded ;;
      decode_items value items' xaddress_decoded
  end.

(** [for field_name in xaddress_decoded: ...], which collects the
    fields to serialize in the order of the keys. *)
Fixpoint collect_fields (xaddress_decoded : pydict json)
         (field_names : list string) : result (list FieldInstance) :=
  match field_names with
  | [] => Ok []
  | field_name :: field_names' =>
      match get_field_instance env field_name with
      | Raise e => Raise e
      | Ok None => collect_fields xaddress_decoded field_names'
      | Ok (Some field_instance) =>
          v <- dict_getitem (name field_instance) xaddress_decoded ;;
          sorted_keys <- collect_fields xaddress_decoded field_names' ;;
          if is_not_none v && is_serialized field_instance
          then Ok (field_instance :: sorted_keys)
          else Ok sorted_keys
      end
  end.

(** The fields that [from_value] writes, in the order it writes them. *)
Definition sorted_keys (xaddress_decoded : pydict json)
           (only_signing : bool) : result (list FieldInstance) :=
  sorted_keys <-
    collect_fields xaddress_decoded (keys xaddress_decoded) ;;
  let sorted_keys := sort_by_ordinal sorted_keys in
  Ok (if only_signing then filter is_signing sorted_keys
      else sorted_keys).

(** The [try] block of the last loop of [from_value]. *)
Definition typed_value (xaddress_decoded : pydict json)
           (field : FieldInstance) : result SerializedType :=
  v <- dict_getitem (name field) xaddress_decoded ;;
  match associated_from_value env field v with
  | Ok associated_value => Ok associated_value
  | Raise e => Raise (annotate field e)
  end.

(** [serializer.write_field_and_value(field, associated_value)] and,
    for a field of the object type, the object-end marker: the
    statements that close an iteration of the loops of [from_value]
    and of [from_parser]. *)
Definition write_field (field : FieldInstance)
           (associated_value : SerializedType)
           (serializer : BinarySerializer.t) : result BinarySerializer.t :=
  serializer <-
    run (BinarySerializer.write_field_and_value field associated_value)
        serializer ;;
  if String.eqb (type field) _SERIALIZED_DICT then
    run (BinarySerializer.append _OBJECT_END_MARKER_BYTE) serializer
  else Ok serializer.

(** One iteration of the last loop of [from_value]. *)
Definition write_entry (xaddress_decoded : pydict json)
           (field : FieldInstance) (serializer : BinarySerializer.t)
  : result BinarySerializer.t :=
  associated_value <- typed_value xaddress_decoded field ;;
  write_field field associated_value serializer.

(** [for field in sorted_keys: ...] *)
Fixpoint write_entries (xaddress_decoded : pydict json)
         (fields : list FieldInstance) (serializer : BinarySerializer.t)
  : result BinarySerializer.t :=
  match fields with
  | [] => Ok serializer
  | field :: fields' =>
      serializer <- write_entry xaddress_decoded field serializer ;;
      write_entries xaddress_decoded fields' serializer
  end.

Definition from_value (value : pydict json) (only_signing : bool)
  : result SerializedType :=
  xaddress_decoded <- decode_items value value [] ;;
  fields <- sorted_keys xaddress_decoded only_signing ;;
  serializer <-
    write_entries xaddress_decoded fields BinarySerializer.init ;;
  Ok (mkSerialized (BinarySerializer.bytes serializer)).

(** Modelled from the spec: BinaryParser.read_field_value (section
    4.1): a length-prefixed field first has its prefix decoded, then
    the type of the field reads the value; the object type reads
    fields up to the object-end marker, which is [from_parser]. *)
Definition read_field_value
           (from_parser :
              BinaryParser.t ->
              option (result (SerializedType * BinaryParser.t)))
           (field : FieldInstance) (parser : BinaryParser.t)
  : option (result (SerializedType * BinaryParser.t)) :=
  let delegate (length_hint : option Z) (parser : BinaryParser.t) :=
    if String.eqb (type field) _SERIALIZED_DICT then from_parser parser
    else Some (associated_from_parser env field length_hint parser) in
  if is_variable_length_encoded field then
    match BinaryParser._read_length_prefix parser with
    | Raise e => Some (Raise e)
    | Ok (length, parser) => delegate (Some length) parser
    end
  else delegate None parser.

(** The [while] loop of [from_parser].  [fuel] bounds the number of
    iterations and nested calls; [None] is a bound that was too
    small, never a result of the program. *)
Fixpoint from_parser_loop (fuel : nat) (parser : BinaryParser.t)
         (serializer : BinarySerializer.t)
  : option (result (SerializedType * BinaryParser.t)) :=
  match fuel with
  | O => None
  | S fuel' =>
      if BinaryParser.is_end parser then
        Some (Ok (mkSerialized (BinarySerializer.bytes serializer), parser))
      else
        match read_field env parser with
        | Raise e => Some (Raise e)
        | Ok (field, parser) =>
            if String.eqb (name field) _OBJECT_END_MARKER then
              Some (Ok (mkSerialized (BinarySerializer.bytes serializer),
                        parser))
            else
              match read_field_value
                      (fun p =>
                         from_parser_loop fuel' p BinarySerializer.init)
                      field parser with
              | None => None
              | Some (Raise e) => Some (Raise e)
              | Some (Ok (associated_value, parser)) =>
                  match write_field field associated_value serializer with
                  | Raise e => Some (Raise e)
                  | Ok serializer =>
                      from_parser_loop fuel' parser serializer
                  end
              end
        end
  end.

Definition from_parser (fuel : nat) (parser : BinaryParser.t)
  : option (result (SerializedType * BinaryParser.t)) :=
  from_parser_loop fuel parser BinarySerializer.init.

End WithEnv.

End SerializedDict.

(* ------------------------------------------------------------------ *)
(** ** account_id.py *)

Module AccountID.

Definition LENGTH : nat := 20.

Definition is_upper_hex_digit (c : ascii) : bool :=
  let n := N_of_ascii c in
  ((48 <=? n) && (n <=? 57) || (65 <=? n) && (n <=? 70))%N.

(** [_HEX_REGEX.fullmatch(value)] for [^[A-F0-9]{40}$]: the whole string
    is forty characters, each of them a digit or a letter A to F. *)
Definition _HEX_REGEX_fullmatch (value : string) : bool :=
  Nat.eqb (String.length value) 40
  && forallb is_upper_hex_digit (list_ascii_of_string value).

Definition hex_digit_value (c : ascii) : option Z :=
  let n := Z.of_N (N_of_ascii c) in
  if (48 <=? n) && (n <=? 57) then Some (n - 48)
  else if (65 <=? n) && (n <=? 70) then Some (n - 55)
  else if (97 <=? n) && (n <=? 102) then Some (n - 87)
  else None.

Definition fromhex_error : exn :=
  mkExn ValueError ["non-hexadecimal number found in fromhex() arg"].

(** [bytes.fromhex] on a string without white space. *)
Fixpoint fromhex_chars (cs : list ascii) : result (list byte) :=
  match cs with
  | [] => Ok []
  | [_] => Raise fromhex_error
  | c1 :: c2 :: cs' =>
      match hex_digit_value c1, hex_digit_value c2 with
      | Some hi, Some lo =>
          b <- to_bytes1 (16 * hi + lo) ;;
          rest <- fromhex_chars cs' ;;
          Ok (b ++ rest)
      | _, _ => Raise fromhex_error
      end
  end.

Definition fromhex (s : string) : result (list byte) :=
  fromhex_chars (list_ascii_of_string s).

(** Modelled from the spec: the constructor of Hash160 (hash160.py is
    not among the sources), which keeps the buffer it is given. *)
Definition Hash160_init (buffer : list byte) : SerializedType :=
  mkSerialized buffer.

(** [AccountID(buffer)]: the given buffer, or [LENGTH] zero bytes. *)
Definition init (buffer : option (list byte)) : SerializedType :=
  match buffer with
  | Some b => Hash160_init b
  | None => Hash160_init (repeat x00 LENGTH)
  end.

(** [decode_classic_address] is the base58 decoder of the address codec,
    which is not among the sources. *)
Definition from_value (decode_classic_address : string -> result (list byte))
           (value : json) : result SerializedType :=
  match value with
  | JStr value =>
      if String.eqb value "" then Ok (init None)
      else if _HEX_REGEX_fullmatch value then
        b <- fromhex value ;;
        Ok (init (Some b))
      else
        b <- decode_classic_address value ;;
        Ok (init (Some b))
  | _ =>
      Raise (mkExn XRPLBinaryCodecException
               [("Invalid type to construct an AccountID: expected str,"
                   ++ " received " ++ class_name value ++ ".")%string])
  end.

End AccountID.

(* ------------------------------------------------------------------ *)
(** ** A small instance of the collaborators

    A handful of entries of the Field Registry, one account with its
    classic address and its two X-addresses, and the primitive types these
    fields need.  The concrete evaluations below are run against it. *)

Module Sample.

Definition Account : FieldInstance :=
  mkField "Account" "AccountID" 524289 true true true [x81].
Definition Destination : FieldInstance :=
  mkField "Destination" "AccountID" 524291 true true true [x83].
Definition RegularKey : FieldInstance :=
  mkField "RegularKey" "AccountID" 524296 true true true [x88].
Definition SourceTag : FieldInstance :=
  mkField "SourceTag" "UInt32" 131075 true true false [x23].
Definition Sequence : FieldInstance :=
  mkField "Sequence" "UInt32" 131076 true true false [x24].
Definition DestinationTag : FieldInstance :=
  mkField "DestinationTag" "UInt32" 131086 true true false [x2e].
Definition TxnSignature : FieldInstance :=
  mkField "TxnSignature" "Blob" 458756 true false true [x74].
Definition Memo : FieldInstance :=
  mkField "Memo" "SerializedDict" 917514 true true false [xea].
Definition ObjectEndMarker : FieldInstance :=
  mkField "ObjectEndMarker" "SerializedDict" 917505 true true false [xe1].
Definition hash : FieldInstance :=
  mkField "hash" "Hash256" 327937 false false false [x50; x01; x01].

Definition registry : list FieldInstance :=
  [Account; Destination; RegularKey; SourceTag; Sequence; DestinationTag;
   TxnSignature; Memo; ObjectEndMarker; hash].

(** The lookup of the library: a name that the registry does not hold
    raises [KeyError]. *)
Definition get_field_instance (field_name : string)
  : result (option FieldInstance) :=
  match find (fun f => String.eqb (name f) field_name) registry with
  | Some f => Ok (Some f)
  | None => Raise (mkExn KeyError [field_name])
  end.

Definition classic_address : string := "r9cZA1mLK5R5Am25ArfXFmqgNwjZgnfk59".
Definition account_id_hex : string :=
  "5E7B112523F68D2F5E879DB4EAC51C6698A69304".
Definition xaddress_no_tag : string :=
  "X7AcgcsBL6XDcUb289X4mJ8djcdyKaB5hJDWMArnXr61cqZ".
Definition xaddress_tag_1 : string :=
  "X7AcgcsBL6XDcUb289X4mJ8djcdyKaGZMhc9YTE92ehJ2Fu".
Definition a_seed : string := "sn259rEFXrQrWyx3Q7XneWcwV6dfL".

Definition is_valid_xaddress (s : string) : bool :=
  String.eqb s xaddress_no_tag || String.eqb s xaddress_tag_1.

Definition xaddress_to_classic_address (s : string)
  : result (string * option Z * bool) :=
  if String.eqb s xaddress_no_tag then Ok (classic_address, None, false)
  else if String.eqb s xaddress_tag_1 then Ok (classic_address, Some 1, false)
  else Raise (mkExn XRPLAddressCodecException ["Invalid X-address"]).

(** The decoder of classic addresses: a string that is base58check of
    another kind (here a seed) has the wrong prefix, and any other string
    fails the checksum inside the base58 library. *)
Definition decode_classic_address (s : string) : result (list byte) :=
  if String.eqb s classic_address then AccountID.fromhex account_id_hex
  else if String.eqb s a_seed then
    Raise (mkExn XRPLAddressCodecException ["Provided prefix is incorrect"])
  else Raise (mkExn ValueError ["Invalid checksum"]).

Definition get_transaction_type_code (v : json) : result json :=
  match v with
  | JStr s =>
      if String.eqb s "Payment" then Ok (JInt 0)
      else Raise (mkExn KeyError [s])
  | _ => Raise (mkExn KeyError ["TransactionType"])
  end.

Definition no_enum (v : json) : result json :=
  Raise (mkExn KeyError ["unknown name"]).

Definition uint32_bytes (n : Z) : result (list byte) :=
  b3 <- to_bytes1 (Z.land (Z.shiftr n 24) 255) ;;
  b2 <- to_bytes1 (Z.land (Z.shiftr n 16) 255) ;;
  b1 <- to_bytes1 (Z.land (Z.shiftr n 8) 255) ;;
  b0 <- to_bytes1 (Z.land n 255) ;;
  Ok (b3 ++ b2 ++ b1 ++ b0).

Definition bad_value (type_name : string) : exn :=
  mkExn XRPLBinaryCodecException
        [("Invalid type to construct a " ++ type_name)%string].

(** [from_value] of the primitive types of the fields above. *)
Definition primitive_from_value (field : FieldInstance) (v : json)
  : result SerializedType :=
  if String.eqb (type field) "AccountID" then
    AccountID.from_value decode_classic_address v
  else if String.eqb (type field) "UInt32" then
    match v with
    | JInt n =>
        if (0 <=? n) && (n <? 4294967296)
        then b <- uint32_bytes n ;; Ok (mkSerialized b)
        else Raise (bad_value "UInt32")
    | _ => Raise (bad_value "UInt32")
    end
  else if String.eqb (type field) "Blob" then
    match v with
    | JStr s => b <- AccountID.fromhex s ;; Ok (mkSerialized b)
    | _ => Raise (bad_value "Blob")
    end
  else Raise (bad_value (type field)).

Definition split_at (n : nat) (parser : list byte)
  : result (SerializedType * list byte) :=
  if Nat.leb n (List.length parser)
  then Ok (mkSerialized (firstn n parser), skipn n parser)
  else Raise BinaryParser.OutOfRange.

(** [from_parser] of the primitive types: a fixed width, or as many
    bytes as the length hint says. *)
Definition associated_from_parser (field : FieldInstance)
           (length_hint : option Z) (parser : list byte)
  : result (SerializedType * list byte) :=
  match length_hint with
  | Some n => split_at (Z.to_nat n) parser
  | None =>
      if String.eqb (type field) "UInt32" then split_at 4 parser
      else Raise (bad_value (type field))
  end.

(** Every header of this registry but that of [hash] is one byte. *)
Definition read_field (parser : list byte)
  : result (FieldInstance * list byte) :=
  match parser with
  | [] => Raise BinaryParser.OutOfRange
  | b :: parser' =>
      match find (fun f => match header f with
                           | [h] => Byte.eqb h b
                           | _ => false
                           end) registry with
      | Some f => Ok (f, parser')
      | None => Raise (mkExn XRPLBinaryCodecException ["Unknown field"])
      end
  end.

(** The environment whose object-typed fields cannot be built. *)
Definition flat_env : Env :=
  mkEnv is_valid_xaddress xaddress_to_classic_address
        get_field_instance get_transaction_type_code no_enum no_enum
        primitive_from_value read_field associated_from_parser.

(** The environment in which an object-typed field holds a flat object. *)
Definition env : Env :=
  mkEnv is_valid_xaddress xaddress_to_classic_address
        get_field_instance get_transaction_type_code no_enum no_enum
        (fun field v =>
           if String.eqb (type field) SerializedDict._SERIALIZED_DICT then
             match v with
             | JDict d => SerializedDict.from_value flat_env d false
             | _ => Raise (bad_value "SerializedDict")
             end
           else primitive_from_value field v)
        read_field associated_from_parser.

End Sample.

(* ------------------------------------------------------------------ *)
(** ** Prefixes of byte sequences *)

Definition prefix_of (a b : list byte) : Prop := exists c, b = a ++ c.

Definition strict_prefix_of (a b : list byte) : Prop :=
  exists c, c <> [] /\ b = a ++ c.

(** The number of bytes of the prefix of a length, when there is one. *)
Definition prefix_size (L : Z) : option nat :=
  match BinarySerializer._encode_variable_length_prefix L with
  | Ok p => Some (List.length p)
  | Raise _ => None
  end.

(* ------------------------------------------------------------------ *)
(** ** The layout of a serialized object, in the words of the
       specification *)

Module Layout.

Import SerializedDict.

(** The object-end marker follows the value of a field of the object
    type, and of no other field. *)
Definition end_marker_of (f : FieldInstance) : list byte :=
  if String.eqb (type f) _SERIALIZED_DICT then _OBJECT_END_MARKER_BYTE
  else [].

(** The bytes of a value: as they are, or behind their length prefix. *)
Definition value_bytes (f : FieldInstance) (v : SerializedType)
  : result (list byte) :=
  if is_variable_length_encoded f then
    p <- BinarySerializer._encode_variable_length_prefix (byte_length v) ;;
    Ok (p ++ buffer v)
  else Ok (buffer v).

(** Header, value and, for an object, the marker. *)
Definition field_bytes (f : FieldInstance) (v : SerializedType)
  : result (list byte) :=
  vb <- value_bytes f v ;;
  Ok (header f ++ vb ++ end_marker_of f).

(** The fields one after the other, and nothing after the last. *)
Fixpoint fields_bytes (fvs : list (FieldInstance * SerializedType))
  : result (list byte) :=
  match fvs with
  | [] => Ok []
  | (f, v) :: fvs' =>
      c <- field_bytes f v ;;
      cs <- fields_bytes fvs' ;;
      Ok (c ++ cs)
  end.

(** [c] is the serialization of the field and value [fv]. *)
Definition is_chunk_of (fv : FieldInstance * SerializedType)
           (c : list byte) : Prop :=
  exists vb,
    value_bytes (fst fv) (snd fv) = Ok vb
    /\ c = header (fst fv) ++ vb ++ end_marker_of (fst fv).

(** The typed values of a list of fields, taken from a decoded map. *)
Fixpoint typed_values (env : Env) (d : pydict json)
         (fields : list FieldInstance) : result (list SerializedType) :=
  match fields with
  | [] => Ok []
  | f :: fields' =>
      v <- typed_value env d f ;;
      vs <- typed_values env d fields' ;;
      Ok (v :: vs)
  end.

(** The order of the canonical encoding. *)
Definition ordinal_le (f g : FieldInstance) : Prop := ordinal f <= ordinal g.

(** The fields selected for serialization among the keys [field_names]
    of a decoded map: the lookup of the key gives a field, the value
    under the name of the field is not null, and the field is
    serialized. *)
Definition selected (env : Env) (d : pydict json)
           (field_names : list string) : list FieldInstance :=
  flat_map (fun k =>
              match get_field_instance env k with
              | Ok (Some f) =>
                  if has_non_null (name f) d && is_serialized f then [f]
                  else []
              | _ => []
              end) field_names.

(** A map without X-addresses and without enumerated-code fields. *)
Definition plain_map (env : Env) (value : pydict json) : Prop :=
  forall k v,
    In (k, v) value ->
    as_xaddress env v = None
    /\ k <> "TransactionType" /\ k <> "TransactionResult"
    /\ k <> "LedgerEntryType".

(** The collaborators of the first two loops of [from_value] raise
    exceptions of their own classes, not [XRPLBinaryCodecException]. *)
Definition collaborators_raise_foreign (env : Env) : Prop :=
  (forall s e, xaddress_to_classic_address env s = Raise e ->
               exn_cls e <> XRPLBinaryCodecException)
  /\ (forall v e, get_transaction_type_code env v = Raise e ->
                  exn_cls e <> XRPLBinaryCodecException)
  /\ (forall v e, get_transaction_result_code env v = Raise e ->
                  exn_cls e <> XRPLBinaryCodecException)
  /\ (forall v e, get_ledger_entry_type_code env v = Raise e ->
                  exn_cls e <> XRPLBinaryCodecException)
  /\ (forall k e, get_field_instance env k = Raise e ->
                  exn_cls e <> XRPLBinaryCodecException).

(** Distinct fields of the registry have distinct ordinals. *)
Definition ordinals_distinct (env : Env) : Prop :=
  forall k1 k2 f1 f2,
    get_field_instance env k1 = Ok (Some f1) ->
    get_field_instance env k2 = Ok (Some f2) ->
    ordinal f1 = ordinal f2 -> f1 = f2.

(** No Account or Destination entry is an X-address with a tag while
    the map also has the key of the tag field, be it with a null
    value. *)
Definition no_tag_collision (env : Env) (value : pydict json) : Prop :=
  forall k x c t n,
    In (k, JStr x) value ->
    is_valid_xaddress env x = true ->
    xaddress_to_classic_address env x = Ok (c, Some t, n) ->
    (k = _ACCOUNT -> ~ In _SOURCE_TAG (keys value))
    /\ (k = _DESTINATION -> ~ In _DEST_TAG (keys value)).

(** The entries that an iteration of the first loop of [from_value]
    puts into the decoded map. *)
Definition item_writes (env : Env) (value : pydict json)
           (k : string) (v : json) : result (pydict json) :=
  match as_xaddress env v with
  | Some x =>
      handled <- _handle_xaddress env k x ;;
      if has_non_null _SOURCE_TAG handled
         && has_non_null _SOURCE_TAG value then
        Raise ConflictingSourceTag
      else if has_non_null _DEST_TAG handled
              && has_non_null _DEST_TAG value then
        Raise ConflictingDestTag
      else Ok handled
  | None =>
      v' <- _str_to_enum env k v ;;
      Ok [(k, v')]
  end.

Fixpoint all_writes (env : Env) (value : pydict json)
         (items : list (string * json)) : result (pydict json) :=
  match items with
  | [] => Ok []
  | (k, v) :: items' =>
      ws <- item_writes env value k v ;;
      ws' <- all_writes env value items' ;;
      Ok (ws ++ ws')
  end.

(** The lookup of each of the names returns: it does not raise. *)
Definition registry_answers (env : Env) (names : list string) : Prop :=
  forall k, In k names -> exists o, get_field_instance env k = Ok o.

(** The registry gives a name the field of that name. *)
Definition registry_keeps_names (env : Env) : Prop :=
  forall k f, get_field_instance env k = Ok (Some f) -> name f = k.

End Layout.

(* ------------------------------------------------------------------ *)
(** ** Well-formed canonical bytes of an object

    The bytes of an object are the bytes of its fields one after the
    other.  A field of a primitive type is its header and its value
    bytes, where the header is one that the parser reads back as this
    field and the value is one that the type of the field reads back from
    its own bytes; a field of the object type is its header, the
    canonical bytes of the inner object and the object-end marker. *)

Module Canonical.

Import SerializedDict Layout.

(** The parser reads the header of [f] back as [f]. *)
Definition header_readable (env : Env) (f : FieldInstance) : Prop :=
  header f <> []
  /\ forall rest, read_field env (header f ++ rest) = Ok (f, rest).

(** The parser reads the object-end marker as the field of that name. *)
Definition marker_readable (env : Env) : Prop :=
  exists f_end,
    name f_end = _OBJECT_END_MARKER
    /\ forall rest,
        read_field env (_OBJECT_END_MARKER_BYTE ++ rest) = Ok (f_end, rest).

(** The length hint that [read_field_value] passes for [v]. *)
Definition length_hint (f : FieldInstance) (v : SerializedType) : option Z :=
  if is_variable_length_encoded f then Some (byte_length v) else None.

(** The type of [f] reads [v] back from the bytes of [v]. *)
Definition value_readable (env : Env) (f : FieldInstance)
           (v : SerializedType) : Prop :=
  forall rest,
    associated_from_parser env f (length_hint f v) (buffer v ++ rest)
    = Ok (v, rest).

(** What follows the bytes of an object, and what the parser is left
    with once it has read the object: nothing at the top level, the
    object-end marker and the rest of the outer object when nested. *)
Definition closes (env : Env) (tail tail' : list byte) : Prop :=
  (tail = [] /\ tail' = [])
  \/ (marker_readable env /\ tail = _OBJECT_END_MARKER_BYTE ++ tail').

Inductive canonical (env : Env) : list byte -> Prop :=
| canonical_end : canonical env []
| canonical_primitive (f : FieldInstance) (v : SerializedType)
                      (vb rest : list byte) :
    type f <> _SERIALIZED_DICT ->
    name f <> _OBJECT_END_MARKER ->
    header_readable env f ->
    value_readable env f v ->
    value_bytes f v = Ok vb ->
    canonical env rest ->
    canonical env (header f ++ vb ++ rest)
| canonical_object (f : FieldInstance) (inner rest : list byte) :
    type f = _SERIALIZED_DICT ->
    name f <> _OBJECT_END_MARKER ->
    is_variable_length_encoded f = false ->
    header_readable env f ->
    marker_readable env ->
    canonical env inner ->
    canonical env rest ->
    canonical env (header f ++ inner ++ _OBJECT_END_MARKER_BYTE ++ rest).

End Canonical.

(* ------------------------------------------------------------------ *)
(** ** Further notions about the object codec *)

Module Further.

Import SerializedDict Layout.

(** The strict order of the canonical encoding. *)
Definition ordinal_lt (f g : FieldInstance) : Prop := ordinal f < ordinal g.

(** The entry [(k, v)] is one of a field of the registry that
    [from_value] does not serialize: its value is null, or its field is
    not serialized, or only the signing fields are asked for and its
    field is not a signing field. *)
Definition not_serialized_entry (env : Env) (only_signing : bool)
           (k : string) (v : json) : Prop :=
  exists f,
    get_field_instance env k = Ok (Some f)
    /\ (is_not_none v = false
        \/ is_serialized f = false
        \/ (only_signing = true /\ is_signing f = false)).

(** The key is none of the three enumerated-code fields. *)
Definition not_enum_field (k : string) : Prop :=
  k <> "TransactionType" /\ k <> "TransactionResult"
  /\ k <> "LedgerEntryType".

(** What the parser is assumed to do with the absent code: it reads the
    object-end marker; a field that [read_field] returns is one whose
    header it reads back, and is not length-prefixed when it is of the
    object type; a value that a primitive type returns is one that the
    type reads back from the bytes of the value. *)
Definition parser_contract (env : Env) : Prop :=
  Canonical.marker_readable env
  /\ (forall p f p',
         read_field env p = Ok (f, p') ->
         name f <> _OBJECT_END_MARKER ->
         Canonical.header_readable env f
         /\ (type f = _SERIALIZED_DICT ->
             is_variable_length_encoded f = false))
  /\ (forall f hint p v p',
         type f <> _SERIALIZED_DICT ->
         (is_variable_length_encoded f = true <-> hint <> None) ->
         associated_from_parser env f hint p = Ok (v, p') ->
         Canonical.value_readable env f v).

End Further.

(* ------------------------------------------------------------------ *)
(** ** serialized_dict.py: from codes back to names *)

(** The lookups of names by code of xrpl.core.binarycodec.definitions,
    which are not among the sources. *)
Record EnumNames : Type := mkEnumNames {
  get_transaction_type_name : json -> result json;
  get_transaction_result_name : json -> result json;
  get_ledger_entry_type_name : json -> result json
}.

Definition _enum_to_str (names : EnumNames) (field : string) (value : json)
  : result json :=
  if String.eqb field "TransactionType" then
    get_transaction_type_name names value
  else if String.eqb field "TransactionResult" then
    get_transaction_result_name names value
  else if String.eqb field "LedgerEntryType" then
    get_ledger_entry_type_name names value
  else Ok value.

(** The names of the sample registry. *)
Definition sample_names : EnumNames :=
  mkEnumNames
    (fun v => match v with
              | JInt n =>
                  if n =? 0 then Ok (JStr "Payment")
                  else Raise (mkExn KeyError ["unknown code"])
              | _ => Raise (mkExn KeyError ["unknown code"])
              end)
    (fun _ => Raise (mkExn KeyError ["unknown code"]))
    (fun _ => Raise (mkExn KeyError ["unknown code"])).

(* ------------------------------------------------------------------ *)
(** ** issued_currency.py *)

Module IssuedCurrency.

(** A Python [int]: [isinstance(v, int)] holds for integers and, [bool]
    being a subclass of [int], for booleans. *)
Inductive py_int : Type :=
| IntValue (n : Z)
| BoolValue (b : bool).

Definition json_of_int (i : py_int) : json :=
  match i with
  | IntValue n => JInt n
  | BoolValue b => JBool b
  end.

(** The dataclass, with the fields as [from_dict] leaves them. *)
Record t : Type := mk { currency : string; value : py_int; issuer : string }.

(** How [from_dict] ends: the instance, the [KeyError] of a missing key
    or the [AssertionError] of an [assert] (assertions enabled). *)
Inductive outcome : Type :=
| Built (c : t)
| MissingKey (k : string)
| AssertionFailed.

Definition from_dict (d : pydict json) : outcome :=
  match dict_get "currency" d with
  | None => MissingKey "currency"
  | Some (JStr c) =>
      match dict_get "value" d with
      | None => MissingKey "value"
      | Some (JInt n) =>
          match dict_get "issuer" d with
          | None => MissingKey "issuer"
          | Some (JStr i) => Built (mk c (IntValue n) i)
          | Some _ => AssertionFailed
          end
      | Some (JBool b) =>
          match dict_get "issuer" d with
          | None => MissingKey "issuer"
          | Some (JStr i) => Built (mk c (BoolValue b) i)
          | Some _ => AssertionFailed
          end
      | Some _ => AssertionFailed
      end
  | Some _ => AssertionFailed
  end.

Definition to_json (self : t) : pydict json :=
  dict_set "issuer" (JStr (issuer self))
           (dict_set "value" (json_of_int (value self))
                     (dict_set "currency" (JStr (currency self)) [])).

End IssuedCurrency.

(* ------------------------------------------------------------------ *)
(** ** transaction/main.py: the JSON of a transaction for the codec

    The keys are the field names of the models, ASCII text; on ASCII
    text [str.capitalize], [str.split] and [re.sub] are as below. *)

Module TxJson.

Definition ascii_only (s : string) : Prop :=
  Forall (fun c => (N_of_ascii c < 128)%N) (list_ascii_of_string s).

Definition is_lower (c : ascii) : bool :=
  ((97 <=? N_of_ascii c) && (N_of_ascii c <=? 122))%N.

Definition is_upper (c : ascii) : bool :=
  ((65 <=? N_of_ascii c) && (N_of_ascii c <=? 90))%N.

(** [c.upper()] and [c.lower()] of one ASCII character. *)
Definition upper (c : ascii) : ascii :=
  if is_lower c then ascii_of_N (N_of_ascii c - 32) else c.

Definition lower (c : ascii) : ascii :=
  if is_upper c then ascii_of_N (N_of_ascii c + 32) else c.

(** [s.lower()] *)
Fixpoint lower_str (s : string) : string :=
  match s with
  | EmptyString => EmptyString
  | String c r => String (lower c) (lower_str r)
  end.

(** [word.capitalize()]: the first character in upper case, the others
    in lower case. *)
Definition capitalize (word : string) : string :=
  match word with
  | EmptyString => EmptyString
  | String c r => String (upper c) (lower_str r)
  end.

(** [key.split("_")]: the pieces between the underscores, of which
    there is always one more than there are underscores. *)
Fixpoint split_underscore (s : string) : list string :=
  match s with
  | EmptyString => [EmptyString]
  | String c r =>
      if Ascii.eqb c "_" then EmptyString :: split_underscore r
      else
        match split_underscore r with
        | w :: ws => String c w :: ws
        | [] => [String c EmptyString]
        end
  end.

(** ["".join(words)] *)
Definition join (words : list string) : string :=
  fold_right String.append EmptyString words.

(** [re.sub(r"Id", r"ID", s)]: every occurrence of "Id", from left to
    right and without overlap, becomes "ID". *)
Fixpoint sub_Id (s : string) : string :=
  match s with
  | EmptyString => EmptyString
  | String c1 s1 =>
      match s1 with
      | String c2 r =>
          if Ascii.eqb c1 "I" && Ascii.eqb c2 "d"
          then String "I" (String "D" (sub_Id r))
          else String c1 (sub_Id s1)
      | EmptyString => String c1 EmptyString
      end
  end.

Definition _key_to_tx_json (key : string) : string :=
  let snaked := join (map capitalize (split_underscore key)) in
  sub_Id snaked.

(** A dict comprehension: the items are inserted one after the other,
    a later item replacing an earlier one of the same key. *)
Definition dict_of_items {V : Type} (items : list (string * V)) : pydict V :=
  dict_update [] items.

(** What a call returns: a value, or the [AttributeError] of a value of
    the named class that has no [items]. *)
Inductive outcome (A : Type) : Type :=
| Returned (a : A)
| NoItems (cls : string).
Arguments Returned {A} a.
Arguments NoItems {A} cls.

Section Traverse.

Context {A B : Type}.
Variable f : A -> outcome B.

(** A comprehension over a list: the elements are converted from
    left to right, and the first failure ends it. *)
Fixpoint traverse (l : list A) : outcome (list B) :=
  match l with
  | [] => Returned []
  | x :: r =>
      match f x with
      | Returned y =>
          match traverse r with
          | Returned ys => Returned (y :: ys)
          | NoItems c => NoItems c
          end
      | NoItems c => NoItems c
      end
  end.

End Traverse.

Section WithModels.

(** [IssuedCurrencyAmount.is_dict_of_model], a class method that is
    not among the sources: a test on any value. *)
Variable is_dict_of_model : json -> bool.

Fixpoint _value_to_tx_json (value : json) : outcome json :=
  if is_dict_of_model value then
    match value with
    | JDict d =>
        match traverse (fun kv : string * json =>
                          match _value_to_tx_json (snd kv) with
                          | Returned v => Returned (fst kv, v)
                          | NoItems c => NoItems c
                          end) d with
        | Returned items => Returned (JDict (dict_of_items items))
        | NoItems c => NoItems c
        end
    | _ => NoItems (class_name value)
    end
  else
    match value with
    | JDict d =>
        match traverse (fun kv : string * json =>
                          match _value_to_tx_json (snd kv) with
                          | Returned v =>
                              Returned (_key_to_tx_json (fst kv), v)
                          | NoItems c => NoItems c
                          end) d with
        | Returned items => Returned (JDict (dict_of_items items))
        | NoItems c => NoItems c
        end
    | JList l =>
        match traverse _value_to_tx_json l with
        | Returned l' => Returned (JList l')
        | NoItems c => NoItems c
        end
    | _ => Returned value
    end.

Definition transaction_json_to_binary_codec_form (dictionary : pydict json)
  : outcome (pydict json) :=
  match traverse (fun kv : string * json =>
                    match _value_to_tx_json (snd kv) with
                    | Returned v => Returned (_key_to_tx_json (fst kv), v)
                    | NoItems c => NoItems c
                    end) dictionary with
  | Returned items => Returned (dict_of_items items)
  | NoItems c => NoItems c
  end.

End WithModels.



(** The test of a model with the fields of an issued currency amount,
    for the examples: a dict with exactly these three keys. *)
Definition sample_is_dict_of_model (value : json) : bool :=
  match value with
  | JDict d =>
      (List.length d =? 3)%nat && dict_mem "currency" d
      && dict_mem "value" d && dict_mem "issuer" d
  | _ => false
  end.

(** The rule that [_key_to_tx_json] applies to a word of the key: a
    word that begins with "id", in any case, begins with "ID" and goes
    on in lower case; any other word is capitalized. *)
Definition tx_word (word : string) : string :=
  match word with
  | String c1 (String c2 r) =>
      if Ascii.eqb (upper c1) "I" && Ascii.eqb (lower c2) "d"
      then String "I" (String "D" (lower_str r))
      else capitalize word
  | _ => capitalize word
  end.

(** A string that does not begin with "d". *)
Definition no_leading_d (s : string) : Prop :=
  match s with
  | EmptyString => True
  | String c _ => Ascii.eqb c "d" = false
  end.

(** Solve a goal about one character by running through the
    characters. *)
Ltac by_cases_on_ascii c :=
  let b0 := fresh "b" in let b1 := fresh "b" in let b2 := fresh "b" in
  let b3 := fresh "b" in let b4 := fresh "b" in let b5 := fresh "b" in
  let b6 := fresh "b" in let b7 := fresh "b" in
  destruct c as [b0 b1 b2 b3 b4 b5 b6 b7];
  destruct b0, b1, b2, b3, b4, b5, b6, b7; cbv; congruence.

(** The number of occurrences of a character. *)
Fixpoint count_char (c : ascii) (s : string) : nat :=
  match s with
  | EmptyString => O
  | String c' r => (if Ascii.eqb c c' then 1 else 0) + count_char c r
  end.

End TxJson.

(* ------------------------------------------------------------------ *)
(** * Hexadecimal, as it is read

    What a string of upper-case hexadecimal denotes, said without the
    functions of the program: the value of a digit is its place among the
    sixteen digits, and two digits write one byte.  The result of
    [AccountID.from_value] is compared with it. *)

Module HexReading.

Definition digits : list ascii := list_ascii_of_string "0123456789ABCDEF".

(** The place of a character in a list, its length when it is not in
    the list. *)
Fixpoint place (c : ascii) (l : list ascii) : Z :=
  match l with
  | [] => 0
  | x :: r => if Ascii.eqb c x then 0 else 1 + place c r
  end.

Definition digit (c : ascii) : Z := place c digits.

(** The numbers written by the pairs of digits, the first digit of a
    pair counting sixteen times. *)
Fixpoint pairs (cs : list ascii) : list Z :=
  match cs with
  | c1 :: c2 :: r => 16 * digit c1 + digit c2 :: pairs r
  | _ => []
  end.

(** The byte of a number from 0 to 255. *)
Definition byte_of (n : Z) : byte :=
  match Byte.of_N (Z.to_N n) with
  | Some b => b
  | None => x00
  end.

Definition read (s : string) : list byte :=
  map byte_of (pairs (list_ascii_of_string s)).

End HexReading.

(* ------------------------------------------------------------------ *)
(** * The validation of the models

    [_get_errors] of a model begins with the errors of the class it
    extends, [super()._get_errors()]; that class is not among the
    sources, and its errors are an argument here. *)

Module SignerEntry.

Record t : Type := mk { account : string; signer_weight : Z }.

End SignerEntry.

Module SignerListSet.

Record t : Type := mk {
  account : string;
  signer_quorum : Z;
  signer_entries : option (list SignerEntry.t)
}.

Definition deleted_with_entries : string :=
  "Must not include a `signer_entries` value if the signer list is being deleted.".

Definition deleted_with_quorum : string :=
  "Must have a value of zero for `signer_quorum` if the signer list is being deleted.".

Definition quorum_not_positive : string :=
  "`signer_quorum` must be greater than or equal to 0.".

Definition entries_out_of_range : string :=
  "`signer_entries` must have at least 1 member and no more than 8 members. If this transaction is deleting the SignerList, then this parameter must be omitted.".

Definition submitter_in_entries : string :=
  "The account submitting the transaction cannot appear in a signer entry.".

Definition quorum_above_weights : string :=
  "`signer_quorum` must be less than or equal to the sum of the SignerWeight values in the `signer_entries` list.".

Definition account_repeated : string :=
  "An account cannot appear multiple times in the list of signer entries.".

(** [account_set.add(a)] on a set held as the list of its members. *)
Definition set_add (a : string) (s : list string) : list string :=
  if existsb (String.eqb a) s then s else s ++ [a].

(** One round of the loop over the entries, on the errors, the set of
    accounts and the sum of the weights. *)
Definition entry_step (self : t)
           (st : pydict string * list string * Z)
           (signer_entry : SignerEntry.t)
  : pydict string * list string * Z :=
  let '(errors, account_set, signer_weight_sum) := st in
  let errors :=
    if String.eqb (SignerEntry.account signer_entry) (account self)
    then dict_set "signer_entries" submitter_in_entries errors
    else errors in
  (errors,
   set_add (SignerEntry.account signer_entry) account_set,
   signer_weight_sum + SignerEntry.signer_weight signer_entry).

Definition _get_errors (super_errors : pydict string) (self : t)
  : pydict string :=
  let errors := super_errors in
  let errors :=
    if (signer_quorum self =? 0)
       && match signer_entries self with Some _ => true | None => false end
    then dict_set "signer_list_set" deleted_with_entries errors
    else errors in
  let errors :=
    if negb (signer_quorum self =? 0)
       && match signer_entries self with Some _ => false | None => true end
    then dict_set "signer_list_set" deleted_with_quorum errors
    else errors in
  match signer_entries self with
  | None => errors
  | Some entries =>
      let errors :=
        if signer_quorum self <=? 0
        then dict_set "signer_quorum" quorum_not_positive errors
        else errors in
      if ((List.length entries <? 1) || (8 <? List.length entries))%nat
      then dict_set "signer_entries" entries_out_of_range errors
      else
        let '(errors, account_set, signer_weight_sum) :=
          fold_left (entry_step self) entries (errors, [], 0) in
        let errors :=
          if signer_quorum self >? signer_weight_sum
          then dict_set "signer_quorum" quorum_above_weights errors
          else errors in
        let errors :=
          if negb (List.length account_set =? List.length entries)%nat
          then dict_set "signer_entries" account_repeated errors
          else errors in
        errors
  end.

(** The set of the accounts after the loop. *)
Definition accounts_added (accounts : list string) (s : list string)
  : list string :=
  fold_left (fun s a => set_add a s) accounts s.

(** The errors this method can report, each under its key. *)
Definition messages : list (string * string) :=
  [("signer_list_set", deleted_with_entries);
   ("signer_list_set", deleted_with_quorum);
   ("signer_quorum", quorum_not_positive);
   ("signer_entries", entries_out_of_range);
   ("signer_entries", submitter_in_entries);
   ("signer_quorum", quorum_above_weights);
   ("signer_entries", account_repeated)].

(** Errors that hold one of these messages under its key. *)
Definition reported (errors : pydict string) : Prop :=
  exists key message,
    In (key, message) messages /\ dict_get key errors = Some message.

Ltac own_message := cbv [messages]; cbn [In]; tauto.

(** The sum of the weights of the entries. *)
Definition weights (entries : list SignerEntry.t) : Z :=
  fold_right Z.add 0 (map SignerEntry.signer_weight entries).

(** The transactions to which [_get_errors] adds no error. *)
Definition accepted (self : t) : Prop :=
  match signer_entries self with
  | None => signer_quorum self = 0
  | Some entries =>
      0 < signer_quorum self
      /\ (1 <= List.length entries <= 8)%nat
      /\ Forall (fun e => SignerEntry.account e <> account self) entries
      /\ signer_quorum self <= weights entries
      /\ NoDup (map SignerEntry.account entries)
  end.

End SignerListSet.

Module NFTokenAcceptOffer.

Section WithAmounts.

(** The amounts and [get_amount_value(amount) <= 0], of
    [xrpl.models.amounts], which is not among the sources. *)
Variable Amount : Type.
Variable amount_value_le_zero : Amount -> bool.

Record t : Type := mk {
  sell_offer : option string;
  buy_offer : option string;
  broker_fee : option Amount
}.

Definition is_none {A : Type} (o : option A) : bool :=
  match o with Some _ => false | None => true end.

Definition _get_sell_offer_error (self : t) : option string :=
  if negb (is_none (broker_fee self)) && is_none (sell_offer self)
  then Some "Must be set if using brokered mode"
  else if is_none (sell_offer self) && is_none (buy_offer self)
  then Some "Must set either buy_offer or sell_offer"
  else None.

Definition _get_buy_offer_error (self : t) : option string :=
  if negb (is_none (broker_fee self)) && is_none (buy_offer self)
  then Some "Must be set if using brokered mode"
  else if is_none (sell_offer self) && is_none (buy_offer self)
  then Some "Must set either buy_offer or sell_offer"
  else None.

Definition _get_broker_fee_error (self : t) : option string :=
  match broker_fee self with
  | Some fee =>
      if amount_value_le_zero fee
      then Some "Must be greater than 0; omit if there is no broker fee"
      else None
  | None => None
  end.

(** The dict display: the errors of the extended class, then the
    three entries of this one. *)
Definition merged (super_errors : pydict string) (self : t)
  : pydict (option string) :=
  dict_update (map (fun kv => (fst kv, Some (snd kv))) super_errors)
              [("sell_offer", _get_sell_offer_error self);
               ("buy_offer", _get_buy_offer_error self);
               ("broker_fee", _get_broker_fee_error self)].

(** The comprehension: the entries whose value is not [None]. *)
Fixpoint not_none (items : pydict (option string)) : pydict string :=
  match items with
  | [] => []
  | (key, Some value) :: r => (key, value) :: not_none r
  | (_, None) :: r => not_none r
  end.

Definition _get_errors (super_errors : pydict string) (self : t)
  : pydict string :=
  TxJson.dict_of_items (not_none (merged super_errors self)).

End WithAmounts.

Arguments mk {Amount} sell_offer buy_offer broker_fee.
Arguments sell_offer {Amount} t.
Arguments buy_offer {Amount} t.
Arguments broker_fee {Amount} t.
Arguments _get_sell_offer_error {Amount} self.
Arguments _get_buy_offer_error {Amount} self.
Arguments _get_broker_fee_error {Amount} amount_value_le_zero self.
Arguments merged {Amount} amount_value_le_zero super_errors self.
Arguments _get_errors {Amount} amount_value_le_zero super_errors self.

End NFTokenAcceptOffer.

Module DepositPreauth.

Record t : Type := mk {
  authorize : option string;
  unauthorize : option string
}.

(** The truth value of an optional string: [None] and the empty string
    are false. *)
Definition truthy (o : option string) : bool :=
  match o with
  | Some (String _ _) => true
  | _ => false
  end.

Definition _get_errors (super_errors : pydict string) (self : t)
  : pydict string :=
  let errors := super_errors in
  let errors :=
    if truthy (authorize self) && truthy (unauthorize self)
    then dict_set "DepositPreauth"
                  "One of authorize and unauthorize must be set, not both."
                  errors
    else errors in
  let errors :=
    if negb (truthy (authorize self)) && negb (truthy (unauthorize self))
    then dict_set "DepositPreauth"
                  "One of authorize and unauthorize must be set." errors
    else errors in
  errors.

End DepositPreauth.

Module ChannelAuthorize.

Record t : Type := mk {
  secret : option string;
  seed : option string;
  seed_hex : option string;
  passphrase : option string
}.

(** The comprehension: the members that are not [None]. *)
Fixpoint not_none (methods : list (option string)) : list string :=
  match methods with
  | [] => []
  | Some method :: r => method :: not_none r
  | None :: r => not_none r
  end.

Definition _get_errors (super_errors : pydict string) (self : t)
  : pydict string :=
  let errors := super_errors in
  let signing_methods :=
    not_none [secret self; seed self; seed_hex self; passphrase self] in
  if negb (List.length signing_methods =? 1)%nat
  then dict_set "ChannelAuthorize"
                "Must set exactly one of `secret`, `seed`, `seed_hex`, or `passphrase`."
                errors
  else errors.

Definition is_set (o : option string) : Prop := o <> None.

(** Exactly one of the four signing methods is set. *)
Definition one_signing_method (self : t) : Prop :=
  (is_set (secret self) /\ seed self = None
   /\ seed_hex self = None /\ passphrase self = None)
  \/ (secret self = None /\ is_set (seed self)
      /\ seed_hex self = None /\ passphrase self = None)
  \/ (secret self = None /\ seed self = None
      /\ is_set (seed_hex self) /\ passphrase self = None)
  \/ (secret self = None /\ seed self = None
      /\ seed_hex self = None /\ is_set (passphrase self)).

End ChannelAuthorize.

(* ================================================================== *)
(** * Properties *)

(** ** The variable-length prefix *)

Lemma to_bytes1_ok (n : Z) :
  0 <= n <= 255 -> exists b, to_bytes1 n = Ok [b] /\ byte_val b = n.
Proof.
  intros Hn. unfold to_bytes1.
  destruct (Z.ltb_spec n 0) as [Hneg | _]; [lia |].
  destruct (Byte.of_N (Z.to_N n)) as [b |] eqn:Hb.
  - exists b. split; [reflexivity |].
    apply Byte.to_of_N in Hb. unfold byte_val. rewrite Hb. lia.
  - apply Byte.of_N_None_iff in Hb. lia.
Qed.

Lemma to_bytes1_negative (n : Z) :
  n < 0 -> exists e, to_bytes1 n = Raise e /\ exn_cls e = OverflowError.
Proof.
  intros Hn. unfold to_bytes1.
  destruct (Z.ltb_spec n 0) as [_ | Hge]; [| lia].
  eexists. split; reflexivity.
Qed.

Lemma shiftr_8_bounds (x : Z) (hi : Z) :
  0 <= x < 256 * hi -> 0 <= Z.shiftr x 8 < hi.
Proof.
  intros Hx. rewrite Z.shiftr_div_pow2 by lia.
  change (2 ^ 8) with 256. Z.div_mod_to_equations. lia.
Qed.

Lemma shiftr_16_bounds (x : Z) (hi : Z) :
  0 <= x < 65536 * hi -> 0 <= Z.shiftr x 16 < hi.
Proof.
  intros Hx. rewrite Z.shiftr_div_pow2 by lia.
  change (2 ^ 16) with 65536. Z.div_mod_to_equations. lia.
Qed.

Lemma land_255_bounds (x : Z) : 0 <= Z.land x 255 <= 255.
Proof.
  change 255 with (Z.ones 8) at 1 2. rewrite Z.land_ones by lia.
  change (2 ^ 8) with 256. Z.div_mod_to_equations. lia.
Qed.

Section VariableLengthPrefix.

Import BinarySerializer.

Lemma prefix_one_byte (L : Z) :
  0 <= L <= 192 ->
  exists b, _encode_variable_length_prefix L = Ok [b] /\ byte_val b = L.
Proof.
  intros HL. unfold _encode_variable_length_prefix, MAX_SINGLE_BYTE_LENGTH.
  destruct (Z.leb_spec L 192); [| lia].
  apply to_bytes1_ok. lia.
Qed.

Lemma prefix_two_bytes (L : Z) :
  193 <= L <= 12480 ->
  exists b1 b2,
    _encode_variable_length_prefix L = Ok [b1; b2]
    /\ byte_val b1 = 193 + Z.shiftr (L - 193) 8
    /\ byte_val b2 = Z.land (L - 193) 255.
Proof.
  intros HL.
  unfold _encode_variable_length_prefix, MAX_SINGLE_BYTE_LENGTH,
    MAX_DOUBLE_BYTE_LENGTH.
  destruct (Z.leb_spec L 192); [lia |].
  destruct (Z.ltb_spec L 12481); [| lia].
  cbv zeta. change (192 + 1) with 193.
  pose proof (shiftr_8_bounds (L - 193) 48 ltac:(lia)) as Hs.
  destruct (to_bytes1_ok (Z.shiftr (L - 193) 8 + 193) ltac:(lia))
    as (b1 & E1 & V1).
  destruct (to_bytes1_ok (Z.land (L - 193) 255) (land_255_bounds _))
    as (b2 & E2 & V2).
  exists b1, b2. rewrite E1, E2. cbn [bind app].
  split; [reflexivity |]. split; [rewrite V1; ring | exact V2].
Qed.

Lemma prefix_three_bytes (L : Z) :
  12481 <= L <= 918744 ->
  exists b1 b2 b3,
    _encode_variable_length_prefix L = Ok [b1; b2; b3]
    /\ byte_val b1 = 241 + Z.shiftr (L - 12481) 16
    /\ byte_val b2 = Z.land (Z.shiftr (L - 12481) 8) 255
    /\ byte_val b3 = Z.land (L - 12481) 255.
Proof.
  intros HL.
  unfold _encode_variable_length_prefix, MAX_SINGLE_BYTE_LENGTH,
    MAX_DOUBLE_BYTE_LENGTH, MAX_LENGTH_VALUE, MAX_SECOND_BYTE_VALUE.
  destruct (Z.leb_spec L 192); [lia |].
  destruct (Z.ltb_spec L 12481); [lia |].
  destruct (Z.leb_spec L 918744); [| lia].
  cbv zeta. change (240 + 1) with 241.
  pose proof (shiftr_16_bounds (L - 12481) 14 ltac:(lia)) as Hs.
  destruct (to_bytes1_ok (241 + Z.shiftr (L - 12481) 16) ltac:(lia))
    as (b1 & E1 & V1).
  destruct (to_bytes1_ok (Z.land (Z.shiftr (L - 12481) 8) 255)
                         (land_255_bounds _)) as (b2 & E2 & V2).
  destruct (to_bytes1_ok (Z.land (L - 12481) 255) (land_255_bounds _))
    as (b3 & E3 & V3).
  exists b1, b2, b3. rewrite E1, E2, E3. cbn [bind app].
  split; [reflexivity |]. repeat split; assumption.
Qed.

Lemma prefix_too_long (L : Z) :
  918744 < L -> _encode_variable_length_prefix L = Raise FieldTooLong.
Proof.
  intros HL.
  unfold _encode_variable_length_prefix, MAX_SINGLE_BYTE_LENGTH,
    MAX_DOUBLE_BYTE_LENGTH, MAX_LENGTH_VALUE.
  destruct (Z.leb_spec L 192); [lia |].
  destruct (Z.ltb_spec L 12481); [lia |].
  destruct (Z.leb_spec L 918744); [lia | reflexivity].
Qed.

(** C1: for a non-negative length [L] the prefix is the single byte [L]
    up to 192, the two bytes [193 + ((L-193) >> 8)], [(L-193) & 0xFF]
    from 193 to 12480, the three bytes [241 + ((L-12481) >> 16)],
    [((L-12481) >> 8) & 0xFF], [(L-12481) & 0xFF] from 12481 to 918744,
    and the encoding fails with the too-long error above 918744; the
    lengths 192, 193, 12480, 12481 and 918744 have prefixes of 1, 2, 2,
    3 and 3 bytes and 918745 fails. *)
Theorem encode_variable_length_prefix_tiers (L : Z) (HL : 0 <= L) :
  (L <= 192 ->
   exists b, _encode_variable_length_prefix L = Ok [b] /\ byte_val b = L)
  /\ (193 <= L <= 12480 ->
      exists b1 b2,
        _encode_variable_length_prefix L = Ok [b1; b2]
        /\ byte_val b1 = 193 + Z.shiftr (L - 193) 8
        /\ byte_val b2 = Z.land (L - 193) 255)
  /\ (12481 <= L <= 918744 ->
      exists b1 b2 b3,
        _encode_variable_length_prefix L = Ok [b1; b2; b3]
        /\ byte_val b1 = 241 + Z.shiftr (L - 12481) 16
        /\ byte_val b2 = Z.land (Z.shiftr (L - 12481) 8) 255
        /\ byte_val b3 = Z.land (L - 12481) 255)
  /\ (918744 < L -> _encode_variable_length_prefix L = Raise FieldTooLong)
  /\ map prefix_size [192; 193; 12480; 12481; 918744; 918745]
     = [Some 1; Some 2; Some 2; Some 3; Some 3; None]%nat
  /\ _encode_variable_length_prefix 918745 = Raise FieldTooLong.
Proof.
  split; [intros; apply prefix_one_byte; lia |].
  split; [apply prefix_two_bytes |].
  split; [apply prefix_three_bytes |].
  split; [apply prefix_too_long |].
  split; vm_compute; reflexivity.
Qed.

Lemma encode_variable_length_prefix_tiers_witness :
  0 <= 300
  /\ exists b1 b2,
      _encode_variable_length_prefix 300 = Ok [b1; b2]
      /\ byte_val b1 = 193 + Z.shiftr (300 - 193) 8
      /\ byte_val b2 = Z.land (300 - 193) 255.
Proof.
  split; [lia |].
  apply (encode_variable_length_prefix_tiers 300); lia.
Defined.

End VariableLengthPrefix.

(** ** The serializer only appends *)

Section AppendOnly.

Import BinarySerializer.

Lemma to_bytes1_singleton (n : Z) (p : list byte) :
  to_bytes1 n = Ok p -> exists b, p = [b].
Proof.
  unfold to_bytes1. destruct (n <? 0); [discriminate |].
  destruct (Byte.of_N (Z.to_N n)) as [b |]; [| discriminate].
  intros H. injection H as <-. now exists b.
Qed.

Lemma bind_ok {A B : Type} (m : result A) (k : A -> result B) (b : B) :
  bind m k = Ok b -> exists a, m = Ok a /\ k a = Ok b.
Proof.
  destruct m as [a | e]; cbn; [| discriminate]. intros H. now exists a.
Qed.

Lemma prefix_nonempty (L : Z) (p : list byte) :
  _encode_variable_length_prefix L = Ok p -> p <> [].
Proof.
  unfold _encode_variable_length_prefix.
  destruct (L <=? MAX_SINGLE_BYTE_LENGTH).
  - intros H. apply to_bytes1_singleton in H as [b ->]. discriminate.
  - destruct (L <? MAX_DOUBLE_BYTE_LENGTH);
      [| destruct (L <=? MAX_LENGTH_VALUE); [| discriminate]];
      cbv zeta; intros H;
      apply bind_ok in H as (p1 & H1 & H);
      apply to_bytes1_singleton in H1 as [b1 ->];
      apply bind_ok in H as (p2 & _ & H).
    + injection H as <-. discriminate.
    + apply bind_ok in H as (p3 & _ & H). injection H as <-. discriminate.
Qed.

Lemma prefix_of_refl (a : list byte) : prefix_of a a.
Proof. exists []. now rewrite app_nil_r. Qed.

Lemma prefix_of_app (a c : list byte) : prefix_of a (a ++ c).
Proof. now exists c. Qed.

Lemma prefix_of_trans (a b c : list byte) :
  prefix_of a b -> prefix_of b c -> prefix_of a c.
Proof.
  intros [x ->] [y ->]. exists (x ++ y). now rewrite app_assoc.
Qed.

Lemma strict_prefix_of_app (a c : list byte) :
  c <> [] -> strict_prefix_of a (a ++ c).
Proof. intros Hc. now exists c. Qed.

Lemma strict_prefix_irrefl (a : list byte) : ~ strict_prefix_of a a.
Proof.
  intros (c & Hc & Heq). apply Hc.
  rewrite <- (app_nil_r a) in Heq at 1.
  apply app_inv_head in Heq. now symmetry.
Qed.

(** What each method leaves in the sink. *)
Lemma append_sink (b : list byte) (s : t) :
  append b s = (Ok tt, mk (bytesink s ++ b)).
Proof. reflexivity. Qed.

Lemma write_length_encoded_sink (v : SerializedType) (s : t) :
  match _encode_variable_length_prefix (byte_length v) with
  | Ok p =>
      write_length_encoded v s = (Ok tt, mk (bytesink s ++ p ++ buffer v))
  | Raise e => write_length_encoded v s = (Raise e, s)
  end.
Proof.
  unfold write_length_encoded, to_byte_sink.
  destruct (_encode_variable_length_prefix (byte_length v)); cbn;
    [rewrite <- app_assoc |]; reflexivity.
Qed.

Lemma write_field_and_value_sink (f : FieldInstance) (v : SerializedType)
      (s : t) :
  if is_variable_length_encoded f then
    match _encode_variable_length_prefix (byte_length v) with
    | Ok p =>
        write_field_and_value f v s
        = (Ok tt, mk (bytesink s ++ header f ++ p ++ buffer v))
    | Raise e =>
        write_field_and_value f v s = (Raise e, mk (bytesink s ++ header f))
    end
  else
    write_field_and_value f v s
    = (Ok tt, mk (bytesink s ++ header f ++ buffer v)).
Proof.
  unfold write_field_and_value.
  destruct (is_variable_length_encoded f).
  - pose proof (write_length_encoded_sink v (mk (bytesink s ++ header f)))
      as H.
    destruct (_encode_variable_length_prefix (byte_length v));
      rewrite H; cbn; [rewrite <- app_assoc |]; reflexivity.
  - unfold to_bytes. cbn. now rewrite <- app_assoc.
Qed.

(** C9, as the code has it: whatever a method of the serializer does,
    and whether it returns or raises, the bytes held before are a prefix
    of the bytes held after; the prefix is strict when the method adds a
    byte, that is for [append] of a non-empty byte string, for a
    [write_length_encoded] that returns and for [write_field_and_value]
    of a field with a non-empty header. *)
Theorem serializer_append_only (s : t) :
  (forall b,
      prefix_of (bytesink s) (bytesink (snd (append b s)))
      /\ (b <> [] ->
          strict_prefix_of (bytesink s) (bytesink (snd (append b s)))))
  /\ (forall v,
         prefix_of (bytesink s) (bytesink (snd (write_length_encoded v s)))
         /\ (fst (write_length_encoded v s) = Ok tt ->
             strict_prefix_of (bytesink s)
                              (bytesink (snd (write_length_encoded v s)))))
  /\ (forall f v,
         prefix_of (bytesink s)
                   (bytesink (snd (write_field_and_value f v s)))
         /\ (header f <> [] ->
             strict_prefix_of
               (bytesink s)
               (bytesink (snd (write_field_and_value f v s))))).
Proof.
  split; [| split].
  - intros b. rewrite append_sink. cbn. split.
    + apply prefix_of_app.
    + apply strict_prefix_of_app.
  - intros v. pose proof (write_length_encoded_sink v s) as H.
    destruct (_encode_variable_length_prefix (byte_length v)) as [p | e]
      eqn:Hp; rewrite H; cbn; split.
    + apply prefix_of_app.
    + intros _. apply strict_prefix_of_app.
      apply prefix_nonempty in Hp. now destruct p.
    + apply prefix_of_refl.
    + discriminate.
  - intros f v. pose proof (write_field_and_value_sink f v s) as H.
    destruct (is_variable_length_encoded f);
      [destruct (_encode_variable_length_prefix (byte_length v))|];
      rewrite H; cbn; (split; [apply prefix_of_app |]);
      intros Hh; apply strict_prefix_of_app; now destruct (header f).
Qed.

Lemma serializer_append_only_witness :
  [xe1] <> []
  /\ strict_prefix_of (bytesink init) (bytesink (snd (append [xe1] init))).
Proof.
  split; [discriminate |].
  apply (serializer_append_only init); discriminate.
Defined.

(** C9 as stated fails: appending the empty byte string leaves the sink
    as it was, so the bytes held before are not a strict prefix of the
    bytes held after. *)
Lemma append_empty_not_strict :
  bytesink (snd (append [] (mk [xe1]))) = [xe1]
  /\ ~ strict_prefix_of (bytesink (mk [xe1]))
                        (bytesink (snd (append [] (mk [xe1])))).
Proof.
  split; [reflexivity |]. cbn. apply strict_prefix_irrefl.
Qed.

End AppendOnly.

(** ** X-addresses and their tags *)

Section HandleXAddress.

Import SerializedDict.

Variable env : Env.

(** C5: an X-address that carries a tag cannot stand in a field other
    than Account and Destination, where decomposing it raises the
    ambiguous-tag error; in Account the tag goes to SourceTag and in
    Destination to DestinationTag; an X-address without a tag
    decomposes, in any field, to the classic address alone. *)
Theorem handle_xaddress_tag_mapping
        (field xaddress classic_address : string) (tag : option Z)
        (is_test_network : bool)
        (Hdecode : xaddress_to_classic_address env xaddress
                   = Ok (classic_address, tag, is_test_network)) :
  (forall t, tag = Some t -> field <> _ACCOUNT -> field <> _DESTINATION ->
             _handle_xaddress env field xaddress
             = Raise (AmbiguousTagError field))
  /\ (forall t, tag = Some t -> field = _ACCOUNT ->
                _handle_xaddress env field xaddress
                = Ok [(_ACCOUNT, JStr classic_address);
                      (_SOURCE_TAG, JInt t)])
  /\ (forall t, tag = Some t -> field = _DESTINATION ->
                _handle_xaddress env field xaddress
                = Ok [(_DESTINATION, JStr classic_address);
                      (_DEST_TAG, JInt t)])
  /\ (tag = None ->
      _handle_xaddress env field xaddress
      = Ok [(field, JStr classic_address)]).
Proof.
  unfold _handle_xaddress. rewrite Hdecode. cbn [bind].
  repeat split.
  - intros t -> Ha Hd.
    destruct (String.eqb_spec field _DESTINATION); [contradiction |].
    destruct (String.eqb_spec field _ACCOUNT); [contradiction |].
    reflexivity.
  - intros t -> ->. reflexivity.
  - intros t -> ->. reflexivity.
  - intros ->.
    destruct (String.eqb field _DESTINATION),
             (String.eqb field _ACCOUNT); reflexivity.
Qed.

End HandleXAddress.

Lemma handle_xaddress_tag_mapping_witness :
  SerializedDict._handle_xaddress Sample.env "RegularKey" Sample.xaddress_tag_1
  = Raise (SerializedDict.AmbiguousTagError "RegularKey")
  /\ SerializedDict._handle_xaddress Sample.env "Account" Sample.xaddress_tag_1
     = Ok [("Account", JStr Sample.classic_address); ("SourceTag", JInt 1)].
Proof.
  split.
  - apply (handle_xaddress_tag_mapping
             Sample.env "RegularKey" Sample.xaddress_tag_1
             Sample.classic_address (Some 1) false eq_refl) with (t := 1);
      [reflexivity | discriminate | discriminate].
  - apply (handle_xaddress_tag_mapping
             Sample.env "Account" Sample.xaddress_tag_1
             Sample.classic_address (Some 1) false eq_refl) with (t := 1);
      reflexivity.
Defined.

(** ** Account identifiers *)

Section AccountIdentifiers.

Import AccountID.

Lemma upper_hex_digit_value (c : ascii) :
  is_upper_hex_digit c = true ->
  exists v, hex_digit_value c = Some v /\ 0 <= v <= 15.
Proof.
  destruct c as [b0 b1 b2 b3 b4 b5 b6 b7].
  destruct b0, b1, b2, b3, b4, b5, b6, b7; cbv;
    try discriminate; intros _; eexists; (split; [reflexivity |]);
    split; discriminate.
Qed.

Lemma length_list_ascii_of_string (s : string) :
  List.length (list_ascii_of_string s) = String.length s.
Proof. induction s as [| c s IH]; cbn; congruence. Qed.

Lemma fromhex_chars_upper (n : nat) :
  forall cs,
    List.length cs = (2 * n)%nat ->
    forallb is_upper_hex_digit cs = true ->
    exists b, fromhex_chars cs = Ok b /\ List.length b = n.
Proof.
  induction n as [| n IH]; intros cs Hlen Hall.
  - destruct cs; [| discriminate]. now exists [].
  - destruct cs as [| c1 [| c2 cs]]; try (cbn in Hlen; lia).
    cbn [forallb] in Hall.
    apply andb_prop in Hall as [H1 Hall].
    apply andb_prop in Hall as [H2 Hall].
    destruct (upper_hex_digit_value c1 H1) as (hi & Ehi & Hhi).
    destruct (upper_hex_digit_value c2 H2) as (lo & Elo & Hlo).
    destruct (IH cs) as (rest & Erest & Hrest);
      [cbn in Hlen; lia | assumption |].
    destruct (to_bytes1_ok (16 * hi + lo)) as (b & Eb & _); [lia |].
    exists (b :: rest). cbn [fromhex_chars].
    rewrite Ehi, Elo, Eb, Erest. cbn. split; [reflexivity | lia].
Qed.

Lemma fullmatch_fromhex (s : string) :
  _HEX_REGEX_fullmatch s = true ->
  exists b, fromhex s = Ok b /\ List.length b = 20%nat.
Proof.
  unfold _HEX_REGEX_fullmatch, fromhex. intros H.
  apply andb_prop in H as [Hlen Hall].
  apply Nat.eqb_eq in Hlen.
  apply fromhex_chars_upper; [| assumption].
  now rewrite length_list_ascii_of_string.
Qed.

(** The digits of the pattern are the sixteen digits of upper-case
    hexadecimal, and the program gives each of them the value of its
    place. *)
Lemma upper_hex_digit_place (c : ascii) :
  (is_upper_hex_digit c = existsb (Ascii.eqb c) HexReading.digits)
  /\ (is_upper_hex_digit c = true ->
      hex_digit_value c = Some (HexReading.digit c)
      /\ 0 <= HexReading.digit c <= 15).
Proof.
  destruct c as [b0 b1 b2 b3 b4 b5 b6 b7].
  destruct b0, b1, b2, b3, b4, b5, b6, b7; cbv;
    (split; [reflexivity |]); try discriminate;
    intros _; repeat split; discriminate.
Qed.

Lemma upper_hex_digit_In (c : ascii) :
  is_upper_hex_digit c = true <-> In c HexReading.digits.
Proof.
  rewrite (proj1 (upper_hex_digit_place c)), existsb_exists. split.
  - intros (x & Hx & E). apply Ascii.eqb_eq in E. now subst.
  - intros H. exists c. split; [assumption | apply Ascii.eqb_refl].
Qed.

Lemma to_bytes1_byte_of (n : Z) :
  0 <= n <= 255 -> to_bytes1 n = Ok [HexReading.byte_of n].
Proof.
  intros Hn. unfold to_bytes1, HexReading.byte_of.
  destruct (Z.ltb_spec n 0) as [Hneg | _]; [lia |].
  destruct (Byte.of_N (Z.to_N n)) as [b |] eqn:Hb; [reflexivity |].
  apply Byte.of_N_None_iff in Hb. lia.
Qed.

Lemma fromhex_chars_read (n : nat) :
  forall cs,
    List.length cs = (2 * n)%nat ->
    forallb is_upper_hex_digit cs = true ->
    fromhex_chars cs = Ok (map HexReading.byte_of (HexReading.pairs cs))
    /\ List.length (HexReading.pairs cs) = n.
Proof.
  induction n as [| n IH]; intros cs Hlen Hall.
  - destruct cs; [| discriminate]. now split.
  - destruct cs as [| c1 [| c2 cs]]; try (cbn in Hlen; lia).
    cbn [forallb] in Hall.
    apply andb_prop in Hall as [H1 Hall].
    apply andb_prop in Hall as [H2 Hall].
    destruct (proj2 (upper_hex_digit_place c1) H1) as (Ehi & Hhi).
    destruct (proj2 (upper_hex_digit_place c2) H2) as (Elo & Hlo).
    destruct (IH cs) as (Erest & Hrest);
      [cbn in Hlen; lia | assumption |].
    cbn [fromhex_chars HexReading.pairs map List.length].
    rewrite Ehi, Elo, to_bytes1_byte_of by lia.
    rewrite Erest. cbn [bind app]. split; [reflexivity | lia].
Qed.

Lemma fullmatch_read (s : string) :
  _HEX_REGEX_fullmatch s = true ->
  fromhex s = Ok (HexReading.read s)
  /\ List.length (HexReading.read s) = 20%nat.
Proof.
  unfold _HEX_REGEX_fullmatch, fromhex, HexReading.read. intros H.
  apply andb_prop in H as [Hlen Hall].
  apply Nat.eqb_eq in Hlen.
  destruct (fromhex_chars_read 20 (list_ascii_of_string s)) as [E L];
    [now rewrite length_list_ascii_of_string | assumption |].
  split; [assumption | now rewrite length_map].
Qed.

(** C10: the empty string gives twenty zero bytes; a string of exactly
    forty characters of [0-9A-F] gives the twenty bytes that it writes
    in hexadecimal, each pair of digits one byte, whatever the
    classic-address decoder would do with it; every other string goes
    to the classic-address decoder, and forty lower-case hexadecimal
    characters are such a string. *)
Theorem account_id_from_value_cases
        (decode_classic_address : string -> result (list byte)) :
  from_value decode_classic_address (JStr "")
  = Ok (mkSerialized (repeat x00 20))
  /\ (forall s,
         _HEX_REGEX_fullmatch s = true ->
         from_value decode_classic_address (JStr s)
         = Ok (mkSerialized (HexReading.read s))
         /\ fromhex s = Ok (HexReading.read s)
         /\ List.length (HexReading.read s) = 20%nat)
  /\ (forall s,
         s <> "" -> _HEX_REGEX_fullmatch s = false ->
         from_value decode_classic_address (JStr s)
         = (b <- decode_classic_address s ;; Ok (mkSerialized b)))
  /\ (forall s,
         _HEX_REGEX_fullmatch s = true <->
         String.length s = 40%nat
         /\ Forall (fun c => In c HexReading.digits)
                   (list_ascii_of_string s))
  /\ _HEX_REGEX_fullmatch "5e7b112523f68d2f5e879db4eac51c6698a69304" = false.
Proof.
  split; [reflexivity |].
  split; [| split; [| split; [| reflexivity]]].
  - intros s Hs. destruct (fullmatch_read s Hs) as (Eb & Hb).
    repeat split; try assumption.
    unfold from_value.
    destruct (String.eqb_spec s "") as [-> | _]; [discriminate Hs |].
    now rewrite Hs, Eb.
  - intros s Hne Hs. unfold from_value.
    destruct (String.eqb_spec s ""); [contradiction |].
    now rewrite Hs.
  - intros s. unfold _HEX_REGEX_fullmatch.
    rewrite andb_true_iff, Nat.eqb_eq, forallb_forall, Forall_forall.
    split; intros [Hlen Hall]; (split; [assumption |]);
      intros c Hc; apply upper_hex_digit_In; now apply Hall.
Qed.

Lemma account_id_from_value_cases_witness :
  from_value Sample.decode_classic_address (JStr Sample.account_id_hex)
  = Ok (mkSerialized
          [x5e; x7b; x11; x25; x23; xf6; x8d; x2f; x5e; x87;
           x9d; xb4; xea; xc5; x1c; x66; x98; xa6; x93; x04])
  /\ fromhex Sample.account_id_hex
     = Ok [x5e; x7b; x11; x25; x23; xf6; x8d; x2f; x5e; x87;
           x9d; xb4; xea; xc5; x1c; x66; x98; xa6; x93; x04].
Proof.
  destruct (proj1 (proj2 (account_id_from_value_cases
                            Sample.decode_classic_address))
                  Sample.account_id_hex eq_refl) as (H1 & H2 & _).
  split; [exact H1 | exact H2].
Defined.

End AccountIdentifiers.

(** ** What [from_value] writes *)

Section FromValueLayout.

Import SerializedDict Layout.

Variable env : Env.

Lemma write_field_bytes (f : FieldInstance) (v : SerializedType)
      (s : BinarySerializer.t) :
  write_field f v s
  = (c <- field_bytes f v ;;
     Ok (BinarySerializer.mk (BinarySerializer.bytesink s ++ c))).
Proof.
  unfold write_field, run, field_bytes, value_bytes, end_marker_of.
  pose proof (write_field_and_value_sink f v s) as H.
  destruct (is_variable_length_encoded f).
  - destruct (BinarySerializer._encode_variable_length_prefix
                (byte_length v)) as [p | e]; rewrite H; cbn [bind];
      [| reflexivity].
    destruct (String.eqb (type f) _SERIALIZED_DICT); cbn;
      repeat rewrite <- app_assoc; try rewrite app_nil_r; reflexivity.
  - rewrite H. cbn [bind].
    destruct (String.eqb (type f) _SERIALIZED_DICT); cbn;
      repeat rewrite <- app_assoc; try rewrite app_nil_r; reflexivity.
Qed.

Lemma write_entries_bytes (d : pydict json) (fields : list FieldInstance) :
  forall s s',
    write_entries env d fields s = Ok s' ->
    exists vs bs,
      typed_values env d fields = Ok vs
      /\ List.length vs = List.length fields
      /\ fields_bytes (combine fields vs) = Ok bs
      /\ BinarySerializer.bytesink s' = BinarySerializer.bytesink s ++ bs.
Proof.
  induction fields as [| f fields IH]; intros s s' H.
  - injection H as <-. exists [], []. cbn. now rewrite app_nil_r.
  - cbn [write_entries] in H. apply bind_ok in H as (s1 & H1 & H).
    unfold write_entry in H1. apply bind_ok in H1 as (v & Hv & H1).
    rewrite write_field_bytes in H1.
    apply bind_ok in H1 as (c & Hc & H1). injection H1 as <-.
    destruct (IH _ _ H) as (vs & bs & Hvs & Hlen & Hbs & Hsink).
    exists (v :: vs), (c ++ bs). cbn [typed_values combine fields_bytes].
    rewrite Hv, Hvs, Hc, Hbs. cbn. repeat split; [lia |].
    rewrite Hsink. cbn. now rewrite app_assoc.
Qed.

(** A successful [from_value], stage by stage. *)
Lemma from_value_stages (value : pydict json) (only_signing : bool)
      (r : SerializedType) :
  from_value env value only_signing = Ok r ->
  exists d fields vs,
    decode_items env value value [] = Ok d
    /\ sorted_keys env d only_signing = Ok fields
    /\ typed_values env d fields = Ok vs
    /\ List.length vs = List.length fields
    /\ fields_bytes (combine fields vs) = Ok (buffer r).
Proof.
  unfold from_value. intros H.
  apply bind_ok in H as (d & Hd & H).
  apply bind_ok in H as (fields & Hf & H).
  apply bind_ok in H as (s & Hs & H). injection H as <-.
  apply write_entries_bytes in Hs as (vs & bs & Hvs & Hlen & Hbs & Hsink).
  exists d, fields, vs. cbn in Hsink. subst bs. now repeat split.
Qed.

End FromValueLayout.

(** ** Selection and order of the fields *)

Section FieldSelection.

Import SerializedDict Layout.

Variable env : Env.

Lemma insert_by_ordinal_perm (x : FieldInstance) (l : list FieldInstance) :
  Permutation (x :: l) (insert_by_ordinal x l).
Proof.
  induction l as [| y l IH]; cbn; [reflexivity |].
  destruct (ordinal x <=? ordinal y); [reflexivity |].
  rewrite perm_swap. now apply perm_skip.
Qed.

Lemma sort_by_ordinal_perm (l : list FieldInstance) :
  Permutation l (sort_by_ordinal l).
Proof.
  induction l as [| x l IH]; cbn; [reflexivity |].
  rewrite <- insert_by_ordinal_perm. now apply perm_skip.
Qed.

Lemma insert_by_ordinal_sorted (x : FieldInstance) (l : list FieldInstance) :
  Sorted ordinal_le l -> Sorted ordinal_le (insert_by_ordinal x l).
Proof.
  induction 1 as [| y l Hs IH Hhd]; cbn.
  - repeat constructor.
  - destruct (Z.leb_spec (ordinal x) (ordinal y)) as [Hle | Hgt].
    + constructor; [now constructor | now constructor].
    + constructor; [assumption |].
      destruct l as [| z l]; cbn.
      * constructor. unfold ordinal_le. lia.
      * destruct (Z.leb_spec (ordinal x) (ordinal z)).
        -- constructor. unfold ordinal_le. lia.
        -- constructor. now inversion Hhd.
Qed.

Lemma sort_by_ordinal_sorted (l : list FieldInstance) :
  Sorted ordinal_le (sort_by_ordinal l).
Proof.
  induction l as [| x l IH]; cbn; [constructor |].
  now apply insert_by_ordinal_sorted.
Qed.

Lemma ordinal_le_trans : Relations_1.Transitive ordinal_le.
Proof. intros f g h. unfold ordinal_le. lia. Qed.

Lemma filter_strongly_sorted (p : FieldInstance -> bool)
      (l : list FieldInstance) :
  StronglySorted ordinal_le l -> StronglySorted ordinal_le (filter p l).
Proof.
  induction 1 as [| x l Hs IH Hall]; cbn; [constructor |].
  destruct (p x); [| assumption].
  constructor; [assumption |].
  rewrite Forall_forall in *. intros y Hy.
  apply filter_In in Hy as [Hy _]. now apply Hall.
Qed.

(** [collect_fields] either raises or returns the selected fields, in
    the order of the keys. *)
Lemma collect_fields_selected (d : pydict json) (names : list string) :
  forall fields,
    collect_fields env d names = Ok fields -> fields = selected env d names.
Proof.
  induction names as [| k names IH]; intros fields H; cbn in *.
  - now injection H as <-.
  - destruct (get_field_instance env k) as [[f |] | e];
      [| now apply IH | discriminate].
    apply bind_ok in H as (v & Hv & H).
    apply bind_ok in H as (tl & Htl & H).
    unfold dict_getitem in Hv. unfold has_non_null.
    destruct (dict_get (name f) d) as [v' |]; [| discriminate].
    injection Hv as ->. pose proof (IH _ Htl) as ->.
    destruct (is_not_none v && is_serialized f); now injection H as <-.
Qed.

Lemma dict_get_In {V : Type} (k : string) (d : pydict V) :
  In k (keys d) -> exists v, dict_get k d = Some v.
Proof.
  induction d as [| [k' v'] d IH]; cbn; [contradiction |].
  intros [-> | Hin].
  - rewrite String.eqb_refl. now exists v'.
  - destruct (String.eqb k k'); [now exists v' | now apply IH].
Qed.

(** [collect_fields] returns exactly when the registry answers for
    every key. *)
Lemma collect_fields_answers (d : pydict json) (names : list string)
      (fields : list FieldInstance) :
  collect_fields env d names = Ok fields -> registry_answers env names.
Proof.
  revert fields.
  induction names as [| k names IH]; intros fields H x Hx;
    [contradiction |].
  cbn in H. destruct Hx as [<- | Hx].
  - destruct (get_field_instance env k) as [o | e]; [| discriminate].
    now exists o.
  - destruct (get_field_instance env k) as [[f |] | e]; [| | discriminate].
    + apply bind_ok in H as (v & _ & H).
      apply bind_ok in H as (tl & Htl & _). now apply (IH tl).
    + now apply (IH fields).
Qed.

(** Under a registry that keeps names and answers for the keys,
    [collect_fields] on keys of the map does not raise. *)
Lemma collect_fields_total (d : pydict json) (names : list string) :
  registry_keeps_names env ->
  registry_answers env names ->
  incl names (keys d) ->
  collect_fields env d names = Ok (selected env d names).
Proof.
  intros Hreg. induction names as [| k names IH]; intros Hans Hincl; cbn.
  - reflexivity.
  - assert (Hk : In k (keys d)) by (apply Hincl; now left).
    assert (Hrest : incl names (keys d))
      by (intros x Hx; apply Hincl; now right).
    assert (Hans' : registry_answers env names)
      by (intros x Hx; apply Hans; now right).
    rewrite (IH Hans' Hrest).
    destruct (Hans k (or_introl eq_refl)) as [o Ho]. rewrite Ho.
    destruct o as [f |]; [| reflexivity].
    pose proof Ho as Hf.
    rewrite (Hreg _ _ Hf). unfold dict_getitem, has_non_null.
    destruct (dict_get_In k d Hk) as (v & ->). cbn.
    now destruct (is_not_none v && is_serialized f).
Qed.

Lemma selected_In (d : pydict json) (names : list string)
      (f : FieldInstance) :
  In f (selected env d names) <->
  (exists k, In k names /\ get_field_instance env k = Ok (Some f))
  /\ has_non_null (name f) d = true /\ is_serialized f = true.
Proof.
  unfold selected. rewrite in_flat_map. split.
  - intros (k & Hk & Hin).
    destruct (get_field_instance env k) as [[g |] | e] eqn:Hg;
      [| contradiction | contradiction].
    destruct (has_non_null (name g) d && is_serialized g) eqn:Hc;
      [| contradiction].
    destruct Hin as [<- | []].
    apply andb_prop in Hc as [H1 H2]. split; [now exists k | now split].
  - intros ((k & Hk & Hg) & H1 & H2). exists k. split; [assumption |].
    rewrite Hg, H1, H2. now left.
Qed.

Lemma sorted_keys_selected (d : pydict json) (only_signing : bool)
      (fields : list FieldInstance) :
  sorted_keys env d only_signing = Ok fields ->
  fields
  = (if only_signing
     then filter is_signing (sort_by_ordinal (selected env d (keys d)))
     else sort_by_ordinal (selected env d (keys d))).
Proof.
  unfold sorted_keys. intros H. apply bind_ok in H as (l & Hl & H).
  apply collect_fields_selected in Hl as ->. now injection H as <-.
Qed.

Lemma sorted_keys_In (d : pydict json) (only_signing : bool)
      (fields : list FieldInstance) (f : FieldInstance) :
  sorted_keys env d only_signing = Ok fields ->
  (In f fields <->
   (exists k, In k (keys d) /\ get_field_instance env k = Ok (Some f))
   /\ has_non_null (name f) d = true /\ is_serialized f = true
   /\ (only_signing = true -> is_signing f = true)).
Proof.
  intros H. apply sorted_keys_selected in H as ->.
  pose proof (sort_by_ordinal_perm (selected env d (keys d))) as Hp.
  destruct only_signing.
  - rewrite filter_In.
    split.
    + intros [Hin Hs]. apply (Permutation_in _ (Permutation_sym Hp)) in Hin.
      apply selected_In in Hin. tauto.
    + intros (Hk & Hn & Hser & Hs). split; [| now apply Hs].
      apply (Permutation_in _ Hp). apply selected_In. tauto.
  - split.
    + intros Hin. apply (Permutation_in _ (Permutation_sym Hp)) in Hin.
      apply selected_In in Hin. intuition discriminate.
    + intros (Hk & Hn & Hser & _).
      apply (Permutation_in _ Hp). apply selected_In. tauto.
Qed.

Lemma sorted_keys_ascending (d : pydict json) (only_signing : bool)
      (fields : list FieldInstance) :
  sorted_keys env d only_signing = Ok fields ->
  StronglySorted ordinal_le fields.
Proof.
  intros H. apply sorted_keys_selected in H as ->.
  pose proof (Sorted_StronglySorted ordinal_le_trans
                (sort_by_ordinal_sorted (selected env d (keys d)))) as Hs.
  destruct only_signing; [now apply filter_strongly_sorted | assumption].
Qed.

End FieldSelection.

Section PlainMaps.

Import SerializedDict Layout.

Variable env : Env.

Lemma dict_set_fresh {V : Type} (k : string) (v : V) (d : pydict V) :
  ~ In k (keys d) -> dict_set k v d = d ++ [(k, v)].
Proof.
  induction d as [| [k' v'] d IH]; cbn; intros Hk; [reflexivity |].
  destruct (String.eqb_spec k k') as [-> | _]; [tauto |].
  rewrite IH; [reflexivity | tauto].
Qed.

Lemma str_to_enum_other (k : string) (v : json) :
  k <> "TransactionType" -> k <> "TransactionResult" ->
  k <> "LedgerEntryType" -> _str_to_enum env k v = Ok v.
Proof.
  intros H1 H2 H3. unfold _str_to_enum.
  destruct (String.eqb_spec k "TransactionType"); [contradiction |].
  destruct (String.eqb_spec k "TransactionResult"); [contradiction |].
  destruct (String.eqb_spec k "LedgerEntryType"); [contradiction |].
  reflexivity.
Qed.

Lemma decode_items_plain (value : pydict json) (items : list (string * json)) :
  forall acc,
    plain_map env items ->
    NoDup (keys (acc ++ items)) ->
    decode_items env value items acc = Ok (acc ++ items).
Proof.
  induction items as [| [k v] items IH]; intros acc Hplain Hnd; cbn.
  - now rewrite app_nil_r.
  - destruct (Hplain k v (or_introl eq_refl)) as (Hx & H1 & H2 & H3).
    unfold decode_item. rewrite Hx, (str_to_enum_other k v H1 H2 H3).
    cbn [bind].
    assert (Hfresh : ~ In k (keys acc)).
    { unfold keys in Hnd. rewrite map_app in Hnd. cbn in Hnd.
      apply NoDup_remove_2 in Hnd. intros Hin. apply Hnd.
      apply in_or_app. now left. }
    rewrite (dict_set_fresh k v acc Hfresh).
    rewrite IH.
    + now rewrite <- app_assoc.
    + intros k' v' Hin. apply Hplain. now right.
    + now rewrite <- app_assoc.
Qed.

(** X25: when [from_value] returns, the lookup of every key of the
    decoded map has returned, and the fields written are those the
    lookups gave whose value is not null and which are serialized and,
    when only the signing fields are asked for, which are signing
    fields: the signing encoding writes the fields of the full encoding
    without those that have [is_signing = false], which the full
    encoding does write.  The decoded map is the input map itself when
    that holds no X-address and no enumerated-code field. *)
Theorem from_value_serializes_selected_fields
        (value : pydict json) (only_signing : bool) (r : SerializedType)
        (Hret : from_value env value only_signing = Ok r) :
  exists d fields all_fields vs,
    decode_items env value value [] = Ok d
    /\ (plain_map env value -> NoDup (keys value) -> d = value)
    /\ registry_answers env (keys d)
    /\ sorted_keys env d only_signing = Ok fields
    /\ (forall f,
           In f fields <->
           (exists k, In k (keys d)
                      /\ get_field_instance env k = Ok (Some f))
           /\ has_non_null (name f) d = true
           /\ is_serialized f = true
           /\ (only_signing = true -> is_signing f = true))
    /\ sorted_keys env d false = Ok all_fields
    /\ fields = (if only_signing then filter is_signing all_fields
                 else all_fields)
    /\ (forall f,
           In f all_fields -> is_signing f = false -> only_signing = true ->
           ~ In f fields)
    /\ typed_values env d fields = Ok vs
    /\ List.length vs = List.length fields
    /\ fields_bytes (combine fields vs) = Ok (buffer r).
Proof.
  destruct (from_value_stages env value only_signing r Hret)
    as (d & fields & vs & Hd & Hf & Hvs & Hlen & Hbs).
  assert (Hall : exists all_fields,
             sorted_keys env d false = Ok all_fields
             /\ fields = (if only_signing then filter is_signing all_fields
                          else all_fields)).
  { unfold sorted_keys in *. apply bind_ok in Hf as (l & Hl & Hf).
    rewrite Hl. cbn [bind]. eexists. split; [reflexivity |].
    now injection Hf as <-. }
  destruct Hall as (all_fields & Hall & Hfields).
  exists d, fields, all_fields, vs.
  split; [assumption |]. split.
  { intros Hplain Hnd.
    rewrite (decode_items_plain value value [] Hplain Hnd) in Hd.
    now injection Hd as <-. }
  split.
  { unfold sorted_keys in Hall. apply bind_ok in Hall as (l & Hl & _).
    now apply collect_fields_answers in Hl. }
  split; [assumption |].
  split; [intros f; now apply sorted_keys_In |].
  split; [assumption |]. split; [assumption |]. split.
  { intros f _ Hs ->. rewrite Hfields, filter_In. intros [_ Hs'].
    congruence. }
  now repeat split.
Qed.

End PlainMaps.

Lemma from_value_serializes_selected_fields_witness :
  exists d fields all_fields vs,
    SerializedDict.decode_items
      Sample.env
      [("TxnSignature", JStr "ABCD"); ("Sequence", JInt 258)]
      [("TxnSignature", JStr "ABCD"); ("Sequence", JInt 258)] [] = Ok d
    /\ SerializedDict.sorted_keys Sample.env d true = Ok fields
    /\ SerializedDict.sorted_keys Sample.env d false = Ok all_fields
    /\ fields = filter is_signing all_fields
    /\ Layout.typed_values Sample.env d fields = Ok vs
    /\ Layout.fields_bytes (combine fields vs)
       = Ok [x24; x00; x00; x01; x02].
Proof.
  destruct (from_value_serializes_selected_fields
              Sample.env
              [("TxnSignature", JStr "ABCD"); ("Sequence", JInt 258)]
              true (mkSerialized [x24; x00; x00; x01; x02]) eq_refl)
    as (d & fields & all_fields & vs & H1 & _ & _ & H2 & _ & H3 & H4 & _
        & H5 & _ & H6).
  exists d, fields, all_fields, vs. repeat split; assumption.
Defined.

(** C6 at an input on which the code fails it: the map holds Sequence
    and a key that the registry does not hold.  The claim has the
    unknown key discarded and Sequence serialized, as for the map without
    that key; the lookup of the unknown key raises [KeyError] before the
    test against [None] is reached, in the full and in the signing
    encoding, and nothing is serialized. *)
Theorem unknown_key_is_not_discarded :
  get_field_instance Sample.env "Foo" = Raise (mkExn KeyError ["Foo"])
  /\ SerializedDict.from_value Sample.env
                               [("Foo", JInt 1); ("Sequence", JInt 5)] false
     = Raise (mkExn KeyError ["Foo"])
  /\ SerializedDict.from_value Sample.env
                               [("Foo", JInt 1); ("Sequence", JInt 5)] true
     = Raise (mkExn KeyError ["Foo"])
  /\ SerializedDict.from_value Sample.env [("Sequence", JInt 5)] false
     = Ok (mkSerialized [x24; x00; x00; x00; x05])
  /\ Layout.selected Sample.env [("Foo", JInt 1); ("Sequence", JInt 5)]
                     ["Foo"; "Sequence"]
     = [Sample.Sequence].
Proof. repeat split. Qed.

(** ** The object-end marker *)

Section ObjectEndMarker.

Import SerializedDict Layout.

Variable env : Env.

Lemma field_bytes_chunk (f : FieldInstance) (v : SerializedType)
      (c : list byte) :
  field_bytes f v = Ok c <-> is_chunk_of (f, v) c.
Proof.
  unfold field_bytes, is_chunk_of. cbn [fst snd]. split.
  - intros H. apply bind_ok in H as (vb & Hvb & H). injection H as <-.
    now exists vb.
  - intros (vb & -> & ->). reflexivity.
Qed.

Lemma fields_bytes_chunks (fvs : list (FieldInstance * SerializedType)) :
  forall bs,
    fields_bytes fvs = Ok bs ->
    exists chunks, Forall2 is_chunk_of fvs chunks /\ bs = List.concat chunks.
Proof.
  induction fvs as [| [f v] fvs IH]; intros bs H; cbn in H.
  - injection H as <-. exists []. split; [constructor | reflexivity].
  - apply bind_ok in H as (c & Hc & H).
    apply bind_ok in H as (cs & Hcs & H). injection H as <-.
    destruct (IH _ Hcs) as (chunks & Hall & ->).
    exists (c :: chunks). split; [| reflexivity].
    constructor; [now apply field_bytes_chunk | assumption].
Qed.

Lemma from_parser_loop_field (fuel : nat) (p p1 p2 : BinaryParser.t)
      (s : BinarySerializer.t) (f : FieldInstance) (v : SerializedType) :
  BinaryParser.is_end p = false ->
  read_field env p = Ok (f, p1) ->
  name f <> _OBJECT_END_MARKER ->
  read_field_value
    env (fun q => from_parser_loop env fuel q BinarySerializer.init) f p1
  = Some (Ok (v, p2)) ->
  from_parser_loop env (S fuel) p s
  = match field_bytes f v with
    | Ok c =>
        from_parser_loop
          env fuel p2
          (BinarySerializer.mk (BinarySerializer.bytesink s ++ c))
    | Raise e => Some (Raise e)
    end.
Proof.
  intros Hend Hf Hname Hv. cbn [from_parser_loop].
  rewrite Hend, Hf.
  destruct (String.eqb_spec (name f) _OBJECT_END_MARKER); [contradiction |].
  rewrite Hv, write_field_bytes.
  now destruct (field_bytes f v).
Qed.

(** C7: in [from_value] and in [from_parser] alike, what is written for
    a field is its header, its value bytes and then, when the type of
    the field is the object type and only then, the single byte 0xE1.
    The bytes of the object are these pieces and nothing more: neither
    function writes a marker for the object it is building, and
    [from_parser] returns the sink as it is when the input ends or when
    it reads the marker that closes the object. *)
Theorem object_end_marker_after_object_fields :
  (forall f, type f = _SERIALIZED_DICT -> end_marker_of f = [xe1])
  /\ (forall f, type f <> _SERIALIZED_DICT -> end_marker_of f = [])
  /\ (forall f v s s',
         write_field f v s = Ok s' ->
         exists vb,
           value_bytes f v = Ok vb
           /\ BinarySerializer.bytesink s'
              = BinarySerializer.bytesink s
                  ++ header f ++ vb ++ end_marker_of f)
  /\ (forall value only_signing r,
         from_value env value only_signing = Ok r ->
         exists d fields vs chunks,
           decode_items env value value [] = Ok d
           /\ sorted_keys env d only_signing = Ok fields
           /\ typed_values env d fields = Ok vs
           /\ Forall2 is_chunk_of (combine fields vs) chunks
           /\ buffer r = List.concat chunks)
  /\ (forall fuel p s,
         BinaryParser.is_end p = true ->
         from_parser_loop env (S fuel) p s
         = Some (Ok (mkSerialized (BinarySerializer.bytesink s), p)))
  /\ (forall fuel p s f p1,
         BinaryParser.is_end p = false ->
         read_field env p = Ok (f, p1) ->
         name f = _OBJECT_END_MARKER ->
         from_parser_loop env (S fuel) p s
         = Some (Ok (mkSerialized (BinarySerializer.bytesink s), p1)))
  /\ (forall fuel p s f p1 v p2 vb,
         BinaryParser.is_end p = false ->
         read_field env p = Ok (f, p1) ->
         name f <> _OBJECT_END_MARKER ->
         read_field_value
           env (fun q => from_parser_loop env fuel q BinarySerializer.init)
           f p1
         = Some (Ok (v, p2)) ->
         value_bytes f v = Ok vb ->
         from_parser_loop env (S fuel) p s
         = from_parser_loop
             env fuel p2
             (BinarySerializer.mk
                (BinarySerializer.bytesink s
                   ++ header f ++ vb ++ end_marker_of f))).
Proof.
  split; [| split; [| split; [| split; [| split; [| split]]]]].
  - intros f Hf. unfold end_marker_of. now rewrite Hf.
  - intros f Hf. unfold end_marker_of.
    now destruct (String.eqb_spec (type f) _SERIALIZED_DICT).
  - intros f v s s' H. rewrite write_field_bytes in H.
    apply bind_ok in H as (c & Hc & H). injection H as <-.
    apply field_bytes_chunk in Hc as (vb & Hvb & ->). now exists vb.
  - intros value only_signing r H.
    destruct (from_value_stages env value only_signing r H)
      as (d & fields & vs & Hd & Hf & Hvs & _ & Hbs).
    destruct (fields_bytes_chunks _ _ Hbs) as (chunks & Hall & Hcat).
    now exists d, fields, vs, chunks.
  - intros fuel p s Hend. cbn [from_parser_loop]. now rewrite Hend.
  - intros fuel p s f p1 Hend Hf Hname. cbn [from_parser_loop].
    rewrite Hend, Hf, Hname. now rewrite String.eqb_refl.
  - intros fuel p s f p1 v p2 vb Hend Hf Hname Hv Hvb.
    rewrite (from_parser_loop_field fuel p p1 p2 s f v Hend Hf Hname Hv).
    unfold field_bytes. now rewrite Hvb.
Qed.

End ObjectEndMarker.

Lemma object_end_marker_after_object_fields_witness :
  exists vb,
    Layout.value_bytes Sample.Memo (mkSerialized [x24; x00; x00; x00; x05])
    = Ok vb
    /\ BinarySerializer.bytesink
         (BinarySerializer.mk [xea; x24; x00; x00; x00; x05; xe1])
       = BinarySerializer.bytesink BinarySerializer.init
           ++ header Sample.Memo ++ vb ++ Layout.end_marker_of Sample.Memo.
Proof.
  apply (object_end_marker_after_object_fields Sample.env).
  reflexivity.
Defined.

(** ** Failures of a typed value *)

Section ErrorContext.

Import SerializedDict Layout.

Variable env : Env.

Lemma write_entries_app (d : pydict json) (pre post : list FieldInstance) :
  forall s,
    write_entries env d (pre ++ post) s
    = (s1 <- write_entries env d pre s ;; write_entries env d post s1).
Proof.
  induction pre as [| f pre IH]; intros s; cbn; [reflexivity |].
  destruct (write_entry env d f s); cbn; [apply IH | reflexivity].
Qed.

Lemma typed_value_raise (d : pydict json) (f : FieldInstance) (v : json)
      (e : exn) :
  dict_get (name f) d = Some v ->
  associated_from_value env f v = Raise e ->
  typed_value env d f = Raise (annotate f e).
Proof.
  intros Hv He. unfold typed_value, dict_getitem.
  now rewrite Hv; cbn [bind]; rewrite He.
Qed.

(** C8, as the code has it: when the construction of the typed value of
    a field fails with an [XRPLBinaryCodecException], [from_value]
    raises that exception with "Error processing <field name>: " put
    before its first argument and its other arguments kept; a failure
    of any other class is raised as it is; in both cases [from_value]
    raises and returns no bytes. *)
Theorem typed_value_failure_context
        (d : pydict json) (f : FieldInstance) (v : json) (e : exn)
        (Hv : dict_get (name f) d = Some v)
        (He : associated_from_value env f v = Raise e) :
  (forall a0 rest,
      exn_cls e = XRPLBinaryCodecException ->
      exn_args e = a0 :: rest ->
      annotate f e
      = mkExn XRPLBinaryCodecException
              (("Error processing " ++ name f ++ ": " ++ a0)%string :: rest))
  /\ (exn_cls e <> XRPLBinaryCodecException -> annotate f e = e)
  /\ typed_value env d f = Raise (annotate f e)
  /\ (forall value only_signing pre post s1,
         decode_items env value value [] = Ok d ->
         sorted_keys env d only_signing = Ok (pre ++ f :: post) ->
         write_entries env d pre BinarySerializer.init = Ok s1 ->
         from_value env value only_signing = Raise (annotate f e)).
Proof.
  split; [| split; [| split]].
  - intros a0 rest Hcls Hargs. unfold annotate. now rewrite Hcls, Hargs.
  - intros Hcls. unfold annotate. now destruct (exn_cls e).
  - exact (typed_value_raise d f v e Hv He).
  - intros value only_signing pre post s1 Hd Hf Hpre.
    unfold from_value. rewrite Hd. cbn [bind]. rewrite Hf. cbn [bind].
    rewrite write_entries_app, Hpre. cbn [bind write_entries].
    unfold write_entry. now rewrite (typed_value_raise d f v e Hv He).
Qed.

End ErrorContext.

Lemma typed_value_failure_context_witness :
  SerializedDict.from_value Sample.env [("Sequence", JStr "x")] false
  = Raise (mkExn XRPLBinaryCodecException
                 ["Error processing Sequence: Invalid type to construct a UInt32"]).
Proof.
  pose proof (typed_value_failure_context
                Sample.env [("Sequence", JStr "x")] Sample.Sequence
                (JStr "x") (Sample.bad_value "UInt32") eq_refl eq_refl)
    as (Hann & _ & _ & Hfv).
  rewrite (Hfv [("Sequence", JStr "x")] false [] [] BinarySerializer.init
               eq_refl eq_refl eq_refl).
  rewrite (Hann "Invalid type to construct a UInt32" [] eq_refl eq_refl).
  reflexivity.
Defined.

(** C8 as stated fails: the value of Account is a string that the address
    codec rejects with its own exception class; [from_value] raises that
    exception with its message as it was, without the name of the field. *)
Lemma address_codec_failure_not_annotated :
  associated_from_value Sample.env Sample.Account (JStr Sample.a_seed)
  = Raise (mkExn XRPLAddressCodecException ["Provided prefix is incorrect"])
  /\ SerializedDict.from_value
       Sample.env [("Account", JStr Sample.a_seed)] false
     = Raise (mkExn XRPLAddressCodecException ["Provided prefix is incorrect"])
  /\ SerializedDict.from_value
       Sample.env [("Account", JStr Sample.a_seed)] false
     <> Raise (mkExn XRPLAddressCodecException
                     ["Error processing Account: Provided prefix is incorrect"]).
Proof.
  split; [reflexivity |]. split; [reflexivity |]. discriminate.
Qed.

(** ** X-addresses against explicit tag fields *)

Section TagConflicts.

Import SerializedDict Layout.

Variable env : Env.

Lemma dict_get_set_eq {V : Type} (k : string) (v : V) (d : pydict V) :
  dict_get k (dict_set k v d) = Some v.
Proof.
  induction d as [| [k' v'] d IH]; cbn.
  - now rewrite String.eqb_refl.
  - destruct (String.eqb k k') eqn:E; cbn; rewrite ?String.eqb_refl, ?E;
      [reflexivity | assumption].
Qed.

Lemma dict_get_set_neq {V : Type} (k k' : string) (v : V) (d : pydict V) :
  k <> k' -> dict_get k (dict_set k' v d) = dict_get k d.
Proof.
  intros Hne. induction d as [| [k0 v0] d IH]; cbn.
  - now destruct (String.eqb_spec k k').
  - destruct (String.eqb_spec k' k0) as [-> | Hk0]; cbn.
    + now destruct (String.eqb_spec k k0).
    + destruct (String.eqb k k0); [reflexivity | assumption].
Qed.

(** The decomposition of a decodable X-address, by field. *)
Lemma handle_xaddress_decoded (k x c : string) (tag : option Z) (n : bool) :
  xaddress_to_classic_address env x = Ok (c, tag, n) ->
  _handle_xaddress env k x
  = if String.eqb k _DESTINATION then
      Ok (match tag with
          | Some t => [(_DESTINATION, JStr c); (_DEST_TAG, JInt t)]
          | None => [(_DESTINATION, JStr c)]
          end)
    else if String.eqb k _ACCOUNT then
      Ok (match tag with
          | Some t => [(_ACCOUNT, JStr c); (_SOURCE_TAG, JInt t)]
          | None => [(_ACCOUNT, JStr c)]
          end)
    else match tag with
         | Some _ => Raise (AmbiguousTagError k)
         | None => Ok [(k, JStr c)]
         end.
Proof.
  intros Hx. unfold _handle_xaddress. rewrite Hx. cbn [bind].
  destruct (String.eqb_spec k _DESTINATION) as [-> | _];
    [now destruct tag |].
  destruct (String.eqb_spec k _ACCOUNT) as [-> | _]; now destruct tag.
Qed.

Lemma decode_items_app (value : pydict json)
      (pre post : list (string * json)) :
  forall acc,
    decode_items env value (pre ++ post) acc
    = (acc1 <- decode_items env value pre acc ;;
       decode_items env value post acc1).
Proof.
  induction pre as [| [k v] pre IH]; intros acc; cbn; [reflexivity |].
  destruct (decode_item env value k v acc); cbn; [apply IH | reflexivity].
Qed.


Lemma string_length_append (s t : string) :
  String.length (s ++ t)%string = (String.length s + String.length t)%nat.
Proof. induction s as [| c s IH]; cbn; congruence. Qed.



Lemma as_xaddress_some (v : json) (x : string) :
  as_xaddress env v = Some x <-> v = JStr x /\ is_valid_xaddress env x = true.
Proof.
  unfold as_xaddress. split.
  - destruct v; try discriminate.
    destruct (is_valid_xaddress env s) eqn:E; [| discriminate].
    intros H. injection H as <-. now split.
  - intros [-> ->]. reflexivity.
Qed.




End TagConflicts.

Section TagConflictsOfFromValue.

Import SerializedDict Layout.

Variable env : Env.










End TagConflictsOfFromValue.

Section TagConflictTheorem.

Import SerializedDict Layout.

Variable env : Env.


Lemma keys_app {V : Type} (a b : pydict V) : keys (a ++ b) = keys a ++ keys b.
Proof. unfold keys. apply map_app. Qed.

Lemma In_keys {V : Type} (k : string) (v : V) (d : pydict V) :
  In (k, v) d -> In k (keys d).
Proof. intros H. unfold keys. now apply (in_map fst) in H. Qed.


End TagConflictTheorem.



(** ** Parsing canonical bytes *)

Section ParserRoundTrip.

Import SerializedDict Layout Canonical.

Lemma byte_val_range (b : byte) : 0 <= byte_val b <= 255.
Proof.
  unfold byte_val. pose proof (Byte.to_N_bounded b) as H. lia.
Qed.

(** Decoding the length prefix undoes [_encode_variable_length_prefix]. *)
Lemma read_length_prefix_encode (L : Z) (p rest : list byte) :
  0 <= L ->
  BinarySerializer._encode_variable_length_prefix L = Ok p ->
  BinaryParser._read_length_prefix (p ++ rest) = Ok (L, rest).
Proof.
  intros HL Hp.
  destruct (Z.le_gt_cases L 192) as [H1 | H1].
  { destruct (prefix_one_byte L (conj HL H1)) as (b & Hb & Vb).
    rewrite Hb in Hp. injection Hp as <-.
    unfold BinaryParser._read_length_prefix.
    cbn [app bind BinaryParser.read_uint8]. rewrite Vb.
    destruct (Z.leb_spec L 192); [reflexivity | lia]. }
  destruct (Z.le_gt_cases L 12480) as [H2 | H2].
  { destruct (prefix_two_bytes L ltac:(lia)) as (b1 & b2 & Hb & V1 & V2).
    rewrite Hb in Hp. injection Hp as <-.
    unfold BinaryParser._read_length_prefix.
    cbn [app bind BinaryParser.read_uint8]. rewrite V1, V2.
    pose proof (shiftr_8_bounds (L - 193) 48 ltac:(lia)) as Hs.
    destruct (Z.leb_spec (193 + Z.shiftr (L - 193) 8) 192); [lia |].
    destruct (Z.leb_spec (193 + Z.shiftr (L - 193) 8) 240); [| lia].
    f_equal. f_equal.
    rewrite Z.shiftr_div_pow2 by lia.
    change 255 with (Z.ones 8). rewrite Z.land_ones by lia.
    change (2 ^ 8) with 256. Z.div_mod_to_equations. lia. }
  destruct (Z.le_gt_cases L 918744) as [H3 | H3].
  { destruct (prefix_three_bytes L ltac:(lia))
      as (b1 & b2 & b3 & Hb & V1 & V2 & V3).
    rewrite Hb in Hp. injection Hp as <-.
    unfold BinaryParser._read_length_prefix.
    cbn [app bind BinaryParser.read_uint8]. rewrite V1, V2, V3.
    pose proof (shiftr_16_bounds (L - 12481) 14 ltac:(lia)) as Hs.
    destruct (Z.leb_spec (241 + Z.shiftr (L - 12481) 16) 192); [lia |].
    destruct (Z.leb_spec (241 + Z.shiftr (L - 12481) 16) 240); [lia |].
    destruct (Z.leb_spec (241 + Z.shiftr (L - 12481) 16) 254); [| lia].
    f_equal. f_equal.
    rewrite !Z.shiftr_div_pow2 by lia.
    change 255 with (Z.ones 8). rewrite !Z.land_ones by lia.
    change (2 ^ 8) with 256. change (2 ^ 16) with 65536.
    Z.div_mod_to_equations. lia. }
  rewrite (prefix_too_long L H3) in Hp. discriminate.
Qed.

Variable env : Env.

Lemma is_end_app (h rest : list byte) :
  h <> [] -> BinaryParser.is_end (h ++ rest) = false.
Proof. now destruct h. Qed.

Lemma byte_length_nonneg (v : SerializedType) : 0 <= byte_length v.
Proof. unfold byte_length, len. lia. Qed.

(** Reading back the value of a primitive field from its bytes. *)
Lemma read_field_value_primitive
      (nested : BinaryParser.t ->
                option (result (SerializedType * BinaryParser.t)))
      (f : FieldInstance) (v : SerializedType) (vb rest : list byte) :
  type f <> _SERIALIZED_DICT ->
  value_readable env f v ->
  value_bytes f v = Ok vb ->
  read_field_value env nested f (vb ++ rest) = Some (Ok (v, rest)).
Proof.
  intros Htype Hread Hvb. unfold read_field_value.
  unfold value_readable, length_hint in Hread.
  unfold value_bytes in Hvb.
  destruct (String.eqb_spec (type f) _SERIALIZED_DICT); [contradiction |].
  destruct (is_variable_length_encoded f).
  - apply bind_ok in Hvb as (p & Hp & Hvb). injection Hvb as <-.
    rewrite <- app_assoc.
    rewrite (read_length_prefix_encode _ _ _ (byte_length_nonneg v) Hp).
    now rewrite Hread.
  - injection Hvb as <-. now rewrite Hread.
Qed.

(** The loop of [from_parser] on canonical bytes: it appends them to
    the sink and stops at what follows them. *)
Lemma from_parser_loop_canonical (b : list byte) :
  canonical env b ->
  forall fuel acc tail tail',
    (List.length (b ++ tail) < fuel)%nat ->
    closes env tail tail' ->
    from_parser_loop env fuel (b ++ tail) acc
    = Some (Ok (mkSerialized (BinarySerializer.bytesink acc ++ b), tail')).
Proof.
  induction 1 as [| f v vb rest Htype Hname [Hne Hhdr] Hread Hvb _ IHrest
                  | f inner rest Htype Hname Hvl [Hne Hhdr] Hmark
                      _ IHinner _ IHrest];
    intros fuel acc tail tail' Hfuel Hclose.
  - destruct fuel as [| fuel]; [cbn in Hfuel; lia |].
    cbn [app from_parser_loop]. rewrite app_nil_r.
    destruct Hclose as [[-> ->] | [(f_end & Hfn & Hfe) ->]].
    + reflexivity.
    + cbn [BinaryParser.is_end _OBJECT_END_MARKER_BYTE app].
      change (xe1 :: tail') with (_OBJECT_END_MARKER_BYTE ++ tail').
      rewrite Hfe, Hfn. now rewrite String.eqb_refl.
  - destruct fuel as [| fuel]; [cbn in Hfuel; lia |].
    rewrite <- !app_assoc.
    rewrite (from_parser_loop_field
               env fuel _ (vb ++ rest ++ tail) (rest ++ tail) acc f v);
      [| now apply is_end_app | apply Hhdr | assumption
       | now apply read_field_value_primitive].
    unfold field_bytes, end_marker_of. rewrite Hvb. cbn [bind].
    destruct (String.eqb_spec (type f) _SERIALIZED_DICT); [contradiction |].
    rewrite (IHrest fuel _ tail tail'); [| | assumption].
    + cbn [BinarySerializer.bytesink].
      now rewrite app_nil_r, <- !app_assoc.
    + rewrite <- !app_assoc, !length_app in Hfuel.
      rewrite length_app.
      assert (0 < List.length (header f))%nat
        by (destruct (header f); [contradiction | cbn; lia]).
      lia.
  - destruct fuel as [| fuel]; [cbn in Hfuel; lia |].
    rewrite <- !app_assoc.
    assert (Hlen : (List.length (inner ++ _OBJECT_END_MARKER_BYTE
                                       ++ rest ++ tail) < fuel)%nat).
    { rewrite <- !app_assoc, !length_app in Hfuel. rewrite !length_app.
      assert (0 < List.length (header f))%nat
        by (destruct (header f); [contradiction | cbn; lia]).
      lia. }
    rewrite (from_parser_loop_field
               env fuel _ (inner ++ _OBJECT_END_MARKER_BYTE ++ rest ++ tail)
               (rest ++ tail) acc f (mkSerialized inner));
      [| now apply is_end_app | apply Hhdr | assumption |].
    + unfold field_bytes, value_bytes, end_marker_of. rewrite Hvl, Htype.
      rewrite String.eqb_refl. cbn [bind buffer].
      rewrite (IHrest fuel _ tail tail'); [| | assumption].
      * cbn [BinarySerializer.bytesink]. now rewrite <- !app_assoc.
      * rewrite !length_app in Hlen. rewrite length_app. lia.
    + unfold read_field_value. rewrite Hvl, Htype, String.eqb_refl.
      rewrite (IHinner fuel BinarySerializer.init
                       (_OBJECT_END_MARKER_BYTE ++ rest ++ tail)
                       (rest ++ tail) Hlen); [reflexivity |].
      right. now split.
Qed.

(** C3: parsing well-formed canonical bytes of an object with
    [from_parser] and taking the bytes of the result gives the input
    bytes back, and the parser has then consumed them all; a bound on
    the iterations above the number of input bytes is enough. *)
Theorem from_parser_reproduces_canonical_bytes
        (bytes : list byte) (fuel : nat)
        (Hcanonical : canonical env bytes)
        (Hfuel : (List.length bytes < fuel)%nat) :
  from_parser env fuel bytes = Some (Ok (mkSerialized bytes, []))
  /\ (forall r rest,
         from_parser env fuel bytes = Some (Ok (r, rest)) ->
         to_bytes r = bytes).
Proof.
  assert (H : from_parser env fuel bytes
              = Some (Ok (mkSerialized bytes, []))).
  { unfold from_parser.
    rewrite <- (app_nil_r bytes) at 1.
    rewrite (from_parser_loop_canonical
               bytes Hcanonical fuel BinarySerializer.init [] []);
      [reflexivity | now rewrite app_nil_r | now left]. }
  split; [assumption |].
  intros r rest Hr. rewrite H in Hr. now injection Hr as <- _.
Qed.

End ParserRoundTrip.

Section SampleCanonicalBytes.

Import SerializedDict Layout Canonical.

Lemma sample_marker_readable : marker_readable Sample.env.
Proof. exists Sample.ObjectEndMarker. split; reflexivity. Qed.

Lemma sample_sequence_canonical (a b c d : byte) (rest : list byte) :
  canonical Sample.env rest ->
  canonical Sample.env (x24 :: a :: b :: c :: d :: rest).
Proof.
  intros Hrest.
  apply (canonical_primitive Sample.env Sample.Sequence
                             (mkSerialized [a; b; c; d]) [a; b; c; d] rest);
    try assumption; try reflexivity; try discriminate.
  - split; [discriminate | reflexivity].
  - intros tl. reflexivity.
Qed.

Lemma sample_bytes_canonical :
  canonical Sample.env
            [x24; x00; x00; x01; x02; x74; x02; xab; xcd;
             xea; x24; x00; x00; x00; x05; xe1].
Proof.
  apply sample_sequence_canonical.
  apply (canonical_primitive Sample.env Sample.TxnSignature
                             (mkSerialized [xab; xcd]) [x02; xab; xcd]
                             [xea; x24; x00; x00; x00; x05; xe1]);
    try reflexivity; try discriminate.
  - split; [discriminate | reflexivity].
  - intros tl. reflexivity.
  - apply (canonical_object Sample.env Sample.Memo
                            [x24; x00; x00; x00; x05] []);
      try reflexivity; try discriminate.
    + split; [discriminate | reflexivity].
    + apply sample_marker_readable.
    + apply sample_sequence_canonical. constructor.
    + constructor.
Qed.

End SampleCanonicalBytes.

Lemma from_parser_reproduces_canonical_bytes_witness :
  SerializedDict.from_parser
    Sample.env 17
    [x24; x00; x00; x01; x02; x74; x02; xab; xcd;
     xea; x24; x00; x00; x00; x05; xe1]
  = Some (Ok (mkSerialized
                [x24; x00; x00; x01; x02; x74; x02; xab; xcd;
                 xea; x24; x00; x00; x00; x05; xe1], [])).
Proof.
  apply (from_parser_reproduces_canonical_bytes
           Sample.env
           [x24; x00; x00; x01; x02; x74; x02; xab; xcd;
            xea; x24; x00; x00; x00; x05; xe1] 17).
  - apply sample_bytes_canonical.
  - cbn. lia.
Defined.

(** ** Insertion order *)

Section InsertionOrder.

Import SerializedDict Layout.

Variable env : Env.

Lemma dict_update_app {V : Type} (d a b : pydict V) :
  dict_update d (a ++ b) = dict_update (dict_update d a) b.
Proof. unfold dict_update. apply fold_left_app. Qed.

Lemma dict_update_fresh {V : Type} (ws : pydict V) :
  forall d, NoDup (keys (d ++ ws)) -> dict_update d ws = d ++ ws.
Proof.
  induction ws as [| [k v] ws IH]; intros d Hnd.
  - cbn. now rewrite app_nil_r.
  - change (dict_update d ((k, v) :: ws))
      with (dict_update (dict_set k v d) ws).
    assert (Hfresh : ~ In k (keys d)).
    { rewrite keys_app in Hnd. cbn in Hnd. apply NoDup_remove_2 in Hnd.
      intros Hin. apply Hnd, in_or_app. now left. }
    rewrite (dict_set_fresh k v d Hfresh), IH; rewrite <- app_assoc;
      [reflexivity | assumption].
Qed.

Lemma dict_get_Some_In {V : Type} (k : string) (v : V) (d : pydict V) :
  dict_get k d = Some v -> In (k, v) d.
Proof.
  induction d as [| [k' v'] d IH]; cbn; [discriminate |].
  destruct (String.eqb_spec k k') as [-> | _].
  - intros H. injection H as ->. now left.
  - intros H. right. now apply IH.
Qed.

Lemma In_dict_get {V : Type} (k : string) (v : V) (d : pydict V) :
  NoDup (keys d) -> In (k, v) d -> dict_get k d = Some v.
Proof.
  induction d as [| [k' v'] d IH]; cbn; [contradiction |].
  intros Hnd [Heq | Hin].
  - injection Heq as -> ->. now rewrite String.eqb_refl.
  - inversion Hnd as [| ? ? Hnotin Hnd']; subst.
    destruct (String.eqb_spec k k') as [-> | _]; [| now apply IH].
    exfalso. apply Hnotin. now apply In_keys in Hin.
Qed.

Lemma keys_perm {V : Type} (a b : pydict V) :
  Permutation a b -> Permutation (keys a) (keys b).
Proof. apply Permutation_map. Qed.

(** Looking a key up does not depend on the order of the entries. *)
Lemma dict_get_perm {V : Type} (k : string) (a b : pydict V) :
  NoDup (keys a) -> Permutation a b -> dict_get k a = dict_get k b.
Proof.
  intros Hnd Hp.
  assert (Hndb : NoDup (keys b))
    by (eapply Permutation_NoDup; [apply keys_perm, Hp | assumption]).
  destruct (dict_get k a) as [v |] eqn:Ha.
  - apply dict_get_Some_In in Ha.
    apply (Permutation_in _ Hp) in Ha.
    symmetry. now apply In_dict_get.
  - destruct (dict_get k b) as [v |] eqn:Hb; [| reflexivity].
    apply dict_get_Some_In in Hb.
    apply (Permutation_in _ (Permutation_sym Hp)) in Hb.
    apply (In_dict_get _ _ _ Hnd) in Hb. congruence.
Qed.

Lemma decode_item_writes (value : pydict json) (k : string) (v : json)
      (acc : pydict json) :
  decode_item env value k v acc
  = (ws <- item_writes env value k v ;; Ok (dict_update acc ws)).
Proof.
  unfold decode_item, item_writes.
  destruct (as_xaddress env v).
  - destruct (_handle_xaddress env k s) as [handled | e]; cbn [bind];
      [| reflexivity].
    destruct (has_non_null _SOURCE_TAG handled
              && has_non_null _SOURCE_TAG value); [reflexivity |].
    now destruct (has_non_null _DEST_TAG handled
                  && has_non_null _DEST_TAG value).
  - now destruct (_str_to_enum env k v).
Qed.

Lemma decode_items_writes (value : pydict json)
      (items : list (string * json)) :
  forall acc,
    decode_items env value items acc
    = (ws <- all_writes env value items ;; Ok (dict_update acc ws)).
Proof.
  induction items as [| [k v] items IH]; intros acc; cbn; [reflexivity |].
  rewrite decode_item_writes.
  destruct (item_writes env value k v) as [ws | e]; cbn [bind];
    [| reflexivity].
  rewrite IH.
  destruct (all_writes env value items) as [ws' | e]; cbn [bind];
    [| reflexivity].
  now rewrite dict_update_app.
Qed.

Lemma item_writes_ext (value value' : pydict json) (k : string) (v : json) :
  (forall key, dict_get key value = dict_get key value') ->
  item_writes env value k v = item_writes env value' k v.
Proof.
  intros Hext. unfold item_writes, has_non_null. now rewrite !Hext.
Qed.

Lemma all_writes_ext (value value' : pydict json)
      (items : list (string * json)) :
  (forall key, dict_get key value = dict_get key value') ->
  all_writes env value items = all_writes env value' items.
Proof.
  intros Hext. induction items as [| [k v] items IH]; cbn; [reflexivity |].
  now rewrite (item_writes_ext value value' k v Hext), IH.
Qed.

Lemma all_writes_perm (value : pydict json)
      (items items' : list (string * json)) :
  Permutation items items' ->
  forall ws,
    all_writes env value items = Ok ws ->
    exists ws', all_writes env value items' = Ok ws' /\ Permutation ws ws'.
Proof.
  induction 1 as [| [k v] l l' Hp IH | [k1 v1] [k2 v2] l | l l' l'' _ IH1 _ IH2];
    intros ws Hws.
  - exists ws. now split.
  - cbn in Hws. apply bind_ok in Hws as (w & Hw & Hws).
    apply bind_ok in Hws as (wl & Hwl & Hws). injection Hws as <-.
    destruct (IH _ Hwl) as (wl' & Hwl' & Hperm).
    exists (w ++ wl'). cbn. rewrite Hw, Hwl'. cbn.
    split; [reflexivity | now apply Permutation_app_head].
  - cbn in Hws. apply bind_ok in Hws as (w2 & Hw2 & Hws).
    apply bind_ok in Hws as (w & Hw & Hws). injection Hws as <-.
    apply bind_ok in Hw as (w1 & Hw1 & Hw).
    apply bind_ok in Hw as (wl & Hwl & Hw). injection Hw as <-.
    exists (w1 ++ w2 ++ wl). cbn. rewrite Hw1, Hw2, Hwl. cbn.
    split; [reflexivity |]. rewrite !app_assoc.
    apply Permutation_app_tail, Permutation_app_comm.
  - destruct (IH1 _ Hws) as (ws' & Hws' & Hp1).
    destruct (IH2 _ Hws') as (ws'' & Hws'' & Hp2).
    exists ws''. split; [assumption | now transitivity ws'].
Qed.

End InsertionOrder.

Section InsertionOrderOfWrites.

Import SerializedDict Layout.

Variable env : Env.

Lemma item_writes_keys (value : pydict json) (k : string) (v : json)
      (ws : pydict json) :
  item_writes env value k v = Ok ws ->
  keys ws = [k]
  \/ exists x c t n,
      v = JStr x /\ is_valid_xaddress env x = true
      /\ xaddress_to_classic_address env x = Ok (c, Some t, n)
      /\ ((k = _ACCOUNT /\ keys ws = [_ACCOUNT; _SOURCE_TAG])
          \/ (k = _DESTINATION /\ keys ws = [_DESTINATION; _DEST_TAG])).
Proof.
  unfold item_writes. intros H.
  destruct (as_xaddress env v) as [x |] eqn:Hx.
  2:{ apply bind_ok in H as (v' & _ & H). injection H as <-. now left. }
  apply as_xaddress_some in Hx as [-> Hvalid].
  apply bind_ok in H as (handled & Hh & H).
  destruct (has_non_null _SOURCE_TAG handled
            && has_non_null _SOURCE_TAG value); [discriminate |].
  destruct (has_non_null _DEST_TAG handled
            && has_non_null _DEST_TAG value); [discriminate |].
  injection H as <-.
  destruct (xaddress_to_classic_address env x) as [[[c tag] n] | e] eqn:Hdec;
    [| unfold _handle_xaddress in Hh; rewrite Hdec in Hh; discriminate].
  rewrite (handle_xaddress_decoded env k x c tag n Hdec) in Hh.
  destruct (String.eqb_spec k _DESTINATION) as [-> | _].
  { injection Hh as <-. destruct tag as [t |]; [| now left].
    right. exists x, c, t, n. repeat (split; [reflexivity || assumption |]).
    right. now split. }
  destruct (String.eqb_spec k _ACCOUNT) as [-> | _].
  { injection Hh as <-. destruct tag as [t |]; [| now left].
    right. exists x, c, t, n. repeat (split; [reflexivity || assumption |]).
    left. now split. }
  destruct tag; [discriminate |]. injection Hh as <-. now left.
Qed.

(** Without a collision between a tag of an X-address and a key of the
    map, every key is written once. *)
Lemma all_writes_nodup (value : pydict json) :
  no_tag_collision env value ->
  forall items ws,
    incl items value ->
    NoDup (keys items) ->
    all_writes env value items = Ok ws ->
    NoDup (keys ws)
    /\ forall key,
        In key (keys ws) ->
        In key (keys items)
        \/ (key = _SOURCE_TAG /\ In _ACCOUNT (keys items)
            /\ ~ In _SOURCE_TAG (keys value))
        \/ (key = _DEST_TAG /\ In _DESTINATION (keys items)
            /\ ~ In _DEST_TAG (keys value)).
Proof.
  intros Hcoll.
  induction items as [| [k v] items IH]; intros ws Hincl Hnd Hws.
  - injection Hws as <-. split; [constructor | contradiction].
  - cbn in Hws. apply bind_ok in Hws as (w & Hw & Hws).
    apply bind_ok in Hws as (wt & Hwt & Hws). injection Hws as <-.
    assert (Hincl' : incl items value)
      by (intros y Hy; apply Hincl; now right).
    inversion Hnd as [| ? ? Hk Hnd']; subst.
    destruct (IH wt Hincl' Hnd' Hwt) as [Hndt Hkeys].
    assert (Hkv : In k (keys value))
      by (apply (In_keys k v), Hincl; now left).
    assert (Hk_fresh : ~ In k (keys wt)).
    { intros Hin. destruct (Hkeys k Hin) as [H | [(-> & _ & H) | (-> & _ & H)]];
        tauto. }
    rewrite keys_app.
    destruct (item_writes_keys value k v w Hw)
      as [-> | (x & c & t & n & -> & Hvalid & Hdec & Hcase)].
    + split.
      * cbn. now constructor.
      * intros key [<- | Hin]; [left; now left |].
        destruct (Hkeys key Hin) as [H | [(-> & H1 & H2) | (-> & H1 & H2)]].
        -- left. now right.
        -- right; left. repeat split; [now right | assumption].
        -- right; right. repeat split; [now right | assumption].
    + destruct (Hcoll k x c t n (Hincl _ (or_introl eq_refl)) Hvalid Hdec)
        as [Hst Hdt].
      destruct Hcase as [(-> & ->) | (-> & ->)].
      * specialize (Hst eq_refl). split.
        -- cbn. constructor; [| constructor; [| assumption]].
           ++ intros [H | Hin]; [discriminate H | now apply Hk_fresh].
           ++ intros Hin.
              destruct (Hkeys _ Hin) as [H | [(_ & H & _) | (H & _)]].
              ** apply Hst. unfold keys in *.
                 apply (incl_map fst Hincl'). assumption.
              ** now apply Hk.
              ** discriminate H.
        -- intros key [<- | [<- | Hin]].
           ++ left; now left.
           ++ right; left. repeat split; [now left | assumption].
           ++ destruct (Hkeys key Hin)
                as [H | [(-> & H1 & H2) | (-> & H1 & H2)]].
              ** left. now right.
              ** right; left. repeat split; [now right | assumption].
              ** right; right. repeat split; [now right | assumption].
      * specialize (Hdt eq_refl). split.
        -- cbn. constructor; [| constructor; [| assumption]].
           ++ intros [H | Hin]; [discriminate H | now apply Hk_fresh].
           ++ intros Hin.
              destruct (Hkeys _ Hin) as [H | [(H & _) | (_ & H & _)]].
              ** apply Hdt. unfold keys in *.
                 apply (incl_map fst Hincl'). assumption.
              ** discriminate H.
              ** now apply Hk.
        -- intros key [<- | [<- | Hin]].
           ++ left; now left.
           ++ right; right. repeat split; [now left | assumption].
           ++ destruct (Hkeys key Hin)
                as [H | [(-> & H1 & H2) | (-> & H1 & H2)]].
              ** left. now right.
              ** right; left. repeat split; [now right | assumption].
              ** right; right. repeat split; [now right | assumption].
Qed.

(** The decoded map of a map without collisions is the list of what its
    entries write. *)
Lemma decode_items_no_collision (value d : pydict json) :
  NoDup (keys value) ->
  no_tag_collision env value ->
  decode_items env value value [] = Ok d ->
  all_writes env value value = Ok d /\ NoDup (keys d).
Proof.
  intros Hnd Hcoll Hd. rewrite decode_items_writes in Hd.
  apply bind_ok in Hd as (ws & Hws & Hd). injection Hd as <-.
  destruct (all_writes_nodup value Hcoll value ws (incl_refl _) Hnd Hws)
    as [Hndw _].
  rewrite (dict_update_fresh ws [] Hndw). now split.
Qed.

End InsertionOrderOfWrites.

Section CanonicalOrder.

Import SerializedDict Layout.

Variable env : Env.

Lemma selected_ext (d d' : pydict json) (names : list string) :
  (forall key, dict_get key d = dict_get key d') ->
  selected env d names = selected env d' names.
Proof.
  intros Hext. unfold selected. apply flat_map_ext. intros k.
  destruct (get_field_instance env k) as [[f |] | e]; try reflexivity.
  unfold has_non_null. now rewrite Hext.
Qed.

Lemma selected_perm (d : pydict json) (names names' : list string) :
  Permutation names names' ->
  Permutation (selected env d names) (selected env d names').
Proof. intros Hp. unfold selected. now apply Permutation_flat_map. Qed.

(** Two sorted lists with the same elements are the same list, when
    elements of equal ordinal are equal. *)
Lemma sorted_perm_unique (l : list FieldInstance) :
  forall l',
    StronglySorted ordinal_le l ->
    StronglySorted ordinal_le l' ->
    Permutation l l' ->
    (forall f g, In f l -> In g l -> ordinal f = ordinal g -> f = g) ->
    l = l'.
Proof.
  induction l as [| x l IH]; intros l' Hs Hs' Hp Hinj.
  - apply Permutation_nil in Hp. now subst.
  - destruct l' as [| y l'];
      [apply Permutation_sym, Permutation_nil in Hp; discriminate |].
    inversion Hs as [| ? ? Hsl Hall]; subst.
    inversion Hs' as [| ? ? Hsl' Hall']; subst.
    rewrite Forall_forall in Hall, Hall'.
    assert (Hxy : x = y).
    { assert (Hy : In y (x :: l))
        by (apply (Permutation_in _ (Permutation_sym Hp)); now left).
      assert (Hx : In x (y :: l'))
        by (apply (Permutation_in _ Hp); now left).
      destruct Hx as [-> | Hx]; [reflexivity |].
      destruct Hy as [-> | Hy]; [reflexivity |].
      apply Hinj; [now left | now right |].
      specialize (Hall _ Hy). specialize (Hall' _ Hx).
      unfold ordinal_le in *. lia. }
    subst y. f_equal.
    apply IH; try assumption.
    + now apply Permutation_cons_inv in Hp.
    + intros f g Hf Hg. apply Hinj; now right.
Qed.

Lemma sort_by_ordinal_perm_eq (l l' : list FieldInstance) :
  Permutation l l' ->
  (forall f g, In f l -> In g l -> ordinal f = ordinal g -> f = g) ->
  sort_by_ordinal l = sort_by_ordinal l'.
Proof.
  intros Hp Hinj.
  apply sorted_perm_unique.
  - apply (Sorted_StronglySorted ordinal_le_trans), sort_by_ordinal_sorted.
  - apply (Sorted_StronglySorted ordinal_le_trans), sort_by_ordinal_sorted.
  - rewrite <- (sort_by_ordinal_perm l), <- (sort_by_ordinal_perm l').
    assumption.
  - intros f g Hf Hg. apply Hinj;
      now apply (Permutation_in _ (Permutation_sym (sort_by_ordinal_perm l))).
Qed.

Lemma write_entries_ext (d d' : pydict json) (fields : list FieldInstance) :
  (forall key, dict_get key d = dict_get key d') ->
  forall s, write_entries env d fields s = write_entries env d' fields s.
Proof.
  intros Hext. induction fields as [| f fields IH]; intros s; cbn;
    [reflexivity |].
  unfold write_entry, typed_value, dict_getitem. rewrite Hext.
  destruct (dict_get (name f) d'); cbn [bind]; [| reflexivity].
  destruct (associated_from_value env f j); cbn [bind]; [| reflexivity].
  destruct (write_field f a s); cbn [bind]; [apply IH | reflexivity].
Qed.

(** X4: apart from the collision of an X-address tag with a key of the map,
    the result of [from_value] does not depend on the insertion order:
    two maps with the same entries give the same bytes, or the same
    failure, once the first loop goes through and the lookup of every
    key of the decoded map returns.  (A lookup that raises ends
    [from_value] with the failure of the first such key in insertion
    order.) *)
Lemma from_value_order_independent
      (l1 l2 d : pydict json) (only_signing : bool) :
  registry_keeps_names env ->
  ordinals_distinct env ->
  NoDup (keys l1) ->
  no_tag_collision env l1 ->
  Permutation l1 l2 ->
  decode_items env l1 l1 [] = Ok d ->
  registry_answers env (keys d) ->
  from_value env l1 only_signing = from_value env l2 only_signing.
Proof.
  intros Hreg Hord Hnd Hcoll Hp Hd Hans.
  destruct (decode_items_no_collision env l1 d Hnd Hcoll Hd) as [Hw Hndd].
  destruct (all_writes_perm env l1 l1 l2 Hp d Hw) as (d2 & Hw2 & Hpd).
  rewrite (all_writes_ext env l1 l2 l2
                          (fun key => dict_get_perm key l1 l2 Hnd Hp))
    in Hw2.
  assert (Hndd2 : NoDup (keys d2))
    by (eapply Permutation_NoDup; [apply keys_perm, Hpd | assumption]).
  assert (Hd2 : decode_items env l2 l2 [] = Ok d2).
  { rewrite decode_items_writes, Hw2. cbn [bind].
    now rewrite (dict_update_fresh d2 [] Hndd2). }
  assert (Hext : forall key, dict_get key d = dict_get key d2)
    by (intros key; now apply dict_get_perm).
  unfold from_value. rewrite Hd, Hd2. cbn [bind].
  unfold sorted_keys.
  assert (Hans2 : registry_answers env (keys d2)).
  { intros k Hk. apply Hans.
    apply (Permutation_in _ (Permutation_sym (keys_perm _ _ Hpd))), Hk. }
  rewrite (collect_fields_total env d (keys d) Hreg Hans (incl_refl _)).
  rewrite (collect_fields_total env d2 (keys d2) Hreg Hans2 (incl_refl _)).
  cbn [bind].
  rewrite <- (selected_ext d d2 (keys d2) Hext).
  rewrite (sort_by_ordinal_perm_eq
             (selected env d (keys d)) (selected env d (keys d2))).
  - destruct only_signing;
      now rewrite (write_entries_ext d d2 _ Hext).
  - apply selected_perm, keys_perm, Hpd.
  - intros f g Hf Hg Ho.
    apply selected_In in Hf as ((kf & _ & Hkf) & _).
    apply selected_In in Hg as ((kg & _ & Hkg) & _).
    exact (Hord kf kg f g Hkf Hkg Ho).
Qed.

End CanonicalOrder.

(** C2 at an input on which the code fails it: the two maps hold the same
    two entries, an Account that is an X-address with tag 1 and a null
    SourceTag.  With Account first the null overwrites the tag in the
    decoded map and SourceTag is not serialized; with SourceTag first the
    tag overwrites the null and SourceTag is serialized.  In both the
    fields written are in ascending ordinal order. *)
Lemma insertion_order_changes_bytes :
  let account_first :=
    [("Account", JStr Sample.xaddress_tag_1); ("SourceTag", JNull)] in
  let tag_first :=
    [("SourceTag", JNull); ("Account", JStr Sample.xaddress_tag_1)] in
  Permutation account_first tag_first
  /\ NoDup (keys account_first)
  /\ SerializedDict.from_value Sample.env account_first false
     = Ok (mkSerialized
             [x81; x14; x5e; x7b; x11; x25; x23; xf6; x8d; x2f; x5e; x87;
              x9d; xb4; xea; xc5; x1c; x66; x98; xa6; x93; x04])
  /\ SerializedDict.from_value Sample.env tag_first false
     = Ok (mkSerialized
             [x23; x00; x00; x00; x01;
              x81; x14; x5e; x7b; x11; x25; x23; xf6; x8d; x2f; x5e; x87;
              x9d; xb4; xea; xc5; x1c; x66; x98; xa6; x93; x04])
  /\ SerializedDict.from_value Sample.env account_first false
     <> SerializedDict.from_value Sample.env tag_first false.
Proof.
  cbv zeta. split; [apply perm_swap |].
  split; [repeat constructor; cbn; intuition discriminate |].
  split; [reflexivity |]. split; [reflexivity |].
  discriminate.
Qed.

(** ** The sample collaborators meet the assumptions made above *)

Section SampleFacts.

Import SerializedDict Layout.

Lemma sample_registry_In (k : string) (f : FieldInstance) :
  get_field_instance Sample.env k = Ok (Some f) ->
  In f Sample.registry /\ name f = k.
Proof.
  change (get_field_instance Sample.env k)
    with (Sample.get_field_instance k).
  unfold Sample.get_field_instance.
  destruct (find (fun g => String.eqb (name g) k) Sample.registry)
    as [g |] eqn:Hfind; [| discriminate].
  intros H. injection H as <-. apply find_some in Hfind as [Hin Hname].
  split; [assumption | now apply String.eqb_eq].
Qed.

Lemma sample_registry_keeps_names : registry_keeps_names Sample.env.
Proof. intros k f H. now apply sample_registry_In in H. Qed.

Lemma sample_ordinals_distinct : ordinals_distinct Sample.env.
Proof.
  intros k1 k2 f1 f2 H1 H2.
  apply sample_registry_In in H1 as [H1 _].
  apply sample_registry_In in H2 as [H2 _].
  cbn in H1, H2.
  repeat (destruct H1 as [<- | H1]; [| try contradiction]);
    repeat (destruct H2 as [<- | H2]; [| try contradiction]);
    cbn; intros Ho; (reflexivity || discriminate Ho).
Qed.

Lemma sample_collaborators_raise_foreign :
  collaborators_raise_foreign Sample.env.
Proof.
  unfold collaborators_raise_foreign, Sample.env.
  cbn [xaddress_to_classic_address get_transaction_type_code
       get_transaction_result_code get_ledger_entry_type_code
       get_field_instance].
  repeat split.
  - intros s e. unfold Sample.xaddress_to_classic_address.
    destruct (String.eqb s Sample.xaddress_no_tag); [discriminate |].
    destruct (String.eqb s Sample.xaddress_tag_1); [discriminate |].
    intros H. injection H as <-. discriminate.
  - intros v e. unfold Sample.get_transaction_type_code.
    destruct v; try (intros H; injection H as <-; discriminate).
    destruct (String.eqb s "Payment"); [discriminate |].
    intros H. injection H as <-. discriminate.
  - intros v e H. injection H as <-. discriminate.
  - intros v e H. injection H as <-. discriminate.
  - intros k e. unfold Sample.get_field_instance.
    destruct (find _ Sample.registry); [discriminate |].
    intros H. injection H as <-. discriminate.
Qed.

(** Two insertion orders of a transaction with an X-address and no
    explicit tag: the same bytes, SourceTag before Sequence before
    Account. *)
Example sample_order_independent :
  from_value Sample.env
             [("Account", JStr Sample.xaddress_tag_1); ("Sequence", JInt 5)]
             false
  = from_value Sample.env
               [("Sequence", JInt 5); ("Account", JStr Sample.xaddress_tag_1)]
               false
  /\ from_value Sample.env
                [("Sequence", JInt 5); ("Account", JStr Sample.xaddress_tag_1)]
                false
     = Ok (mkSerialized
             [x23; x00; x00; x00; x01; x24; x00; x00; x00; x05;
              x81; x14; x5e; x7b; x11; x25; x23; xf6; x8d; x2f; x5e; x87;
              x9d; xb4; xea; xc5; x1c; x66; x98; xa6; x93; x04]).
Proof.
  split; [| reflexivity].
  eapply from_value_order_independent.
  - apply sample_registry_keeps_names.
  - apply sample_ordinals_distinct.
  - repeat constructor; cbn; intuition discriminate.
  - intros k x c t n Hin _ _. cbn. split; intros _ H;
      repeat (destruct H as [H | H]; [discriminate H |]); contradiction.
  - apply perm_swap.
  - reflexivity.
  - intros k Hk. cbn in Hk.
    repeat (destruct Hk as [<- | Hk]; [eexists; reflexivity |]).
    contradiction.
Defined.

(** The signature is left out of the signing encoding and is part of
    the full encoding; an inner object is closed by 0xE1 and the outer
    one is not. *)
Example sample_signing_and_nesting :
  from_value Sample.env
             [("TxnSignature", JStr "ABCD"); ("Sequence", JInt 258);
              ("Memo", JDict [("Sequence", JInt 5)]); ("hash", JStr "00")]
             true
  = Ok (mkSerialized [x24; x00; x00; x01; x02;
                      xea; x24; x00; x00; x00; x05; xe1])
  /\ from_value Sample.env
                [("TxnSignature", JStr "ABCD"); ("Sequence", JInt 258);
                 ("Memo", JDict [("Sequence", JInt 5)]); ("hash", JStr "00")]
                false
     = Ok (mkSerialized [x24; x00; x00; x01; x02; x74; x02; xab; xcd;
                         xea; x24; x00; x00; x00; x05; xe1])
  /\ from_value Sample.env
                [("TxnSignature", JStr "ABCD"); ("Sequence", JInt 258)]
                false
     = Ok (mkSerialized [x24; x00; x00; x01; x02; x74; x02; xab; xcd]).
Proof. repeat split. Qed.

(** The untagged X-address under the key SourceTag, and the explicit
    null tag after a tagged X-address. *)
Example sample_tag_corner_cases :
  from_value Sample.env [("SourceTag", JStr Sample.xaddress_no_tag)] false
  = Raise ConflictingSourceTag
  /\ decode_items
       Sample.env
       [("Account", JStr Sample.xaddress_tag_1); ("SourceTag", JNull)]
       [("Account", JStr Sample.xaddress_tag_1); ("SourceTag", JNull)] []
     = Ok [("Account", JStr Sample.classic_address); ("SourceTag", JNull)].
Proof. split; reflexivity. Qed.

End SampleFacts.

(* ================================================================== *)
(** * Further properties of the serializer *)

Section LengthPrefixCode.

Import BinarySerializer.

Lemma encode_prefix_ok_range (L : Z) (p : list byte) :
  _encode_variable_length_prefix L = Ok p -> 0 <= L <= 918744.
Proof.
  intros Hp. split.
  - destruct (Z.lt_ge_cases L 0) as [Hneg | Hge]; [| assumption].
    destruct (to_bytes1_negative L Hneg) as (e & He & _).
    unfold _encode_variable_length_prefix, MAX_SINGLE_BYTE_LENGTH in Hp.
    destruct (Z.leb_spec L 192); [| lia]. congruence.
  - destruct (Z.le_gt_cases L 918744) as [Hle | Hgt]; [assumption |].
    rewrite (prefix_too_long L Hgt) in Hp. discriminate.
Qed.

(** X1: the length prefixes form a prefix code: when two byte streams that
    start with the prefixes of two lengths are the same stream, the
    lengths are the same, and so are the prefixes and what follows
    them.  No prefix is the beginning of another one. *)
Theorem length_prefix_is_prefix_code
        (L1 L2 : Z) (p1 p2 r1 r2 : list byte)
        (H1 : _encode_variable_length_prefix L1 = Ok p1)
        (H2 : _encode_variable_length_prefix L2 = Ok p2)
        (Hstream : p1 ++ r1 = p2 ++ r2) :
  L1 = L2 /\ p1 = p2 /\ r1 = r2.
Proof.
  pose proof (encode_prefix_ok_range L1 p1 H1) as [Hn1 _].
  pose proof (encode_prefix_ok_range L2 p2 H2) as [Hn2 _].
  pose proof (read_length_prefix_encode L1 p1 r1 Hn1 H1) as D1.
  pose proof (read_length_prefix_encode L2 p2 r2 Hn2 H2) as D2.
  rewrite Hstream, D2 in D1. injection D1 as <- <-.
  repeat split. congruence.
Qed.

Lemma length_prefix_is_prefix_code_witness :
  300 = 300 /\ [xc1; x6b] = [xc1; x6b] /\ [xab; xcd] = [xab; xcd].
Proof.
  apply (length_prefix_is_prefix_code
           300 300 [xc1; x6b] [xc1; x6b] [xab; xcd] [xab; xcd]
           eq_refl eq_refl eq_refl).
Defined.

(** X2: a value is too long for a length prefix exactly when it has more
    than 918744 bytes.  [write_length_encoded] then raises and leaves
    the sink as it was; [write_field_and_value] of a length-prefixed
    field then raises after it has written the header, which stays in
    the sink.  In every other case both methods return. *)
Theorem write_too_long_value (f : FieldInstance) (v : SerializedType)
        (s : t) :
  (918744 < byte_length v ->
   write_length_encoded v s = (Raise FieldTooLong, s)
   /\ (is_variable_length_encoded f = true ->
       write_field_and_value f v s
       = (Raise FieldTooLong, mk (bytesink s ++ header f))))
  /\ (byte_length v <= 918744 ->
      fst (write_length_encoded v s) = Ok tt
      /\ fst (write_field_and_value f v s) = Ok tt)
  /\ (is_variable_length_encoded f = false ->
      write_field_and_value f v s
      = (Ok tt, mk (bytesink s ++ header f ++ buffer v))).
Proof.
  pose proof (write_length_encoded_sink v s) as Hw.
  pose proof (write_field_and_value_sink f v s) as Hf.
  split; [| split].
  - intros Hlong. rewrite (prefix_too_long _ Hlong) in Hw, Hf.
    split; [assumption |]. intros Hvl. now rewrite Hvl in Hf.
  - intros Hshort.
    assert (Hok : exists p,
               _encode_variable_length_prefix (byte_length v) = Ok p).
    { pose proof (byte_length_nonneg v) as Hn.
      destruct (Z.le_gt_cases (byte_length v) 192).
      - destruct (prefix_one_byte (byte_length v)) as (b & Hb & _);
          [lia | now exists [b]].
      - destruct (Z.le_gt_cases (byte_length v) 12480).
        + destruct (prefix_two_bytes (byte_length v))
            as (b1 & b2 & Hb & _); [lia | now exists [b1; b2]].
        + destruct (prefix_three_bytes (byte_length v))
            as (b1 & b2 & b3 & Hb & _); [lia | now exists [b1; b2; b3]]. }
    destruct Hok as (p & Hp). rewrite Hp in Hw, Hf. rewrite Hw.
    split; [reflexivity |].
    destruct (is_variable_length_encoded f); now rewrite Hf.
  - intros Hvl. now rewrite Hvl in Hf.
Qed.

Lemma write_too_long_value_witness :
  write_field_and_value
    Sample.TxnSignature (mkSerialized (repeat x00 (Z.to_nat 918745))) (mk [x24])
  = (Raise FieldTooLong, mk [x24; x74]).
Proof.
  apply (write_too_long_value
           Sample.TxnSignature (mkSerialized (repeat x00 (Z.to_nat 918745))) (mk [x24])).
  - vm_compute. reflexivity.
  - reflexivity.
Defined.

End LengthPrefixCode.

(* ================================================================== *)
(** * Further properties of [from_value] *)

Section DecodedMapFacts.

Import SerializedDict Layout Further.

Variable env : Env.

Lemma keys_dict_set {V : Type} (k : string) (v : V) (d : pydict V) :
  keys (dict_set k v d) = if dict_mem k d then keys d else keys d ++ [k].
Proof.
  unfold dict_mem, keys.
  induction d as [| [k' v'] d IH]; cbn; [reflexivity |].
  destruct (String.eqb_spec k k') as [-> | _]; cbn; [reflexivity |].
  rewrite IH. now destruct (dict_get k d).
Qed.

Lemma dict_mem_In {V : Type} (k : string) (d : pydict V) :
  dict_mem k d = true <-> In k (keys d).
Proof.
  unfold dict_mem. split.
  - destruct (dict_get k d) as [v |] eqn:H; [| discriminate].
    intros _. apply dict_get_Some_In in H. now apply In_keys in H.
  - intros H. apply dict_get_In in H as (v & ->). reflexivity.
Qed.

Lemma dict_set_nodup {V : Type} (k : string) (v : V) (d : pydict V) :
  NoDup (keys d) -> NoDup (keys (dict_set k v d)).
Proof.
  intros Hnd. rewrite keys_dict_set.
  destruct (dict_mem k d) eqn:Hm; [assumption |].
  apply NoDup_app; [assumption | repeat constructor; intros [] |].
  intros x Hx [<- | []]. apply dict_mem_In in Hx. congruence.
Qed.

Lemma dict_update_nodup {V : Type} (ws : pydict V) :
  forall d, NoDup (keys d) -> NoDup (keys (dict_update d ws)).
Proof.
  induction ws as [| [k v] ws IH]; intros d Hnd; [assumption |].
  apply (IH (dict_set k v d)). now apply dict_set_nodup.
Qed.

Lemma dict_update_keys {V : Type} (ws : pydict V) :
  forall d key,
    In key (keys (dict_update d ws)) -> In key (keys d) \/ In key (keys ws).
Proof.
  induction ws as [| [k v] ws IH]; intros d key Hin; [now left |].
  apply (IH (dict_set k v d)) in Hin as [Hin | Hin]; [| right; now right].
  rewrite keys_dict_set in Hin.
  destruct (dict_mem k d); [now left |].
  apply in_app_or in Hin as [Hin | [<- | []]]; [now left |].
  right. now left.
Qed.

(** The keys of a decoded map are distinct. *)
Lemma decode_items_nodup (value : pydict json)
      (items : list (string * json)) (acc d : pydict json) :
  decode_items env value items acc = Ok d ->
  NoDup (keys acc) -> NoDup (keys d).
Proof.
  rewrite decode_items_writes. intros H Hnd.
  apply bind_ok in H as (ws & _ & H). injection H as <-.
  now apply dict_update_nodup.
Qed.

Lemma all_writes_keys (value : pydict json)
      (items : list (string * json)) :
  forall ws key,
    all_writes env value items = Ok ws ->
    In key (keys ws) ->
    In key (keys items) \/ key = _SOURCE_TAG \/ key = _DEST_TAG.
Proof.
  induction items as [| [k v] items IH]; intros ws key Hws Hin.
  - injection Hws as <-. contradiction.
  - cbn in Hws. apply bind_ok in Hws as (w & Hw & Hws).
    apply bind_ok in Hws as (wt & Hwt & Hws). injection Hws as <-.
    rewrite keys_app in Hin. apply in_app_or in Hin as [Hin | Hin].
    + destruct (item_writes_keys env value k v w Hw)
        as [Hk | (x & c & t & n & _ & _ & _ & [(-> & Hk) | (-> & Hk)])];
        rewrite Hk in Hin; cbn in Hin;
        intuition (subst; auto; left; now left).
    + destruct (IH wt key Hwt Hin) as [H | H]; [left; now right | now right].
Qed.

(** The keys of a decoded map are keys of the input or tag fields. *)
Lemma decode_items_keys (value d : pydict json) (key : string) :
  decode_items env value value [] = Ok d ->
  In key (keys d) ->
  In key (keys value) \/ key = _SOURCE_TAG \/ key = _DEST_TAG.
Proof.
  rewrite decode_items_writes. intros H Hin.
  apply bind_ok in H as (ws & Hws & H). injection H as <-.
  apply dict_update_keys in Hin as [[] | Hin].
  now apply (all_writes_keys value value ws).
Qed.

Lemma selected_app (d : pydict json) (a b : list string) :
  selected env d (a ++ b) = selected env d a ++ selected env d b.
Proof. unfold selected. apply flat_map_app. Qed.

Lemma selected_registered (d : pydict json) (names : list string)
      (f : FieldInstance) :
  In f (selected env d names) ->
  exists k, In k names /\ get_field_instance env k = Ok (Some f).
Proof. intros H. now apply selected_In in H as [H _]. Qed.

(** Distinct keys give distinct fields. *)
Lemma selected_nodup (d : pydict json) (names : list string) :
  registry_keeps_names env ->
  NoDup names -> NoDup (selected env d names).
Proof.
  intros Hreg. induction 1 as [| k names Hk Hnd IH]; [constructor |].
  change (k :: names) with ([k] ++ names). rewrite selected_app.
  apply NoDup_app; [| assumption |].
  - unfold selected. cbn. rewrite app_nil_r.
    destruct (get_field_instance env k) as [[f |] | e];
      [| constructor | constructor].
    destruct (has_non_null (name f) d && is_serialized f);
      repeat constructor; intros [].
  - intros f Hf Hf'.
    apply selected_registered in Hf as (k1 & [<- | []] & H1).
    apply selected_registered in Hf' as (k2 & Hk2 & H2).
    apply Hreg in H1, H2. congruence.
Qed.

Lemma strictly_sorted (l : list FieldInstance) :
  StronglySorted ordinal_le l ->
  NoDup l ->
  (forall f g, In f l -> In g l -> ordinal f = ordinal g -> f = g) ->
  StronglySorted ordinal_lt l.
Proof.
  induction 1 as [| x l Hs IH Hall]; intros Hnd Hinj; constructor.
  - apply IH; [now inversion Hnd |].
    intros f g Hf Hg. apply Hinj; now right.
  - inversion Hnd as [| ? ? Hx _]; subst.
    rewrite Forall_forall in *. intros y Hy.
    specialize (Hall y Hy). unfold ordinal_le, ordinal_lt in *.
    destruct (Z.eq_dec (ordinal x) (ordinal y)) as [Heq | Hne]; [| lia].
    exfalso. apply Hx.
    now rewrite (Hinj x y (or_introl eq_refl) (or_intror Hy) Heq).
Qed.

End DecodedMapFacts.

Section AscendingFields.

Import SerializedDict Layout Further.

Variable env : Env.

(** X3: the fields that [from_value] writes are in ascending order of
    ordinal, in the full and in the signing encoding.  With a registry
    that keeps names and gives distinct fields distinct ordinals, the
    order is strict: no field is written twice. *)
Theorem from_value_writes_ascending
        (value : pydict json) (only_signing : bool) (r : SerializedType)
        (Hret : from_value env value only_signing = Ok r) :
  exists d fields vs,
    decode_items env value value [] = Ok d
    /\ sorted_keys env d only_signing = Ok fields
    /\ typed_values env d fields = Ok vs
    /\ fields_bytes (combine fields vs) = Ok (buffer r)
    /\ StronglySorted ordinal_le fields
    /\ (registry_keeps_names env -> ordinals_distinct env ->
        StronglySorted ordinal_lt fields /\ NoDup fields).
Proof.
  destruct (from_value_stages env value only_signing r Hret)
    as (d & fields & vs & Hd & Hf & Hvs & _ & Hbs).
  exists d, fields, vs. repeat (split; [assumption |]).
  pose proof (sorted_keys_ascending env d only_signing fields Hf) as Hs.
  split; [assumption |]. intros Hreg Hord.
  assert (Hnd : NoDup fields).
  { rewrite (sorted_keys_selected env d only_signing fields Hf).
    assert (Hsel : NoDup (sort_by_ordinal (selected env d (keys d)))).
    { eapply Permutation_NoDup; [apply sort_by_ordinal_perm |].
      apply selected_nodup; [assumption |].
      apply (decode_items_nodup env value value [] d Hd). constructor. }
    destruct only_signing; [now apply NoDup_filter | assumption]. }
  split; [| assumption].
  apply strictly_sorted; try assumption.
  intros f g Hf' Hg' Ho.
  apply (sorted_keys_In env d only_signing fields f Hf) in Hf'
    as ((kf & _ & Hkf) & _).
  apply (sorted_keys_In env d only_signing fields g Hf) in Hg'
    as ((kg & _ & Hkg) & _).
  exact (Hord kf kg f g Hkf Hkg Ho).
Qed.

End AscendingFields.

Lemma from_value_writes_ascending_witness :
  exists d fields vs,
    SerializedDict.decode_items
      Sample.env
      [("Account", JStr Sample.xaddress_tag_1); ("Sequence", JInt 5)]
      [("Account", JStr Sample.xaddress_tag_1); ("Sequence", JInt 5)] []
    = Ok d
    /\ SerializedDict.sorted_keys Sample.env d false = Ok fields
    /\ Layout.typed_values Sample.env d fields = Ok vs
    /\ StronglySorted Further.ordinal_lt fields.
Proof.
  destruct (from_value_writes_ascending
              Sample.env
              [("Account", JStr Sample.xaddress_tag_1); ("Sequence", JInt 5)]
              false
              (mkSerialized
                 [x23; x00; x00; x00; x01; x24; x00; x00; x00; x05;
                  x81; x14; x5e; x7b; x11; x25; x23; xf6; x8d; x2f; x5e; x87;
                  x9d; xb4; xea; xc5; x1c; x66; x98; xa6; x93; x04])
              eq_refl)
    as (d & fields & vs & H1 & H2 & H3 & _ & _ & H4).
  exists d, fields, vs. repeat (split; [assumption |]).
  apply H4; [apply sample_registry_keeps_names | apply sample_ordinals_distinct].
Defined.

Section IgnoredEntries.

Import SerializedDict Layout Further.

Variable env : Env.

Lemma dict_get_app_other {V : Type} (key k : string) (v : V) (d : pydict V) :
  key <> k -> dict_get key (d ++ [(k, v)]) = dict_get key d.
Proof.
  intros Hne. induction d as [| [k' v'] d IH]; cbn.
  - now destruct (String.eqb_spec key k).
  - now rewrite IH.
Qed.

Lemma dict_get_app_fresh {V : Type} (k : string) (v : V) (d : pydict V) :
  ~ In k (keys d) -> dict_get k (d ++ [(k, v)]) = Some v.
Proof.
  induction d as [| [k' v'] d IH]; cbn; intros Hk.
  - now rewrite String.eqb_refl.
  - destruct (String.eqb_spec k k') as [-> | _]; [tauto |].
    apply IH. tauto.
Qed.

(** An iteration of the first loop looks at the input map only for the
    explicit tag that would collide with the tag of its own entry. *)
Lemma decode_item_ext (value value' : pydict json) (k : string) (v : json)
      (acc : pydict json) :
  (k = _ACCOUNT \/ k = _SOURCE_TAG ->
   has_non_null _SOURCE_TAG value = has_non_null _SOURCE_TAG value') ->
  (k = _DESTINATION \/ k = _DEST_TAG ->
   has_non_null _DEST_TAG value = has_non_null _DEST_TAG value') ->
  decode_item env value k v acc = decode_item env value' k v acc.
Proof.
  intros Hs Hd. unfold decode_item.
  destruct (as_xaddress env v) as [x |]; [| reflexivity].
  destruct (xaddress_to_classic_address env x) as [[[c tag] n] | e] eqn:Hdec;
    [| unfold _handle_xaddress; now rewrite Hdec].
  rewrite (handle_xaddress_decoded env k x c tag n Hdec).
  destruct (String.eqb_spec k _DESTINATION) as [-> | Hnd].
  { cbn [bind]. rewrite <- (Hd (or_introl eq_refl)). now destruct tag. }
  destruct (String.eqb_spec k _ACCOUNT) as [-> | Hna].
  { cbn [bind]. rewrite <- (Hs (or_introl eq_refl)). now destruct tag. }
  destruct tag; [reflexivity |]. cbn [bind].
  unfold has_non_null at 1 3 5 7. cbn [dict_get].
  destruct (String.eqb_spec _SOURCE_TAG k) as [<- | _].
  { cbn. now rewrite <- (Hs (or_intror eq_refl)). }
  destruct (String.eqb_spec _DEST_TAG k) as [<- | _]; [| reflexivity].
  cbn. now rewrite <- (Hd (or_intror eq_refl)).
Qed.

Lemma decode_items_ext (value value' : pydict json)
      (items : list (string * json)) :
  (forall k v, In (k, v) items ->
               (k = _ACCOUNT \/ k = _SOURCE_TAG ->
                has_non_null _SOURCE_TAG value
                = has_non_null _SOURCE_TAG value')
               /\ (k = _DESTINATION \/ k = _DEST_TAG ->
                   has_non_null _DEST_TAG value
                   = has_non_null _DEST_TAG value')) ->
  forall acc,
    decode_items env value items acc = decode_items env value' items acc.
Proof.
  induction items as [| [k v] items IH]; intros Hall acc; cbn;
    [reflexivity |].
  destruct (Hall k v (or_introl eq_refl)) as [Hs Hd].
  rewrite (decode_item_ext value value' k v acc Hs Hd).
  destruct (decode_item env value' k v acc); cbn [bind]; [| reflexivity].
  apply IH. intros k' v' Hin. apply (Hall k' v'). now right.
Qed.

(** What follows the first loop depends on the decoded map alone. *)
Lemma from_value_of_decoded (value value' : pydict json)
      (only_signing : bool) :
  decode_items env value value [] = decode_items env value' value' [] ->
  from_value env value only_signing = from_value env value' only_signing.
Proof. unfold from_value. now intros ->. Qed.

Lemma filter_insert_false (p : FieldInstance -> bool) (x : FieldInstance)
      (l : list FieldInstance) :
  p x = false -> filter p (insert_by_ordinal x l) = filter p l.
Proof.
  intros Hx. induction l as [| y l IH]; cbn; [now rewrite Hx |].
  destruct (ordinal x <=? ordinal y); cbn; [now rewrite Hx |].
  now rewrite IH.
Qed.

Lemma filter_insert_true (p : FieldInstance -> bool) (x : FieldInstance)
      (l : list FieldInstance) :
  p x = true ->
  StronglySorted ordinal_le l ->
  filter p (insert_by_ordinal x l) = insert_by_ordinal x (filter p l).
Proof.
  intros Hx. induction 1 as [| y l Hs IH Hall]; cbn; [now rewrite Hx |].
  destruct (Z.leb_spec (ordinal x) (ordinal y)) as [Hle | Hgt]; cbn.
  - rewrite Hx. destruct (p y); cbn.
    + destruct (Z.leb_spec (ordinal x) (ordinal y)); [reflexivity | lia].
    + destruct (filter p l) as [| z l'] eqn:Hf; [reflexivity |]. cbn.
      assert (Hz : In z l)
        by (apply (proj1 (filter_In p z l)); rewrite Hf; now left).
      rewrite Forall_forall in Hall. specialize (Hall z Hz).
      unfold ordinal_le in Hall.
      destruct (Z.leb_spec (ordinal x) (ordinal z)); [reflexivity | lia].
  - rewrite IH. destruct (p y); cbn; [| reflexivity].
    destruct (Z.leb_spec (ordinal x) (ordinal y)); [lia | reflexivity].
Qed.

Lemma fold_insert_sorted (base l : list FieldInstance) :
  StronglySorted ordinal_le base ->
  StronglySorted ordinal_le (fold_right insert_by_ordinal base l).
Proof.
  intros Hb. induction l as [| x l IH]; cbn; [assumption |].
  apply (Sorted_StronglySorted (ordinal_le_trans)).
  apply insert_by_ordinal_sorted. now apply StronglySorted_Sorted.
Qed.

(** A field that the filter rejects does not change what the filter
    keeps of the sorted list. *)
Lemma filter_sort_app_rejected (p : FieldInstance -> bool)
      (l : list FieldInstance) (f : FieldInstance) :
  p f = false ->
  filter p (sort_by_ordinal (l ++ [f])) = filter p (sort_by_ordinal l).
Proof.
  intros Hf. unfold sort_by_ordinal. rewrite fold_right_app. cbn.
  induction l as [| x l IH]; cbn; [now rewrite Hf |].
  destruct (p x) eqn:Hx.
  - rewrite !filter_insert_true; try assumption.
    + now rewrite IH.
    + apply fold_insert_sorted. constructor.
    + apply fold_insert_sorted. repeat constructor.
  - now rewrite !filter_insert_false.
Qed.

Lemma write_entries_ext_on (d d' : pydict json)
      (fields : list FieldInstance) :
  (forall f, In f fields -> dict_get (name f) d = dict_get (name f) d') ->
  forall s, write_entries env d fields s = write_entries env d' fields s.
Proof.
  induction fields as [| f fields IH]; intros Hext s; cbn; [reflexivity |].
  unfold write_entry, typed_value, dict_getitem.
  rewrite (Hext f (or_introl eq_refl)).
  destruct (dict_get (name f) d'); cbn [bind]; [| reflexivity].
  destruct (associated_from_value env f j); cbn [bind]; [| reflexivity].
  destruct (write_field f a s); cbn [bind]; [| reflexivity].
  apply IH. intros g Hg. apply Hext. now right.
Qed.

Lemma selected_ext_on (d d' : pydict json) (names : list string) :
  (forall k f, In k names -> get_field_instance env k = Ok (Some f) ->
               has_non_null (name f) d = has_non_null (name f) d') ->
  selected env d names = selected env d' names.
Proof.
  intros Hext. unfold selected. induction names as [| k names IH]; cbn;
    [reflexivity |].
  rewrite IH by (intros k' f Hin; apply Hext; now right).
  destruct (get_field_instance env k) as [[f |] | e] eqn:Hf;
    try reflexivity.
  now rewrite (Hext k f (or_introl eq_refl) Hf).
Qed.

End IgnoredEntries.

Section IgnoredEntryTheorem.

Import SerializedDict Layout Further.

Variable env : Env.

(** The second loop over two lists of keys, one after the other: the
    failure is that of the first key that fails. *)
Lemma collect_fields_app (d : pydict json) (a b : list string) :
  collect_fields env d (a ++ b)
  = (la <- collect_fields env d a ;;
     lb <- collect_fields env d b ;;
     Ok (la ++ lb)).
Proof.
  induction a as [| k a IH]; cbn [app collect_fields].
  - cbn [bind]. destruct (collect_fields env d b); reflexivity.
  - destruct (get_field_instance env k) as [[f |] | e]; cbn [bind];
      [| assumption | reflexivity].
    destruct (dict_getitem (name f) d) as [v |]; cbn [bind];
      [| reflexivity].
    rewrite IH.
    destruct (collect_fields env d a) as [la |]; cbn [bind];
      [| reflexivity].
    destruct (collect_fields env d b) as [lb |]; cbn [bind];
      now destruct (is_not_none v && is_serialized f).
Qed.

(** The second loop reads the map under the names of the fields that
    the lookups of its keys give. *)
Lemma collect_fields_ext_on (d d' : pydict json) (names : list string) :
  (forall k f, In k names -> get_field_instance env k = Ok (Some f) ->
               dict_get (name f) d = dict_get (name f) d') ->
  collect_fields env d names = collect_fields env d' names.
Proof.
  induction names as [| k names IH]; intros Hext; cbn; [reflexivity |].
  rewrite IH by (intros k' f Hin; apply Hext; now right).
  destruct (get_field_instance env k) as [[f |] | e] eqn:Hf;
    try reflexivity.
  unfold dict_getitem. now rewrite (Hext k f (or_introl eq_refl) Hf).
Qed.

Lemma decode_item_plain (value : pydict json) (k : string) (v : json)
      (acc : pydict json) :
  as_xaddress env v = None -> not_enum_field k ->
  decode_item env value k v acc = Ok (dict_set k v acc).
Proof.
  intros Hx (H1 & H2 & H3). unfold decode_item.
  now rewrite Hx, (str_to_enum_other env k v H1 H2 H3).
Qed.

(** X5: an entry of a field of the registry that is not serialized
    changes nothing: an entry with a null value, of a field that is
    not serialized or, in the signing encoding, of a field that is not
    a signing field (the signature of a transaction) can be added to a
    map without changing the result of [from_value], be it bytes or a
    failure.  The entry is a new key other than the two tag fields and
    the three enumerated-code fields, and its value is not an
    X-address. *)
Theorem from_value_ignores_unserialized_entry
        (value : pydict json) (only_signing : bool) (k : string) (v : json)
        (Hreg : registry_keeps_names env)
        (Hfresh : ~ In k (keys value))
        (Hst : k <> _SOURCE_TAG) (Hdt : k <> _DEST_TAG)
        (Henum : not_enum_field k)
        (Hx : as_xaddress env v = None)
        (Hns : not_serialized_entry env only_signing k v) :
  from_value env (value ++ [(k, v)]) only_signing
  = from_value env value only_signing.
Proof.
  assert (Hdec : decode_items env (value ++ [(k, v)]) value []
                 = decode_items env value value []).
  { apply decode_items_ext. intros k' v' _. unfold has_non_null.
    split; intros _; rewrite dict_get_app_other; congruence. }
  unfold from_value at 1 2.
  rewrite decode_items_app, Hdec.
  destruct (decode_items env value value []) as [d0 | e] eqn:Hd0;
    cbn [bind]; [| reflexivity].
  cbn [decode_items].
  rewrite (decode_item_plain (value ++ [(k, v)]) k v d0 Hx Henum).
  cbn [bind].
  assert (Hk0 : ~ In k (keys d0)).
  { intros Hin.
    destruct (decode_items_keys env value d0 k Hd0 Hin) as [H | [H | H]];
      tauto. }
  rewrite (dict_set_fresh k v d0 Hk0).
  assert (Hget : forall key, key <> k ->
                   dict_get key (d0 ++ [(k, v)]) = dict_get key d0)
    by (intros key Hne; now apply dict_get_app_other).
  assert (Hsel0 : collect_fields env (d0 ++ [(k, v)]) (keys d0)
                  = collect_fields env d0 (keys d0)).
  { apply collect_fields_ext_on. intros k' f Hin Hf.
    apply Hget. rewrite (Hreg _ _ Hf). intros ->. contradiction. }
  assert (Hfields : sorted_keys env (d0 ++ [(k, v)]) only_signing
                    = sorted_keys env d0 only_signing).
  { unfold sorted_keys.
    rewrite keys_app, collect_fields_app, Hsel0.
    change (keys [(k, v)]) with [k].
    destruct (collect_fields env d0 (keys d0)) as [la |];
      cbn [bind]; [| reflexivity].
    destruct Hns as (f & Hf & Hns).
    cbn [collect_fields]. rewrite Hf, (Hreg _ _ Hf).
    unfold dict_getitem. rewrite (dict_get_app_fresh k v d0 Hk0).
    cbn [bind].
    destruct Hns as [Hnull | [Hser | [-> Hsig]]].
    - rewrite Hnull. cbn. now rewrite app_nil_r.
    - rewrite Hser, andb_false_r. cbn. now rewrite app_nil_r.
    - destruct (is_not_none v && is_serialized f); cbn;
        [| now rewrite app_nil_r].
      now rewrite filter_sort_app_rejected. }
  rewrite Hfields.
  destruct (sorted_keys env d0 only_signing) as [fields | e] eqn:Hsk;
    cbn [bind]; [| reflexivity].
  rewrite (write_entries_ext_on env (d0 ++ [(k, v)]) d0 fields);
    [reflexivity |].
  intros f Hin. apply Hget.
  apply (sorted_keys_In env d0 only_signing fields f Hsk) in Hin
    as ((k' & Hk' & Hf) & _).
  rewrite (Hreg _ _ Hf). intros ->. contradiction.
Qed.

End IgnoredEntryTheorem.

Lemma from_value_ignores_unserialized_entry_witness :
  SerializedDict.from_value
    Sample.env
    ([("Sequence", JInt 258); ("Account", JStr Sample.classic_address)]
       ++ [("TxnSignature", JStr "ABCD")]) true
  = SerializedDict.from_value
      Sample.env
      [("Sequence", JInt 258); ("Account", JStr Sample.classic_address)] true.
Proof.
  apply (from_value_ignores_unserialized_entry Sample.env).
  - apply sample_registry_keeps_names.
  - cbn. intuition discriminate.
  - discriminate.
  - discriminate.
  - repeat split; discriminate.
  - reflexivity.
  - exists Sample.TxnSignature. split; [reflexivity |].
    right. right. split; reflexivity.
Defined.

Section XAddressMeaning.

Import SerializedDict Layout Further.

Variable env : Env.

Lemma dict_get_middle_other {V : Type} (key : string)
      (pre mid mid' post : pydict V) :
  ~ In key (keys mid) -> ~ In key (keys mid') ->
  dict_get key (pre ++ mid ++ post) = dict_get key (pre ++ mid' ++ post).
Proof.
  intros Hm Hm'.
  assert (Hskip : forall m, ~ In key (keys m) ->
                    dict_get key (m ++ post) = dict_get key post).
  { induction m as [| [k' v'] m IH]; cbn; intros Hk; [reflexivity |].
    destruct (String.eqb_spec key k') as [-> | _]; [tauto |].
    apply IH. tauto. }
  induction pre as [| [k' v'] pre IH]; cbn.
  - now rewrite !Hskip.
  - now rewrite IH.
Qed.

Lemma as_xaddress_classic (c : string) :
  is_valid_xaddress env c = false -> as_xaddress env (JStr c) = None.
Proof. intros H. cbn. now rewrite H. Qed.

Lemma has_non_null_absent (key : string) (d : pydict json) :
  ~ In key (keys d) -> has_non_null key d = false.
Proof.
  intros H. unfold has_non_null.
  destruct (dict_get key d) as [v |] eqn:E; [| reflexivity].
  apply dict_get_Some_In, In_keys in E. contradiction.
Qed.

(** X6: an Account that is an X-address with tag [t], in a map without the
    key SourceTag, is serialized as the classic address of the
    X-address followed by the entry SourceTag = [t]; likewise for
    Destination and DestinationTag.  The two maps have the same
    result, bytes or failure, in the full and in the signing
    encoding. *)
Theorem tagged_xaddress_is_classic_address_and_tag
        (pre post : pydict json) (fld tg x c : string) (t : Z) (n : bool)
        (only_signing : bool)
        (Hpair : (fld = _ACCOUNT /\ tg = _SOURCE_TAG)
                 \/ (fld = _DESTINATION /\ tg = _DEST_TAG))
        (Hnd : NoDup (keys (pre ++ (fld, JStr x) :: post)))
        (Habsent : ~ In tg (keys (pre ++ (fld, JStr x) :: post)))
        (Hvalid : is_valid_xaddress env x = true)
        (Hdec : xaddress_to_classic_address env x = Ok (c, Some t, n))
        (Hclassic : is_valid_xaddress env c = false) :
  from_value env (pre ++ (fld, JStr x) :: post) only_signing
  = from_value env (pre ++ (fld, JStr c) :: (tg, JInt t) :: post)
               only_signing.
Proof.
  apply from_value_of_decoded.
  set (v1 := pre ++ (fld, JStr x) :: post) in *.
  set (v2 := pre ++ (fld, JStr c) :: (tg, JInt t) :: post).
  assert (Hother : forall key, key <> fld -> key <> tg ->
                     has_non_null key v1 = has_non_null key v2).
  { intros key H1 H2. unfold has_non_null, v1, v2.
    assert (E : dict_get key (pre ++ [(fld, JStr x)] ++ post)
                = dict_get key
                           (pre ++ [(fld, JStr c); (tg, JInt t)] ++ post))
      by (apply dict_get_middle_other; cbn; intuition congruence).
    cbn [app] in E. now rewrite E. }
  assert (Hkeys : forall k v, In (k, v) pre \/ In (k, v) post ->
                    k <> fld /\ k <> tg).
  { intros k v Hin. split.
    - intros ->. unfold v1 in Hnd. rewrite keys_app in Hnd. cbn in Hnd.
      apply NoDup_remove_2 in Hnd. apply Hnd, in_or_app.
      destruct Hin as [Hin | Hin]; [left | right]; now apply In_keys in Hin.
    - intros ->. apply Habsent. unfold v1. rewrite keys_app. cbn.
      apply in_or_app.
      destruct Hin as [Hin | Hin]; [left | right; right];
        now apply In_keys in Hin. }
  assert (Hitems : forall items acc,
             (forall k v, In (k, v) items ->
                          In (k, v) pre \/ In (k, v) post) ->
             decode_items env v1 items acc = decode_items env v2 items acc).
  { intros items acc Hsub. apply decode_items_ext. intros k v Hin.
    destruct (Hkeys k v (Hsub k v Hin)) as [Hf Ht].
    destruct Hpair as [[-> ->] | [-> ->]]; split; intros [-> | ->];
      try contradiction; apply Hother; discriminate. }
  assert (Hhere : forall acc,
             decode_items env v1 [(fld, JStr x)] acc
             = decode_items env v2 [(fld, JStr c); (tg, JInt t)] acc).
  { intros acc. cbn [decode_items].
    assert (Hfe : not_enum_field fld /\ not_enum_field tg)
      by (destruct Hpair as [[-> ->] | [-> ->]];
          repeat split; discriminate).
    rewrite (decode_item_plain env v2 fld (JStr c) acc
                               (as_xaddress_classic c Hclassic) (proj1 Hfe)).
    cbn [bind].
    rewrite (decode_item_plain env v2 tg (JInt t) _ eq_refl (proj2 Hfe)).
    cbn [bind]. unfold decode_item.
    rewrite (proj2 (as_xaddress_some env (JStr x) x) (conj eq_refl Hvalid)).
    rewrite (handle_xaddress_decoded env fld x c (Some t) n Hdec).
    destruct Hpair as [[-> ->] | [-> ->]]; cbn;
      now rewrite (has_non_null_absent _ v1 Habsent). }
  unfold v1 at 2, v2 at 2.
  change (pre ++ (fld, JStr c) :: (tg, JInt t) :: post)
    with (pre ++ [(fld, JStr c); (tg, JInt t)] ++ post).
  change (pre ++ (fld, JStr x) :: post)
    with (pre ++ [(fld, JStr x)] ++ post).
  rewrite !decode_items_app.
  rewrite (Hitems pre []) by (intros; now left).
  destruct (decode_items env v2 pre []) as [acc1 |]; cbn [bind];
    [| reflexivity].
  rewrite !decode_items_app, Hhere.
  destruct (decode_items env v2 [(fld, JStr c); (tg, JInt t)] acc1)
    as [acc2 |]; cbn [bind]; [| reflexivity].
  apply Hitems. intros; now right.
Qed.

(** X7: an X-address without a tag is serialized as its classic address,
    under any key other than the two tag fields and the three
    enumerated-code fields. *)
Theorem untagged_xaddress_is_classic_address
        (pre post : pydict json) (k x c : string) (n : bool)
        (only_signing : bool)
        (Hst : k <> _SOURCE_TAG) (Hdt : k <> _DEST_TAG)
        (Henum : not_enum_field k)
        (Hvalid : is_valid_xaddress env x = true)
        (Hdec : xaddress_to_classic_address env x = Ok (c, None, n))
        (Hclassic : is_valid_xaddress env c = false) :
  from_value env (pre ++ (k, JStr x) :: post) only_signing
  = from_value env (pre ++ (k, JStr c) :: post) only_signing.
Proof.
  apply from_value_of_decoded.
  set (v1 := pre ++ (k, JStr x) :: post).
  set (v2 := pre ++ (k, JStr c) :: post).
  assert (Hother : forall key, key <> k ->
                     has_non_null key v1 = has_non_null key v2).
  { intros key H1. unfold has_non_null, v1, v2.
    assert (E : dict_get key (pre ++ [(k, JStr x)] ++ post)
                = dict_get key (pre ++ [(k, JStr c)] ++ post))
      by (apply dict_get_middle_other; cbn; intuition congruence).
    cbn [app] in E. now rewrite E. }
  assert (Hitems : forall items acc,
             decode_items env v1 items acc = decode_items env v2 items acc).
  { intros items acc. apply decode_items_ext. intros k' v' _.
    split; intros _; apply Hother; congruence. }
  assert (Hhere : forall acc,
             decode_items env v1 [(k, JStr x)] acc
             = decode_items env v2 [(k, JStr c)] acc).
  { intros acc. cbn [decode_items].
    rewrite (decode_item_plain env v2 k (JStr c) acc
                               (as_xaddress_classic c Hclassic) Henum).
    unfold decode_item.
    rewrite (proj2 (as_xaddress_some env (JStr x) x) (conj eq_refl Hvalid)).
    rewrite (handle_xaddress_decoded env k x c None n Hdec).
    destruct (String.eqb_spec k _DESTINATION) as [-> | _]; [reflexivity |].
    destruct (String.eqb_spec k _ACCOUNT) as [-> | _]; [reflexivity |].
    cbn [bind]. unfold has_non_null at 1 3. cbn [dict_get].
    destruct (String.eqb_spec _SOURCE_TAG k); [congruence |].
    destruct (String.eqb_spec _DEST_TAG k); [congruence |].
    reflexivity. }
  unfold v1 at 2, v2 at 2.
  change (pre ++ (k, JStr x) :: post) with (pre ++ [(k, JStr x)] ++ post).
  change (pre ++ (k, JStr c) :: post) with (pre ++ [(k, JStr c)] ++ post).
  rewrite !decode_items_app, Hitems.
  destruct (decode_items env v2 pre []) as [acc1 |]; cbn [bind];
    [| reflexivity].
  rewrite !decode_items_app, Hhere.
  destruct (decode_items env v2 [(k, JStr c)] acc1) as [acc2 |];
    cbn [bind]; [| reflexivity].
  apply Hitems.
Qed.

End XAddressMeaning.

Lemma tagged_xaddress_is_classic_address_and_tag_witness :
  SerializedDict.from_value
    Sample.env
    ([("Sequence", JInt 5)] ++ [("Destination", JStr Sample.xaddress_tag_1)])
    false
  = SerializedDict.from_value
      Sample.env
      ([("Sequence", JInt 5)]
         ++ [("Destination", JStr Sample.classic_address);
             ("DestinationTag", JInt 1)])
      false.
Proof.
  apply (tagged_xaddress_is_classic_address_and_tag
           Sample.env [("Sequence", JInt 5)] [] "Destination" "DestinationTag"
           Sample.xaddress_tag_1 Sample.classic_address 1 false false).
  - right. split; reflexivity.
  - repeat constructor; cbn; intuition discriminate.
  - cbn. intuition discriminate.
  - reflexivity.
  - reflexivity.
  - reflexivity.
Defined.

Lemma untagged_xaddress_is_classic_address_witness :
  SerializedDict.from_value
    Sample.env
    ([("Sequence", JInt 5)] ++ [("RegularKey", JStr Sample.xaddress_no_tag)])
    false
  = SerializedDict.from_value
      Sample.env
      ([("Sequence", JInt 5)]
         ++ [("RegularKey", JStr Sample.classic_address)])
      false.
Proof.
  apply (untagged_xaddress_is_classic_address
           Sample.env [("Sequence", JInt 5)] [] "RegularKey"
           Sample.xaddress_no_tag Sample.classic_address false false).
  - discriminate.
  - discriminate.
  - repeat split; discriminate.
  - reflexivity.
  - reflexivity.
  - reflexivity.
Defined.

Section LookupFailure.

Import SerializedDict Layout.

Variable env : Env.

(** X26: a key of the decoded map whose lookup in the registry raises
    is not discarded: when the first loop goes through and the lookups
    of the keys before it return, [from_value] raises what the lookup
    of that key raises, in the full and in the signing encoding. *)
Theorem from_value_raises_lookup_failure
        (value d : pydict json) (only_signing : bool)
        (before after : list string) (k : string) (e : exn)
        (Hd : decode_items env value value [] = Ok d)
        (Hkeys : keys d = before ++ k :: after)
        (Hreg : registry_keeps_names env)
        (Hbefore : registry_answers env before)
        (Hk : get_field_instance env k = Raise e) :
  from_value env value only_signing = Raise e.
Proof.
  unfold from_value. rewrite Hd. cbn [bind].
  unfold sorted_keys. rewrite Hkeys, collect_fields_app.
  rewrite (collect_fields_total env d before Hreg Hbefore).
  - cbn [bind collect_fields]. now rewrite Hk.
  - intros x Hx. rewrite Hkeys. apply in_or_app. now left.
Qed.

End LookupFailure.

Lemma from_value_raises_lookup_failure_witness :
  SerializedDict.from_value
    Sample.env
    [("Sequence", JInt 5); ("Foo", JInt 1); ("Bar", JInt 2)] true
  = Raise (mkExn KeyError ["Foo"]).
Proof.
  apply (from_value_raises_lookup_failure
           Sample.env
           [("Sequence", JInt 5); ("Foo", JInt 1); ("Bar", JInt 2)]
           [("Sequence", JInt 5); ("Foo", JInt 1); ("Bar", JInt 2)]
           true ["Sequence"] ["Bar"] "Foo").
  - reflexivity.
  - reflexivity.
  - apply sample_registry_keeps_names.
  - intros k [<- | []]. eexists. reflexivity.
  - reflexivity.
Defined.

(* ================================================================== *)
(** * Further properties of [from_parser] *)

Section ParserNormalizes.

Import SerializedDict Layout Canonical Further.

Variable env : Env.

(** X8: read inside an outer object, [from_parser] stops at the object-end
    marker: it returns the canonical bytes before the marker, consumes
    the marker and leaves what follows it unread. *)
Theorem from_parser_stops_at_marker
        (b trailing : list byte) (fuel : nat)
        (Hcanonical : canonical env b)
        (Hmarker : marker_readable env)
        (Hfuel : (List.length (b ++ _OBJECT_END_MARKER_BYTE ++ trailing)
                  < fuel)%nat) :
  from_parser env fuel (b ++ _OBJECT_END_MARKER_BYTE ++ trailing)
  = Some (Ok (mkSerialized b, trailing)).
Proof.
  unfold from_parser.
  rewrite (from_parser_loop_canonical
             env b Hcanonical fuel BinarySerializer.init
             (_OBJECT_END_MARKER_BYTE ++ trailing) trailing Hfuel);
    [reflexivity |].
  right. now split.
Qed.

Lemma serialized_eta (v : SerializedType) : mkSerialized (buffer v) = v.
Proof. now destruct v. Qed.

(** Whatever the input, the bytes that the loop of [from_parser] adds
    to the sink are canonical. *)
Lemma from_parser_loop_normalizes :
  parser_contract env ->
  forall fuel p s r p',
    from_parser_loop env fuel p s = Some (Ok (r, p')) ->
    exists b,
      canonical env b /\ buffer r = BinarySerializer.bytesink s ++ b.
Proof.
  intros (Hmark & Hfield & Hvalue).
  induction fuel as [| fuel IH]; intros p s r p' H; [discriminate |].
  cbn [from_parser_loop] in H.
  destruct (BinaryParser.is_end p).
  { injection H as <- <-. exists []. split; [constructor |].
    cbn. now rewrite app_nil_r. }
  destruct (read_field env p) as [[f p1] | e] eqn:Hf; [| discriminate].
  destruct (String.eqb_spec (name f) _OBJECT_END_MARKER) as [| Hname].
  { injection H as <- <-. exists []. split; [constructor |].
    cbn. now rewrite app_nil_r. }
  destruct (Hfield p f p1 Hf Hname) as [Hhdr Hobj].
  destruct (read_field_value
              env (fun q => from_parser_loop env fuel q BinarySerializer.init)
              f p1) as [[[v p2] | e] |] eqn:Hv; try discriminate.
  rewrite write_field_bytes in H.
  destruct (field_bytes f v) as [c | e] eqn:Hc; [| discriminate].
  cbn [bind] in H.
  destruct (IH _ _ _ _ H) as (b' & Hb' & Hr). cbn in Hr.
  unfold field_bytes in Hc. apply bind_ok in Hc as (vb & Hvb & Hc).
  injection Hc as <-.
  exists (header f ++ vb ++ end_marker_of f ++ b').
  split; [| rewrite Hr; now rewrite <- !app_assoc].
  unfold read_field_value in Hv. unfold end_marker_of.
  destruct (String.eqb_spec (type f) _SERIALIZED_DICT) as [Htype | Htype].
  - specialize (Hobj Htype). rewrite Hobj in Hv.
    destruct (IH _ _ _ _ Hv) as (inner & Hinner & Hbuf). cbn in Hbuf.
    unfold value_bytes in Hvb. rewrite Hobj in Hvb. injection Hvb as <-.
    rewrite Hbuf. now apply canonical_object.
  - cbn [app]. apply (canonical_primitive env f v); try assumption.
    destruct (is_variable_length_encoded f) eqn:Hvl.
    + destruct (BinaryParser._read_length_prefix p1) as [[n q] | e];
        [| discriminate].
      injection Hv as Hv.
      apply (Hvalue f (Some n) q v p2 Htype); [| assumption].
      split; [discriminate | intros _; exact Hvl].
    + injection Hv as Hv.
      apply (Hvalue f None p1 v p2 Htype); [| assumption].
      split; [intros Ht; congruence | intros Hn; congruence].
Qed.

(** X9: decoding normalizes: whatever bytes [from_parser] has accepted,
    the bytes of its result are canonical, and parsing them again
    gives the same result with nothing left over.  [from_parser] is
    idempotent on what it produces. *)
Theorem from_parser_result_is_canonical
        (fuel fuel' : nat) (p p' : list byte) (r : SerializedType)
        (Hcontract : parser_contract env)
        (Hparse : from_parser env fuel p = Some (Ok (r, p')))
        (Hfuel : (List.length (buffer r) < fuel')%nat) :
  canonical env (buffer r)
  /\ from_parser env fuel' (buffer r) = Some (Ok (r, [])).
Proof.
  destruct (from_parser_loop_normalizes Hcontract fuel p _ r p' Hparse)
    as (b & Hb & Hr).
  cbn in Hr. subst b. split; [assumption |].
  unfold from_parser.
  rewrite <- (app_nil_r (buffer r)) at 1.
  rewrite (from_parser_loop_canonical
             env (buffer r) Hb fuel' BinarySerializer.init [] []);
    [| now rewrite app_nil_r | now left].
  cbn. now rewrite serialized_eta.
Qed.

End ParserNormalizes.

Section SampleParser.

Import SerializedDict Layout Canonical Further.

Lemma firstn_skipn_app_exact (l rest : list byte) :
  firstn (List.length l) (l ++ rest) = l
  /\ skipn (List.length l) (l ++ rest) = rest.
Proof.
  induction l as [| x l [IH1 IH2]]; cbn; [now split |].
  now rewrite IH1, IH2.
Qed.

Lemma sample_split_at_exact (l rest : list byte) :
  Sample.split_at (List.length l) (l ++ rest) = Ok (mkSerialized l, rest).
Proof.
  unfold Sample.split_at.
  destruct (firstn_skipn_app_exact l rest) as [-> ->].
  rewrite length_app.
  destruct (Nat.leb_spec (List.length l)
                         (List.length l + List.length rest)); [| lia].
  reflexivity.
Qed.

Lemma sample_split_at_length (n : nat) (p p' : list byte)
      (v : SerializedType) :
  Sample.split_at n p = Ok (v, p') -> List.length (buffer v) = n.
Proof.
  unfold Sample.split_at.
  destruct (Nat.leb_spec n (List.length p)) as [Hle | _]; [| discriminate].
  intros Hv. injection Hv as <- _. cbn. now apply firstn_length_le.
Qed.

Lemma sample_parser_contract : parser_contract Sample.env.
Proof.
  split; [apply sample_marker_readable |]. split.
  - intros p f p' Hf Hname.
    change (read_field Sample.env p) with (Sample.read_field p) in Hf.
    unfold Sample.read_field in Hf.
    destruct p as [| b p]; [discriminate |].
    destruct (find _ Sample.registry) as [g |] eqn:Hfind; [| discriminate].
    injection Hf as -> ->.
    apply find_some in Hfind as [Hin Hhead].
    cbn in Hin.
    repeat (destruct Hin as [<- | Hin]; [| try contradiction]);
      cbn [header Sample.Account Sample.Destination Sample.RegularKey
           Sample.SourceTag Sample.Sequence Sample.DestinationTag
           Sample.TxnSignature Sample.Memo Sample.ObjectEndMarker
           Sample.hash] in Hhead;
      try discriminate;
      try (exfalso; apply Hname; reflexivity);
      apply Byte.byte_dec_bl in Hhead; subst b;
      (split; [split; [discriminate | intros rest; reflexivity]
              | try discriminate; reflexivity]).
  - intros f hint p v p' Htype Hhint Hv rest.
    change (associated_from_parser Sample.env)
      with Sample.associated_from_parser in *.
    unfold length_hint, Sample.associated_from_parser in *.
    destruct hint as [n |].
    + rewrite (proj2 Hhint) by discriminate.
      unfold byte_length, len. rewrite Nat2Z.id.
      rewrite sample_split_at_exact. now rewrite serialized_eta.
    + destruct (is_variable_length_encoded f);
        [destruct Hhint as [Hhint _]; now specialize (Hhint eq_refl) |].
      destruct (String.eqb (type f) "UInt32"); [| discriminate].
      apply sample_split_at_length in Hv. rewrite <- Hv.
      rewrite sample_split_at_exact. now rewrite serialized_eta.
Qed.

End SampleParser.

Lemma from_parser_stops_at_marker_witness :
  SerializedDict.from_parser
    Sample.env 12
    ([x24; x00; x00; x00; x05]
       ++ SerializedDict._OBJECT_END_MARKER_BYTE ++ [x24; x00; x00; x00; x07])
  = Some (Ok (mkSerialized [x24; x00; x00; x00; x05],
              [x24; x00; x00; x00; x07])).
Proof.
  apply (from_parser_stops_at_marker Sample.env).
  - apply sample_sequence_canonical. constructor.
  - apply sample_marker_readable.
  - cbn. lia.
Defined.

(** The inner object of the input lacks its closing marker; the result
    has it, and parsing the result again changes nothing. *)
Lemma from_parser_result_is_canonical_witness :
  SerializedDict.from_parser Sample.env 8
                             [xea; x24; x00; x00; x00; x05; xe1]
  = Some (Ok (mkSerialized [xea; x24; x00; x00; x00; x05; xe1], [])).
Proof.
  apply (from_parser_result_is_canonical
           Sample.env 7 8 [xea; x24; x00; x00; x00; x05] []
           (mkSerialized [xea; x24; x00; x00; x00; x05; xe1])
           sample_parser_contract eq_refl).
  cbn. lia.
Defined.

(* ================================================================== *)
(** * Account identifiers, enumerated codes and issued currencies *)

Section HexAccountIdentifiers.

Import AccountID.

Lemma upper_hex_digit_code (c : ascii) :
  is_upper_hex_digit c = true ->
  exists v,
    hex_digit_value c = Some v
    /\ N_of_ascii c = Z.to_N (if v <? 10 then v + 48 else v + 55).
Proof.
  destruct c as [b0 b1 b2 b3 b4 b5 b6 b7].
  destruct b0, b1, b2, b3, b4, b5, b6, b7; cbv;
    try discriminate; intros _; eexists; split; reflexivity.
Qed.

Lemma upper_hex_digit_inj (c1 c2 : ascii) :
  is_upper_hex_digit c1 = true -> is_upper_hex_digit c2 = true ->
  hex_digit_value c1 = hex_digit_value c2 -> c1 = c2.
Proof.
  intros H1 H2 Heq.
  destruct (upper_hex_digit_code c1 H1) as (v1 & E1 & N1).
  destruct (upper_hex_digit_code c2 H2) as (v2 & E2 & N2).
  assert (v1 = v2) by congruence. subst v2.
  rewrite <- (ascii_N_embedding c1), <- (ascii_N_embedding c2).
  now rewrite N1, N2.
Qed.

Lemma to_bytes1_inj (a a' : Z) (p : list byte) :
  0 <= a <= 255 -> 0 <= a' <= 255 ->
  to_bytes1 a = Ok p -> to_bytes1 a' = Ok p -> a = a'.
Proof.
  intros Ha Ha' H H'.
  destruct (to_bytes1_ok a Ha) as (b & Hb & Vb).
  destruct (to_bytes1_ok a' Ha') as (b' & Hb' & Vb').
  rewrite Hb in H. rewrite Hb' in H'. congruence.
Qed.

Lemma fromhex_chars_inj (cs : list ascii) :
  forall cs' b,
    forallb is_upper_hex_digit cs = true ->
    forallb is_upper_hex_digit cs' = true ->
    List.length cs = List.length cs' ->
    fromhex_chars cs = Ok b -> fromhex_chars cs' = Ok b -> cs = cs'.
Proof.
  induction cs as [cs IH] using (well_founded_induction
                                   (Wf_nat.well_founded_ltof _ (@List.length ascii))).
  intros cs' b Hu Hu' Hlen H H'.
  destruct cs as [| c1 [| c2 cs]]; destruct cs' as [| d1 [| d2 cs']];
    try discriminate; try reflexivity.
  cbn [forallb] in Hu, Hu'.
  apply andb_prop in Hu as [U1 Hu]. apply andb_prop in Hu as [U2 Hu].
  apply andb_prop in Hu' as [V1 Hu']. apply andb_prop in Hu' as [V2 Hu'].
  destruct (upper_hex_digit_value c1 U1) as (h1 & E1 & R1).
  destruct (upper_hex_digit_value c2 U2) as (l1 & E2 & R2).
  destruct (upper_hex_digit_value d1 V1) as (h2 & F1 & S1).
  destruct (upper_hex_digit_value d2 V2) as (l2 & F2 & S2).
  cbn [fromhex_chars] in H, H'. rewrite E1, E2 in H. rewrite F1, F2 in H'.
  apply bind_ok in H as (x & Hx & H). apply bind_ok in H as (r & Hr & H).
  apply bind_ok in H' as (x' & Hx' & H').
  apply bind_ok in H' as (r' & Hr' & H').
  injection H as <-. 
  destruct (to_bytes1_singleton _ _ Hx) as (bx & ->).
  destruct (to_bytes1_singleton _ _ Hx') as (bx' & ->).
  injection H' as -> ->.
  assert (Hv : 16 * h1 + l1 = 16 * h2 + l2)
    by (apply (to_bytes1_inj _ _ [bx]); (lia || assumption)).
  assert (h1 = h2 /\ l1 = l2) as [-> ->] by lia.
  rewrite (upper_hex_digit_inj c1 d1 U1 V1) by congruence.
  rewrite (upper_hex_digit_inj c2 d2 U2 V2) by congruence.
  do 2 f_equal.
  apply (IH cs) with (b := r); try assumption.
  - unfold ltof. cbn. lia.
  - cbn in Hlen. lia.
Qed.

Lemma list_ascii_of_string_inj (s s' : string) :
  list_ascii_of_string s = list_ascii_of_string s' -> s = s'.
Proof.
  intros H. rewrite <- (string_of_list_ascii_of_string s),
              <- (string_of_list_ascii_of_string s'). now rewrite H.
Qed.

(** X10: two different strings of forty hexadecimal characters never give
    the same account identifier. *)
Theorem account_id_of_hex_is_injective
        (decode_classic_address : string -> result (list byte))
        (s1 s2 : string)
        (H1 : _HEX_REGEX_fullmatch s1 = true)
        (H2 : _HEX_REGEX_fullmatch s2 = true)
        (Hsame : from_value decode_classic_address (JStr s1)
                 = from_value decode_classic_address (JStr s2)) :
  s1 = s2.
Proof.
  destruct (fullmatch_fromhex s1 H1) as (b1 & Hb1 & _).
  destruct (fullmatch_fromhex s2 H2) as (b2 & Hb2 & _).
  unfold from_value in Hsame.
  assert (Hne : forall s, _HEX_REGEX_fullmatch s = true ->
                          String.eqb s "" = false).
  { intros s Hs. destruct (String.eqb_spec s ""); [| reflexivity].
    subst s. discriminate Hs. }
  rewrite (Hne s1 H1), (Hne s2 H2), H1, H2, Hb1, Hb2 in Hsame.
  cbn in Hsame. injection Hsame as <-.
  unfold _HEX_REGEX_fullmatch in H1, H2.
  apply andb_prop in H1 as [L1 U1]. apply andb_prop in H2 as [L2 U2].
  apply Nat.eqb_eq in L1, L2.
  apply list_ascii_of_string_inj.
  apply (fromhex_chars_inj _ _ b1); try assumption.
  now rewrite !length_list_ascii_of_string, L1, L2.
Qed.

Lemma account_id_of_hex_is_injective_witness :
  Sample.account_id_hex = Sample.account_id_hex.
Proof.
  apply (account_id_of_hex_is_injective
           Sample.decode_classic_address
           Sample.account_id_hex Sample.account_id_hex
           eq_refl eq_refl eq_refl).
Defined.

End HexAccountIdentifiers.

Section EnumeratedCodes.

Import SerializedDict.

(** X11: [_enum_to_str] is the reverse of [_str_to_enum]: when the registry
    gives back the name of every code it has given for a name, a value
    that was translated for a field is translated back to itself for
    that field, whatever the field. *)
Theorem enum_to_str_reverses_str_to_enum
        (env : Env) (names : EnumNames) (field : string) (v c : json)
        (Htype : forall v c, get_transaction_type_code env v = Ok c ->
                             get_transaction_type_name names c = Ok v)
        (Hresult : forall v c, get_transaction_result_code env v = Ok c ->
                               get_transaction_result_name names c = Ok v)
        (Hentry : forall v c, get_ledger_entry_type_code env v = Ok c ->
                              get_ledger_entry_type_name names c = Ok v)
        (Hcode : _str_to_enum env field v = Ok c) :
  _enum_to_str names field c = Ok v.
Proof.
  unfold _str_to_enum in Hcode. unfold _enum_to_str.
  destruct (String.eqb field "TransactionType"); [now apply Htype |].
  destruct (String.eqb field "TransactionResult"); [now apply Hresult |].
  destruct (String.eqb field "LedgerEntryType"); [now apply Hentry |].
  now injection Hcode as ->.
Qed.

End EnumeratedCodes.

Lemma enum_to_str_reverses_str_to_enum_witness :
  _enum_to_str sample_names "TransactionType" (JInt 0) = Ok (JStr "Payment").
Proof.
  apply (enum_to_str_reverses_str_to_enum
           Sample.env sample_names "TransactionType" (JStr "Payment") (JInt 0)).
  - intros v c. cbn. unfold Sample.get_transaction_type_code.
    destruct v; try discriminate.
    destruct (String.eqb_spec s "Payment") as [-> | _]; [| discriminate].
    intros H. injection H as <-. reflexivity.
  - intros v c H. discriminate H.
  - intros v c H. discriminate H.
  - reflexivity.
Defined.

Section IssuedCurrencies.

Import IssuedCurrency.

(** X12: [from_dict] and [to_json] are inverse to each other on the three
    keys: the dictionary of an issued currency builds that issued
    currency again, and a dictionary builds an issued currency exactly
    when it has a string under currency, an integer under value and a
    string under issuer, which are then what [to_json] gives back;
    any other key of the dictionary is dropped. *)
Theorem issued_currency_round_trip :
  (forall c, from_dict (to_json c) = Built c)
  /\ (forall d c,
         from_dict d = Built c <->
         dict_get "currency" d = Some (JStr (currency c))
         /\ dict_get "value" d = Some (json_of_int (value c))
         /\ dict_get "issuer" d = Some (JStr (issuer c)))
  /\ (forall c,
         to_json c = [("currency", JStr (currency c));
                      ("value", json_of_int (value c));
                      ("issuer", JStr (issuer c))]).
Proof.
  split; [| split].
  - intros [c [n | b] i]; reflexivity.
  - intros d [c v i]. unfold from_dict. cbn [currency value issuer]. split.
    + destruct (dict_get "currency" d) as [[] |]; try discriminate.
      destruct (dict_get "value" d) as [[] |]; try discriminate;
        destruct (dict_get "issuer" d) as [[] |]; try discriminate;
        intros H; injection H as <- <- <-; now repeat split.
    + intros (-> & -> & ->). now destruct v.
  - intros c. reflexivity.
Qed.

Lemma issued_currency_round_trip_witness :
  from_dict [("issuer", JStr Sample.classic_address); ("memo", JNull);
             ("currency", JStr "USD"); ("value", JInt 7)]
  = Built (mk "USD" (IntValue 7) Sample.classic_address).
Proof.
  apply issued_currency_round_trip. repeat split.
Defined.

End IssuedCurrencies.

(* ================================================================== *)
(** * The keys of a transaction for the codec *)

Section KeyToTxJson.

Import TxJson.

Example key_to_tx_json_examples :
  map _key_to_tx_json
      ["transaction_type"; "account_txn_id"; "check_id"; "id";
       "identifier"; "signing_pub_key"; "i_d"; ""; "a__b"; "TakerGets"]
  = ["TransactionType"; "AccountTxnID"; "CheckID"; "ID";
     "IDentifier"; "SigningPubKey"; "ID"; ""; "AB"; "Takergets"].
Proof. reflexivity. Qed.

Lemma lower_is_not_I (c : ascii) : Ascii.eqb (lower c) "I" = false.
Proof. by_cases_on_ascii c. Qed.

Lemma upper_is_not_d (c : ascii) : Ascii.eqb (upper c) "d" = false.
Proof. by_cases_on_ascii c. Qed.

Lemma upper_underscore (c : ascii) :
  Ascii.eqb "_" (upper c) = Ascii.eqb "_" c.
Proof. by_cases_on_ascii c. Qed.

Lemma lower_underscore (c : ascii) :
  Ascii.eqb "_" (lower c) = Ascii.eqb "_" c.
Proof. by_cases_on_ascii c. Qed.

Lemma upper_I_is_no_underscore (c : ascii) :
  Ascii.eqb (upper c) "I" = true -> Ascii.eqb "_" c = false.
Proof. by_cases_on_ascii c. Qed.

Lemma lower_d_is_no_underscore (c : ascii) :
  Ascii.eqb (lower c) "d" = true -> Ascii.eqb "_" c = false.
Proof. by_cases_on_ascii c. Qed.

Lemma sub_Id_cons_other (c : ascii) (s : string) :
  Ascii.eqb c "I" = false -> sub_Id (String c s) = String c (sub_Id s).
Proof. intros H. cbn. rewrite H. now destruct s. Qed.

Lemma sub_Id_cons_no_d (c : ascii) (s : string) :
  no_leading_d s -> sub_Id (String c s) = String c (sub_Id s).
Proof.
  intros H. destruct s as [| c2 r]; [reflexivity |].
  cbn in H. cbn [sub_Id]. now rewrite H, andb_false_r.
Qed.

Lemma sub_Id_lower (r s : string) :
  sub_Id (lower_str r ++ s) = (lower_str r ++ sub_Id s)%string.
Proof.
  induction r as [| c r IH]; [reflexivity |].
  cbn [lower_str String.append].
  rewrite sub_Id_cons_other by apply lower_is_not_I. now rewrite IH.
Qed.

(** The substitution and the capitalization, one word at a time. *)
Lemma sub_Id_capitalized_word (w s : string) :
  no_leading_d s ->
  sub_Id (capitalize w ++ s) = (tx_word w ++ sub_Id s)%string.
Proof.
  intros Hs. destruct w as [| c1 [| c2 r]].
  - reflexivity.
  - cbn [capitalize tx_word lower_str String.append].
    now apply sub_Id_cons_no_d.
  - cbn [capitalize tx_word lower_str String.append].
    destruct (Ascii.eqb (upper c1) "I" && Ascii.eqb (lower c2) "d") eqn:E.
    + cbn [sub_Id String.append]. rewrite E. now rewrite sub_Id_lower.
    + change (String (lower c2) (lower_str r ++ s))
        with (lower_str (String c2 r) ++ s)%string.
      cbn [sub_Id]. cbn [lower_str String.append]. rewrite E.
      change (String (lower c2) (lower_str r ++ s))
        with (lower_str (String c2 r) ++ s)%string.
      now rewrite sub_Id_lower.
Qed.

Lemma capitalized_words_no_leading_d (ws : list string) :
  no_leading_d (join (map capitalize ws)).
Proof.
  induction ws as [| [| c r] ws IH]; cbn; try assumption; [exact I |].
  apply upper_is_not_d.
Qed.

Lemma join_cons (w : string) (ws : list string) :
  join (w :: ws) = (w ++ join ws)%string.
Proof. reflexivity. Qed.

Lemma sub_Id_capitalized_words (ws : list string) :
  sub_Id (join (map capitalize ws)) = join (map tx_word ws).
Proof.
  induction ws as [| w ws IH]; [reflexivity |].
  cbn [map]. rewrite !join_cons.
  rewrite sub_Id_capitalized_word by apply capitalized_words_no_leading_d.
  now rewrite IH.
Qed.

(** X13: the replacement of "Id" by "ID" over the whole key is a rule on
    the words of the key: a word that begins with "id", in upper or
    lower case, begins with "ID" in the result, and nothing else of the
    capitalized words is changed.  The replacement never spans two
    words. *)
Theorem key_to_tx_json_word_by_word (key : string)
        (Hascii : ascii_only key) :
  _key_to_tx_json key = join (map tx_word (split_underscore key)).
Proof. unfold _key_to_tx_json. apply sub_Id_capitalized_words. Qed.

Lemma key_to_tx_json_word_by_word_witness :
  _key_to_tx_json "account_txn_id" = "AccountTxnID".
Proof.
  rewrite (key_to_tx_json_word_by_word "account_txn_id").
  - reflexivity.
  - repeat constructor.
Defined.

Lemma count_char_app (c : ascii) (a b : string) :
  count_char c (a ++ b) = (count_char c a + count_char c b)%nat.
Proof. induction a as [| x a IH]; cbn; [reflexivity |]. rewrite IH. lia. Qed.

Lemma lower_str_length (s : string) :
  String.length (lower_str s) = String.length s.
Proof. induction s; cbn; congruence. Qed.

Lemma lower_str_underscores (s : string) :
  count_char "_" (lower_str s) = count_char "_" s.
Proof.
  induction s as [| c s IH]; cbn [lower_str count_char]; [reflexivity |].
  now rewrite lower_underscore, IH.
Qed.

Lemma tx_word_length (w : string) :
  String.length (tx_word w) = String.length w.
Proof.
  destruct w as [| c1 [| c2 r]];
    cbn [tx_word capitalize lower_str String.length]; try reflexivity.
  destruct (Ascii.eqb (upper c1) "I" && Ascii.eqb (lower c2) "d");
    cbn [String.append String.length]; now rewrite lower_str_length.
Qed.

Lemma tx_word_underscores (w : string) :
  count_char "_" (tx_word w) = count_char "_" w.
Proof.
  destruct w as [| c1 [| c2 r]]; cbn [tx_word capitalize lower_str].
  - reflexivity.
  - cbn [count_char]. now rewrite upper_underscore.
  - destruct (Ascii.eqb (upper c1) "I" && Ascii.eqb (lower c2) "d") eqn:E.
    + apply andb_prop in E as [E1 E2].
      cbn [String.append count_char].
      rewrite (upper_I_is_no_underscore c1 E1),
        (lower_d_is_no_underscore c2 E2).
      change (Ascii.eqb "_" "I") with false.
      change (Ascii.eqb "_" "D") with false.
      now rewrite lower_str_underscores.
    + cbn [count_char].
      now rewrite upper_underscore, lower_underscore,
        lower_str_underscores.
Qed.

Lemma split_underscore_nonempty (s : string) : split_underscore s <> [].
Proof.
  induction s as [| c s IH]; cbn; [discriminate |].
  destruct (Ascii.eqb c "_"); [discriminate |].
  now destruct (split_underscore s).
Qed.

(** The words of a key: none has an underscore, and together they are
    the key without its underscores. *)
Lemma split_underscore_words (s : string) :
  Forall (fun w => count_char "_" w = O) (split_underscore s)
  /\ (String.length (join (split_underscore s)) + count_char "_" s
      = String.length s)%nat
  /\ List.length (split_underscore s) = S (count_char "_" s).
Proof.
  induction s as [| c s (IH1 & IH2 & IH3)].
  - repeat split. repeat constructor.
  - cbn [split_underscore count_char String.length].
    rewrite (Ascii.eqb_sym "_" c).
    destruct (Ascii.eqb c "_") eqn:E.
    + repeat split.
      * now constructor.
      * rewrite join_cons. cbn [String.append]. lia.
      * cbn [List.length]. lia.
    + pose proof (split_underscore_nonempty s) as Hne.
      destruct (split_underscore s) as [| w ws]; [contradiction |].
      inversion IH1 as [| ? ? Hw Hws]; subst.
      repeat split.
      * constructor; [| assumption].
        cbn [count_char]. now rewrite (Ascii.eqb_sym "_" c), E, Hw.
      * rewrite join_cons in *. cbn [String.append String.length]. lia.
      * cbn [List.length] in *. lia.
Qed.

Lemma join_tx_words (ws : list string) :
  Forall (fun w => count_char "_" w = O) ws ->
  count_char "_" (join (map tx_word ws)) = O
  /\ String.length (join (map tx_word ws)) = String.length (join ws).
Proof.
  induction 1 as [| w ws Hw _ [IH1 IH2]]; [now split |].
  cbn [map]. rewrite !join_cons, count_char_app, !string_length_append.
  rewrite tx_word_underscores, tx_word_length, Hw, IH1, IH2. now split.
Qed.

(** X14: the result has no underscore, and it has as many characters as the
    key has without its underscores: the key loses its underscores and
    nothing else, and gains nothing. *)
Theorem key_to_tx_json_drops_underscores (key : string)
        (Hascii : ascii_only key) :
  count_char "_" (_key_to_tx_json key) = O
  /\ (String.length (_key_to_tx_json key) + count_char "_" key
      = String.length key)%nat.
Proof.
  unfold _key_to_tx_json. rewrite sub_Id_capitalized_words.
  destruct (split_underscore_words key) as (Hw & Hlen & _).
  destruct (join_tx_words _ Hw) as [H1 H2].
  split; [assumption | now rewrite H2].
Qed.

Lemma key_to_tx_json_drops_underscores_witness :
  count_char "_" (_key_to_tx_json "signing_pub_key") = O
  /\ (String.length (_key_to_tx_json "signing_pub_key")
      + count_char "_" "signing_pub_key"
      = String.length "signing_pub_key")%nat.
Proof.
  apply (key_to_tx_json_drops_underscores "signing_pub_key").
  repeat constructor.
Defined.

End KeyToTxJson.

Section CodecForm.

Import TxJson.

Variable is_model : json -> bool.

Example codec_form_example :
  transaction_json_to_binary_codec_form sample_is_dict_of_model
    [("account", JStr "r9cZA1mLK5R5Am25ArfXFmqgNwjZgnfk59");
     ("transaction_type", JStr "Payment");
     ("amount", JDict [("currency", JStr "USD"); ("value", JStr "1");
                       ("issuer", JStr "r9cZA1mLK5R5Am25ArfXFmqgNwjZgnfk59")]);
     ("signer_entries",
      JList [JDict [("signer_entry",
                     JDict [("account", JStr "x"); ("signer_weight", JInt 1)])]])]
  = Returned
    [("Account", JStr "r9cZA1mLK5R5Am25ArfXFmqgNwjZgnfk59");
     ("TransactionType", JStr "Payment");
     ("Amount", JDict [("currency", JStr "USD"); ("value", JStr "1");
                       ("issuer", JStr "r9cZA1mLK5R5Am25ArfXFmqgNwjZgnfk59")]);
     ("SignerEntries",
      JList [JDict [("SignerEntry",
                     JDict [("Account", JStr "x"); ("SignerWeight", JInt 1)])]])].
Proof. reflexivity. Qed.

Lemma traverse_returned {A B : Type} (f : A -> outcome B) (l : list A) :
  forall l', traverse f l = Returned l' ->
             Forall2 (fun x y => f x = Returned y) l l'.
Proof.
  induction l as [| x l IH]; cbn; intros l' H.
  - injection H as <-. constructor.
  - destruct (f x) as [y |] eqn:Ex; [| discriminate].
    destruct (traverse f l) as [ys |]; [| discriminate].
    injection H as <-. constructor; [assumption | now apply IH].
Qed.

(** The items of the comprehension: the converted keys, in the order of
    the dictionary, each with its converted value. *)
Lemma codec_form_items (rename : string -> string)
      (d items : list (string * json)) :
  traverse (fun kv : string * json =>
              match _value_to_tx_json is_model (snd kv) with
              | Returned v => Returned (rename (fst kv), v)
              | NoItems c => NoItems c
              end) d = Returned items ->
  Forall2 (fun kv kv' =>
             fst kv' = rename (fst kv)
             /\ _value_to_tx_json is_model (snd kv) = Returned (snd kv'))
          d items.
Proof.
  intros H. apply traverse_returned in H.
  induction H as [| [k v] [k' v'] d items Hx _ IH]; constructor;
    [| assumption].
  cbn in Hx |- *.
  destruct (_value_to_tx_json is_model v) as [w |]; [| discriminate].
  injection Hx as <- <-. now split.
Qed.

Lemma codec_form_item_keys (rename : string -> string)
      (d items : list (string * json)) :
  Forall2 (fun kv kv' =>
             fst kv' = rename (fst kv)
             /\ _value_to_tx_json is_model (snd kv) = Returned (snd kv'))
          d items ->
  keys items = map rename (keys d).
Proof.
  induction 1 as [| kv kv' d items [Hk _] _ IH]; [reflexivity |].
  unfold keys in *. cbn [map]. now rewrite Hk, IH.
Qed.

Lemma dict_update_has_keys {V : Type} (ws : pydict V) :
  forall d key,
    In key (keys d) \/ In key (keys ws) -> In key (keys (dict_update d ws)).
Proof.
  induction ws as [| [k v] ws IH]; intros d key Hin.
  - destruct Hin as [Hin | []]. exact Hin.
  - apply (IH (dict_set k v d)).
    destruct Hin as [Hin | [<- | Hin]]; [left | left | now right];
      rewrite keys_dict_set; destruct (dict_mem _ d) eqn:Hm;
      try assumption.
    + apply in_or_app. now left.
    + now apply dict_mem_In.
    + apply in_or_app. right. now left.
Qed.

Lemma dict_set_length {V : Type} (k : string) (v : V) (d : pydict V) :
  (List.length (dict_set k v d) <= S (List.length d))%nat.
Proof.
  induction d as [| [k' v'] d IH]; cbn; [lia |].
  destruct (String.eqb k k'); cbn; lia.
Qed.

Lemma dict_update_length {V : Type} (ws : pydict V) :
  forall d,
    (List.length (dict_update d ws) <= List.length d + List.length ws)%nat.
Proof.
  induction ws as [| [k v] ws IH]; intros d; cbn; [lia |].
  specialize (IH (dict_set k v d)).
  pose proof (dict_set_length k v d).
  unfold dict_update in IH. cbn in IH. lia.
Qed.

Lemma dict_get_update_other {V : Type} (k : string) (ws : pydict V) :
  forall d, ~ In k (keys ws) ->
            dict_get k (dict_update d ws) = dict_get k d.
Proof.
  induction ws as [| [k' v'] ws IH]; intros d Hk; [reflexivity |].
  change (dict_update d ((k', v') :: ws))
    with (dict_update (dict_set k' v' d) ws).
  rewrite IH by (intros Hin; apply Hk; now right).
  apply dict_get_set_neq. intros ->. apply Hk. now left.
Qed.

(** Of the items of one key, the last one gives the value. *)
Lemma dict_get_update_last {V : Type} (k : string) (v : V)
      (pre post d : pydict V) :
  ~ In k (keys post) ->
  dict_get k (dict_update d (pre ++ (k, v) :: post)) = Some v.
Proof.
  intros Hk. rewrite dict_update_app.
  change (dict_update (dict_update d pre) ((k, v) :: post))
    with (dict_update (dict_set k v (dict_update d pre)) post).
  rewrite dict_get_update_other by assumption.
  apply dict_get_set_eq.
Qed.

(** X15: the keys of the converted dictionary are the converted keys of
    the given one, each once and in the order of its first occurrence.
    Keys that convert to the same key are merged into one entry, so the
    result never has more entries than the given dictionary, and it has
    the converted keys in the order of the given ones when they are
    all different. *)
Theorem codec_form_keys (dictionary converted : pydict json)
        (Hreturns : transaction_json_to_binary_codec_form is_model dictionary
                    = Returned converted) :
  NoDup (keys converted)
  /\ (forall key', In key' (keys converted)
                   <-> exists key, In key (keys dictionary)
                                   /\ _key_to_tx_json key = key')
  /\ (List.length converted <= List.length dictionary)%nat
  /\ (NoDup (map _key_to_tx_json (keys dictionary)) ->
      keys converted = map _key_to_tx_json (keys dictionary)
      /\ List.length converted = List.length dictionary).
Proof.
  unfold transaction_json_to_binary_codec_form in Hreturns.
  destruct (traverse _ dictionary) as [items |] eqn:Hitems; [| discriminate].
  injection Hreturns as <-.
  apply codec_form_items in Hitems.
  pose proof (Forall2_length Hitems) as Hlen.
  apply codec_form_item_keys in Hitems.
  unfold dict_of_items. repeat split.
  - apply dict_update_nodup. constructor.
  - intros Hin. apply dict_update_keys in Hin as [[] | Hin].
    rewrite Hitems in Hin. apply in_map_iff in Hin as (key & <- & Hin).
    now exists key.
  - intros (key & Hin & <-). apply dict_update_has_keys. right.
    rewrite Hitems. now apply in_map.
  - pose proof (dict_update_length items []) as H. cbn in H. lia.
  - rewrite dict_update_fresh; cbn [app]; [assumption |].
    now rewrite Hitems.
  - rewrite dict_update_fresh; cbn [app]; [now symmetry |].
    now rewrite Hitems.
Qed.

(** X16: of the entries whose keys convert to the same key, the last one
    gives the value of the converted dictionary at that key. *)
Theorem codec_form_last_entry_wins
        (before after converted : pydict json) (key : string) (value : json)
        (Hlast : Forall (fun kv => _key_to_tx_json (fst kv)
                                   <> _key_to_tx_json key) after)
        (Hreturns : transaction_json_to_binary_codec_form is_model
                      (before ++ (key, value) :: after)
                    = Returned converted) :
  exists value',
    _value_to_tx_json is_model value = Returned value'
    /\ dict_get (_key_to_tx_json key) converted = Some value'.
Proof.
  unfold transaction_json_to_binary_codec_form in Hreturns.
  destruct (traverse _ _) as [items |] eqn:Hitems; [| discriminate].
  injection Hreturns as <-.
  apply codec_form_items in Hitems.
  apply Forall2_app_inv_l in Hitems as (pre & rest & Hpre & Hrest & ->).
  inversion Hrest as [| kv [k' v'] l l' [Hk Hv] Hpost]; subst.
  cbn in Hk, Hv. subst k'.
  exists v'. split; [assumption |].
  unfold dict_of_items. apply dict_get_update_last.
  apply codec_form_item_keys in Hpost. rewrite Hpost.
  intros Hin. apply in_map_iff in Hin as (k0 & Hk0 & Hin).
  apply in_map_iff in Hin as ([k1 v1] & <- & Hin).
  rewrite Forall_forall in Hlast. now apply (Hlast _ Hin).
Qed.


(** X17: a value that is neither a dictionary nor a list is returned as it
    is.  A list becomes the list of its converted elements.  A
    dictionary becomes a dictionary: with the keys it has when it
    passes the test of the model, and the one that
    [transaction_json_to_binary_codec_form] gives when it does not. *)
Theorem value_to_tx_json_by_class (value value' : json)
        (Hreturns : _value_to_tx_json is_model value = Returned value') :
  match value with
  | JDict d =>
      exists d',
      value' = JDict d'
      /\ NoDup (keys d')
      /\ (is_model value = true -> NoDup (keys d) -> keys d' = keys d)
      /\ (is_model value = false ->
          transaction_json_to_binary_codec_form is_model d = Returned d')
  | JList l =>
      exists l',
      value' = JList l'
      /\ Forall2 (fun x y => _value_to_tx_json is_model x = Returned y) l l'
  | _ => value' = value
  end.
Proof.
  destruct value as [| b | n | s | l | d]; cbn [_value_to_tx_json] in Hreturns;
    destruct (is_model _) eqn:Hm; try discriminate;
    try (now injection Hreturns as <-).
  - destruct (traverse _ l) as [l' |] eqn:Hl; [| discriminate].
    injection Hreturns as <-. exists l'. split; [reflexivity |].
    now apply traverse_returned.
  - destruct (traverse _ d) as [items |] eqn:Hitems; [| discriminate].
    injection Hreturns as <-. exists (dict_of_items items).
    apply (codec_form_items (fun k => k)) in Hitems.
    apply (codec_form_item_keys (fun k => k)) in Hitems.
    rewrite map_id in Hitems.
    unfold dict_of_items. repeat split.
    + apply dict_update_nodup. constructor.
    + intros _ Hnd. rewrite dict_update_fresh; cbn [app]; [assumption |].
      now rewrite Hitems.
    + discriminate.
  - destruct (traverse _ d) as [items |] eqn:Hitems; [| discriminate].
    injection Hreturns as <-. exists (dict_of_items items).
    unfold transaction_json_to_binary_codec_form. rewrite Hitems.
    unfold dict_of_items. repeat split.
    + apply dict_update_nodup. constructor.
    + discriminate.
Qed.




End CodecForm.

Section CodecFormExamples.

Import TxJson.

Lemma codec_form_keys_witness :
  NoDup (keys [("Account", JInt 2); ("Fee", JStr "10")])
  /\ (forall key',
         In key' (keys [("Account", JInt 2); ("Fee", JStr "10")])
         <-> exists key,
             In key (keys [("account", JInt 1); ("fee", JStr "10");
                           ("Account", JInt 2)])
             /\ _key_to_tx_json key = key')
  /\ (List.length [("Account", JInt 2); ("Fee", JStr "10")]
      <= List.length [("account", JInt 1); ("fee", JStr "10");
                      ("Account", JInt 2)])%nat
  /\ (NoDup (map _key_to_tx_json
                 (keys [("account", JInt 1); ("fee", JStr "10");
                        ("Account", JInt 2)])) ->
      keys [("Account", JInt 2); ("Fee", JStr "10")]
      = map _key_to_tx_json
            (keys [("account", JInt 1); ("fee", JStr "10");
                   ("Account", JInt 2)])
      /\ List.length [("Account", JInt 2); ("Fee", JStr "10")]
         = List.length [("account", JInt 1); ("fee", JStr "10");
                        ("Account", JInt 2)]).
Proof.
  apply (codec_form_keys sample_is_dict_of_model
           [("account", JInt 1); ("fee", JStr "10"); ("Account", JInt 2)]
           [("Account", JInt 2); ("Fee", JStr "10")]).
  reflexivity.
Defined.

Lemma codec_form_last_entry_wins_witness :
  exists value',
    _value_to_tx_json sample_is_dict_of_model (JInt 2) = Returned value'
    /\ dict_get (_key_to_tx_json "Account")
                [("Account", JInt 2); ("Fee", JStr "10")]
       = Some value'.
Proof.
  apply (codec_form_last_entry_wins sample_is_dict_of_model
           [("account", JInt 1)] [("fee", JStr "10")]
           [("Account", JInt 2); ("Fee", JStr "10")] "Account" (JInt 2)).
  - repeat constructor. intros H. vm_compute in H. discriminate.
  - reflexivity.
Defined.

Lemma value_to_tx_json_by_class_witness :
  exists l',
    JList [JStr "a"; JDict [("SignerWeight", JInt 1)]] = JList l'
    /\ Forall2 (fun x y =>
                  _value_to_tx_json sample_is_dict_of_model x = Returned y)
               [JStr "a"; JDict [("signer_weight", JInt 1)]] l'.
Proof.
  apply (value_to_tx_json_by_class sample_is_dict_of_model
           (JList [JStr "a"; JDict [("signer_weight", JInt 1)]])
           (JList [JStr "a"; JDict [("SignerWeight", JInt 1)]])).
  reflexivity.
Defined.


End CodecFormExamples.

(* ================================================================== *)
(** * The validation of the models *)

Section SignerListSetErrors.

Import SignerListSet.

Lemma dict_set_twice {V : Type} (k : string) (v w : V) (d : pydict V) :
  dict_set k v (dict_set k w d) = dict_set k v d.
Proof.
  induction d as [| [k' v'] d IH]; cbn.
  - now rewrite String.eqb_refl.
  - destruct (String.eqb k k') eqn:E; cbn.
    + now rewrite String.eqb_refl.
    + now rewrite E, IH.
Qed.

Lemma dict_set_same {V : Type} (k : string) (v : V) (d : pydict V) :
  dict_get k d = Some v -> dict_set k v d = d.
Proof.
  induction d as [| [k' v'] d IH]; cbn; [discriminate |].
  destruct (String.eqb_spec k k') as [-> | _].
  - intros H. now injection H as ->.
  - intros H. now rewrite IH.
Qed.

Lemma set_add_In (a b : string) (s : list string) :
  In b (set_add a s) <-> b = a \/ In b s.
Proof.
  unfold set_add. destruct (existsb (String.eqb a) s) eqn:E.
  - split; [now right |]. intros [-> | H]; [| assumption].
    apply existsb_exists in E as (x & Hx & Hax).
    apply String.eqb_eq in Hax. now subst.
  - rewrite in_app_iff. cbn. intuition.
Qed.

Lemma existsb_eqb_In (a : string) (s : list string) :
  existsb (String.eqb a) s = true <-> In a s.
Proof.
  rewrite existsb_exists. split.
  - intros (x & Hx & E). apply String.eqb_eq in E. now subst.
  - intros H. exists a. split; [assumption | apply String.eqb_refl].
Qed.

Lemma accounts_added_length (accounts : list string) :
  forall s,
    (List.length (accounts_added accounts s)
     <= List.length s + List.length accounts)%nat.
Proof.
  induction accounts as [| a l IH]; intros s; cbn; [lia |].
  specialize (IH (set_add a s)). unfold accounts_added in IH.
  unfold set_add in *. destruct (existsb (String.eqb a) s).
  - lia.
  - rewrite length_app in IH. cbn in IH. lia.
Qed.

(** The set has as many members as there are entries exactly when no
    account is repeated. *)
Lemma accounts_added_all (accounts : list string) :
  forall s,
    NoDup s ->
    List.length (accounts_added accounts s)
    = (List.length s + List.length accounts)%nat
    <-> NoDup (s ++ accounts).
Proof.
  induction accounts as [| a l IH]; intros s Hs.
  - cbn. rewrite app_nil_r. split; [now intros _ | intros _; lia].
  - cbn [accounts_added fold_left List.length].
    fold (accounts_added l (set_add a s)).
    unfold set_add. destruct (existsb (String.eqb a) s) eqn:E.
    + apply existsb_eqb_In in E.
      pose proof (accounts_added_length l s) as Hle.
      split; [lia |].
      intros Hnd. apply NoDup_remove_2 in Hnd.
      exfalso. apply Hnd. apply in_or_app. now left.
    + assert (Hnot : ~ In a s).
      { intros Hin. apply existsb_eqb_In in Hin. congruence. }
      assert (Hs' : NoDup (s ++ [a])).
      { apply NoDup_app; [assumption | repeat constructor; intros [] |].
        intros x Hx [<- | []]. contradiction. }
      specialize (IH (s ++ [a]) Hs').
      rewrite length_app in IH. cbn [List.length] in IH.
      rewrite <- app_assoc in IH. cbn [app] in IH.
      rewrite <- IH. lia.
Qed.

Lemma entry_loop (self : t) (entries : list SignerEntry.t) :
  forall errors account_set signer_weight_sum,
    fold_left (entry_step self) entries
              (errors, account_set, signer_weight_sum)
    = (if existsb (fun e => String.eqb (SignerEntry.account e)
                                       (account self)) entries
       then dict_set "signer_entries" submitter_in_entries errors
       else errors,
       accounts_added (map SignerEntry.account entries) account_set,
       signer_weight_sum + weights entries).
Proof.
  induction entries as [| e l IH]; intros errors account_set sum.
  - cbn. now rewrite Z.add_0_r.
  - cbn [fold_left entry_step]. rewrite IH.
    cbn [existsb map accounts_added fold_left weights fold_right].
    fold (weights l).
    destruct (String.eqb (SignerEntry.account e) (account self)); cbn [orb].
    + destruct (existsb _ l); [rewrite dict_set_twice |];
        repeat (f_equal; try lia).
    + repeat (f_equal; try lia).
Qed.

Lemma reported_set (key message : string) (errors : pydict string) :
  In (key, message) messages -> reported (dict_set key message errors).
Proof.
  intros Hin. exists key, message. split; [assumption |].
  apply dict_get_set_eq.
Qed.

Lemma reported_kept (key message : string) (errors : pydict string) :
  In (key, message) messages ->
  reported errors -> reported (dict_set key message errors).
Proof.
  intros Hin (k & m & Hkm & Hget).
  destruct (String.eqb_spec k key) as [-> | Hne].
  - now apply reported_set.
  - exists k, m. split; [assumption |].
    now rewrite dict_get_set_neq.
Qed.

Lemma forall_accounts (self : t) (entries : list SignerEntry.t) :
  existsb (fun e => String.eqb (SignerEntry.account e) (account self))
          entries = false
  <-> Forall (fun e => SignerEntry.account e <> account self) entries.
Proof.
  induction entries as [| e l IH]; cbn.
  - split; [constructor | reflexivity].
  - rewrite orb_false_iff, IH. split.
    + intros [H1 H2]. constructor; [| assumption].
      now apply String.eqb_neq.
    + intros H. inversion H; subst. split; [| assumption].
      now apply String.eqb_neq.
Qed.

(** X20: the method leaves the errors it is given as they are exactly for
    the accepted transactions: the deletion of the list, with a quorum
    of zero and no entries, and a list of one to eight entries with a
    positive quorum that the sum of the weights reaches, whose accounts
    are all different and none the submitter.  For any other
    transaction the errors returned hold one of the messages of the
    method under its key. *)
Theorem signer_list_set_errors (self : t) (errors : pydict string) :
  (accepted self -> _get_errors errors self = errors)
  /\ (~ accepted self -> reported (_get_errors errors self)).
Proof.
  unfold accepted, _get_errors.
  destruct self as [acc quorum [entries |]]; cbn [signer_entries
    signer_quorum SignerListSet.account andb negb].
  - rewrite andb_true_r, andb_false_r.
    rewrite entry_loop. cbv beta iota zeta. cbn [SignerListSet.account].
    set (sub := existsb _ entries).
    pose proof (forall_accounts (mk acc quorum (Some entries)) entries)
      as Hsub. cbn [SignerListSet.account] in Hsub. fold sub in Hsub.
    pose proof (accounts_added_all (map SignerEntry.account entries) []
                  (NoDup_nil _)) as Hset.
    cbn [app List.length Nat.add] in Hset. rewrite length_map in Hset.
    rewrite Z.add_0_l.
    split.
    + intros (Hq & Hlen & Hall & Hsum & Hnd).
      apply Hsub in Hall. apply Hset in Hnd.
      replace (quorum =? 0) with false by (symmetry; apply Z.eqb_neq; lia).
      replace (quorum <=? 0) with false by (symmetry; apply Z.leb_gt; lia).
      replace (List.length entries <? 1)%nat with false
        by (symmetry; apply Nat.ltb_ge; lia).
      replace (8 <? List.length entries)%nat with false
        by (symmetry; apply Nat.ltb_ge; lia).
      cbn [orb]. rewrite Hall.
      replace (quorum >? weights entries) with false
        by (symmetry; rewrite Z.gtb_ltb; apply Z.ltb_ge; lia).
      rewrite Hnd, Nat.eqb_refl. reflexivity.
    + intros Hno.
      destruct ((List.length entries <? 1)%nat
                || (8 <? List.length entries)%nat) eqn:Elen.
      { apply reported_set. own_message. }
      apply orb_false_iff in Elen as [E1 E8].
      apply Nat.ltb_ge in E1, E8.
      destruct (negb (List.length
                        (accounts_added (map SignerEntry.account entries) [])
                      =? List.length entries)%nat) eqn:Edup.
      { apply reported_set. own_message. }
      apply negb_false_iff, Nat.eqb_eq in Edup. apply Hset in Edup.
      destruct (quorum >? weights entries) eqn:Esum.
      { apply reported_set. own_message. }
      rewrite Z.gtb_ltb in Esum. apply Z.ltb_ge in Esum.
      destruct sub eqn:Esub.
      { apply reported_set. own_message. }
      destruct (quorum <=? 0) eqn:Eq.
      { apply reported_set. own_message. }
      apply Z.leb_gt in Eq.
      exfalso. apply Hno. repeat split; try assumption; try lia.
      now apply Hsub.
  - rewrite andb_false_r, andb_true_r. split.
    + intros ->. reflexivity.
    + intros Hq. destruct (Z.eqb_spec quorum 0) as [-> | _];
        [contradiction |].
      cbn [negb]. apply reported_set. own_message.
Qed.

Lemma signer_list_set_errors_witness :
  _get_errors [("fee", "bad fee")]
              (mk "rSubmitter" 3
                  (Some [SignerEntry.mk "rA" 2; SignerEntry.mk "rB" 1]))
  = [("fee", "bad fee")]
  /\ reported (_get_errors [("fee", "bad fee")]
                           (mk "rSubmitter" 3
                               (Some [SignerEntry.mk "rA" 2;
                                      SignerEntry.mk "rA" 1]))).
Proof.
  split.
  - apply (signer_list_set_errors
             (mk "rSubmitter" 3
                 (Some [SignerEntry.mk "rA" 2; SignerEntry.mk "rB" 1]))).
    cbv [accepted signer_entries signer_quorum SignerListSet.account].
    repeat split; cbn; try lia.
    + repeat constructor; cbn; discriminate.
    + repeat constructor; cbn; intuition discriminate.
  - apply (signer_list_set_errors
             (mk "rSubmitter" 3
                 (Some [SignerEntry.mk "rA" 2; SignerEntry.mk "rA" 1]))).
    cbv [accepted signer_entries signer_quorum SignerListSet.account].
    intros (_ & _ & _ & _ & Hnd). cbn in Hnd.
    inversion Hnd as [| ? ? Hin _]; subst. apply Hin. now left.
Defined.

Example signer_list_set_rejected_examples :
  _get_errors [] (mk "rS" 0 (Some []))
  = [("signer_list_set", deleted_with_entries);
     ("signer_quorum", quorum_not_positive);
     ("signer_entries", entries_out_of_range)]
  /\ _get_errors [] (mk "rS" 5 (Some [SignerEntry.mk "rS" 2;
                                      SignerEntry.mk "rS" 1]))
     = [("signer_entries", account_repeated);
        ("signer_quorum", quorum_above_weights)]
  /\ _get_errors [] (mk "rS" 1 None)
     = [("signer_list_set", deleted_with_quorum)].
Proof. repeat split. Qed.

End SignerListSetErrors.

Section NFTokenAcceptOfferErrors.

Import NFTokenAcceptOffer.

Variable Amount : Type.
Variable amount_value_le_zero : Amount -> bool.

Lemma keys_some (d : pydict string) :
  keys (map (fun kv => (fst kv, Some (snd kv))) d) = keys d.
Proof. unfold keys. rewrite map_map. reflexivity. Qed.

Lemma dict_get_some (key : string) (d : pydict string) :
  dict_get key (map (fun kv => (fst kv, Some (snd kv))) d)
  = option_map Some (dict_get key d).
Proof.
  induction d as [| [k v] d IH]; cbn; [reflexivity |].
  now destruct (String.eqb key k).
Qed.

Lemma not_none_keys (d : pydict (option string)) (key : string) :
  In key (keys (not_none d)) -> In key (keys d).
Proof.
  induction d as [| [k [v |]] d IH]; cbn; [tauto | | ].
  - intros [H | H]; [now left | right; now apply IH].
  - intros H. right. now apply IH.
Qed.

Lemma not_none_nodup (d : pydict (option string)) :
  NoDup (keys d) -> NoDup (keys (not_none d)).
Proof.
  induction d as [| [k [v |]] d IH]; cbn; intros Hnd;
    inversion Hnd as [| ? ? Hk Hd]; subst.
  - constructor.
  - constructor; [| now apply IH].
    intros Hin. apply Hk. now apply not_none_keys.
  - now apply IH.
Qed.

Lemma dict_get_not_none (d : pydict (option string)) (key : string) :
  NoDup (keys d) ->
  dict_get key (not_none d)
  = match dict_get key d with
    | Some (Some v) => Some v
    | _ => None
    end.
Proof.
  induction d as [| [k [v |]] d IH]; cbn; intros Hnd;
    inversion Hnd as [| ? ? Hk Hd]; subst; [reflexivity | |].
  - destruct (String.eqb key k); [reflexivity | now apply IH].
  - destruct (String.eqb_spec key k) as [-> | _]; [| now apply IH].
    destruct (dict_get k (not_none d)) as [w |] eqn:E; [| reflexivity].
    exfalso. apply Hk. apply not_none_keys.
    apply dict_get_Some_In in E. now apply In_keys in E.
Qed.

(** X21: the errors returned hold, under each of the three keys of this
    method, what the method of that key returns, whatever the extended
    class reported under it; and under any other key what the extended
    class reported. *)
Theorem nftoken_accept_offer_errors_by_key
        (super_errors : pydict string) (self : t Amount) (key : string)
        (Hdict : NoDup (keys super_errors)) :
  dict_get key (_get_errors amount_value_le_zero super_errors self)
  = if String.eqb key "sell_offer" then _get_sell_offer_error self
    else if String.eqb key "buy_offer" then _get_buy_offer_error self
    else if String.eqb key "broker_fee"
         then _get_broker_fee_error amount_value_le_zero self
    else dict_get key super_errors.
Proof.
  unfold _get_errors, TxJson.dict_of_items.
  assert (Hnd : NoDup (keys (merged amount_value_le_zero super_errors self))).
  { unfold merged. apply dict_update_nodup. now rewrite keys_some. }
  rewrite dict_update_fresh by (cbn [app]; now apply not_none_nodup).
  cbn [app]. rewrite dict_get_not_none by assumption.
  unfold merged, dict_update. cbn [fold_left fst snd].
  destruct (String.eqb_spec key "broker_fee") as [-> | Hfee].
  { rewrite dict_get_set_eq. cbn.
    now destruct (_get_broker_fee_error amount_value_le_zero self). }
  rewrite dict_get_set_neq by assumption.
  destruct (String.eqb_spec key "buy_offer") as [-> | Hbuy].
  { rewrite dict_get_set_eq. cbn. now destruct (_get_buy_offer_error self). }
  rewrite dict_get_set_neq by assumption.
  destruct (String.eqb_spec key "sell_offer") as [-> | Hsell].
  { rewrite dict_get_set_eq. now destruct (_get_sell_offer_error self). }
  rewrite dict_get_set_neq by assumption.
  rewrite dict_get_some. now destruct (dict_get key super_errors).
Qed.

(** X22: the three methods report nothing exactly in the two modes: one or
    both of the offers and no broker fee, or both offers and a broker
    fee whose value is above zero. *)
Theorem nftoken_accept_offer_modes (self : t Amount) :
  (_get_sell_offer_error self = None
   /\ _get_buy_offer_error self = None
   /\ _get_broker_fee_error amount_value_le_zero self = None)
  <-> match broker_fee self with
      | None => sell_offer self <> None \/ buy_offer self <> None
      | Some fee =>
          sell_offer self <> None /\ buy_offer self <> None
          /\ amount_value_le_zero fee = false
      end.
Proof.
  unfold _get_sell_offer_error, _get_buy_offer_error, _get_broker_fee_error.
  destruct self as [[s |] [b |] [fee |]]; cbn;
    try destruct (amount_value_le_zero fee); cbn;
    intuition (discriminate || congruence).
Qed.

End NFTokenAcceptOfferErrors.

Section NFTokenAcceptOfferExamples.

Import NFTokenAcceptOffer.

Lemma nftoken_accept_offer_errors_by_key_witness :
  dict_get "sell_offer"
           (_get_errors (fun fee : Z => fee <=? 0)
                        [("sell_offer", "inherited"); ("fee", "bad fee")]
                        (mk (Some "offer") None None))
  = None.
Proof.
  rewrite (nftoken_accept_offer_errors_by_key Z (fun fee : Z => fee <=? 0)
             [("sell_offer", "inherited"); ("fee", "bad fee")]
             (mk (Some "offer") None None) "sell_offer").
  - reflexivity.
  - repeat constructor; cbn; intuition discriminate.
Defined.

Lemma nftoken_accept_offer_modes_witness :
  _get_sell_offer_error (mk (Some "sell") (Some "buy") (Some 5)) = None
  /\ _get_buy_offer_error (mk (Some "sell") (Some "buy") (Some 5)) = None
  /\ _get_broker_fee_error (fun fee : Z => fee <=? 0)
                           (mk (Some "sell") (Some "buy") (Some 5))
     = None.
Proof.
  apply (nftoken_accept_offer_modes Z (fun fee : Z => fee <=? 0)
           (mk (Some "sell") (Some "buy") (Some 5))).
  cbn. repeat split; discriminate.
Defined.

End NFTokenAcceptOfferExamples.

Section OneOfErrors.

(** X23: the errors are left as they are exactly when one of the two
    accounts is a string that is not empty and the other is not: an
    empty string counts as absent.  Otherwise the key of the model
    holds one of the two messages, and the other keys what they held. *)
Theorem deposit_preauth_errors (self : DepositPreauth.t)
        (errors : pydict string) :
  let a := DepositPreauth.truthy (DepositPreauth.authorize self) in
  let u := DepositPreauth.truthy (DepositPreauth.unauthorize self) in
  (xorb a u = true -> DepositPreauth._get_errors errors self = errors)
  /\ (xorb a u = false ->
      dict_get "DepositPreauth" (DepositPreauth._get_errors errors self)
      = Some (if a
              then "One of authorize and unauthorize must be set, not both."
              else "One of authorize and unauthorize must be set."))
  /\ (forall key, key <> "DepositPreauth" ->
                  dict_get key (DepositPreauth._get_errors errors self)
                  = dict_get key errors).
Proof.
  unfold DepositPreauth._get_errors.
  destruct (DepositPreauth.truthy (DepositPreauth.authorize self)),
    (DepositPreauth.truthy (DepositPreauth.unauthorize self)); cbn;
    repeat split; try discriminate; try reflexivity;
    intros; rewrite ?dict_get_set_eq, ?dict_get_set_neq by assumption;
    reflexivity.
Qed.

(** X24: the errors are left as they are exactly when one of the four
    signing methods is set and the three others are not; a string that
    is empty counts as set. *)
Theorem channel_authorize_errors (self : ChannelAuthorize.t)
        (errors : pydict string) :
  (ChannelAuthorize.one_signing_method self ->
   ChannelAuthorize._get_errors errors self = errors)
  /\ (~ ChannelAuthorize.one_signing_method self ->
      dict_get "ChannelAuthorize" (ChannelAuthorize._get_errors errors self)
      = Some "Must set exactly one of `secret`, `seed`, `seed_hex`, or `passphrase`.")
  /\ (forall key, key <> "ChannelAuthorize" ->
                  dict_get key (ChannelAuthorize._get_errors errors self)
                  = dict_get key errors).
Proof.
  unfold ChannelAuthorize._get_errors, ChannelAuthorize.one_signing_method,
    ChannelAuthorize.is_set.
  destruct self as [[a |] [b |] [c |] [d |]];
    cbn [ChannelAuthorize.secret ChannelAuthorize.seed
         ChannelAuthorize.seed_hex ChannelAuthorize.passphrase
         ChannelAuthorize.not_none List.length Nat.eqb negb];
    (split; [| split]);
    try (intros; rewrite ?dict_get_set_eq, ?dict_get_set_neq by assumption;
         reflexivity);
    try (intros H; exfalso; intuition (discriminate || congruence)).
Qed.

End OneOfErrors.

Section OneOfExamples.

Lemma deposit_preauth_errors_witness :
  DepositPreauth._get_errors [("fee", "bad fee")]
                             (DepositPreauth.mk (Some "") (Some "rOther"))
  = [("fee", "bad fee")].
Proof.
  apply (proj1 (deposit_preauth_errors
                  (DepositPreauth.mk (Some "") (Some "rOther"))
                  [("fee", "bad fee")])).
  reflexivity.
Defined.

Lemma channel_authorize_errors_witness :
  ChannelAuthorize._get_errors [] (ChannelAuthorize.mk None (Some "") None None)
  = [].
Proof.
  apply (proj1 (channel_authorize_errors
                  (ChannelAuthorize.mk None (Some "") None None) [])).
  right. left. cbv [ChannelAuthorize.is_set]. cbn.
  repeat split. discriminate.
Defined.

End OneOfExamples.
